(** * hypod: the VPS manager bot, embedded and checked against its specification

    The development follows [src/hypod.py].  The three global tables of the
    bot are a record that every command threads through a small state and
    exception monad; the container runtime (the [lxc] command line) and the
    chat transport are an oracle that answers every external call, so a
    theorem that quantifies over the oracle holds for every behaviour of the
    outside world.

    Conventions.
    - Discord ids are snowflakes (unsigned integers); [str(user.id)], the key
      of the tables, is injective on them, so the tables are keyed by [N].
    - Text is ASCII.  Python's [capitalize], [upper] and [lower] follow the
      Unicode case tables; on ASCII text they act on the letters A-Z and a-z
      and leave other characters alone, and that is what [PyStr] has.  A
      statement whose conclusion depends on how a token is case-mapped
      assumes [PyStr.isascii] of the token; beyond ASCII the source can
      accept a token that is rejected here (the dotless i of "ıntel"
      capitalizes to "Intel").
    - [PLANS] stores the RAM of a plan as the text "<n>GB" and its CPU count
      as decimal text and parses them back with [int]; the catalogue below
      keeps the numbers and [gb] and [pretty] render the stored text.
    - The CPU usage is a float in the source and a rational here; the
      comparison with the threshold is exact on both.
    - [save_data] catches and logs its own failures; a flush always succeeds
      here.
    - The [@is_admin()] decorators are checks of the command surface and are
      not part of the model. *)

From stdpp Require Import gmap strings list pretty.
From Stdlib Require Import Ascii ZArith QArith.

Local Open Scope string_scope.
Local Open Scope list_scope.
Local Open Scope Z_scope.

(** ** Python string methods used by the commands *)

Module PyStr.

(** The case functions below are Python's on ASCII text, the domain of the
    model; [isascii] is [str.isascii()]. *)
Fixpoint isascii (s : string) : bool :=
  match s with
  | EmptyString => true
  | String c r => (N_of_ascii c <? 128)%N && isascii r
  end.

Definition is_upper (c : ascii) : bool :=
  let n := N_of_ascii c in ((65 <=? n) && (n <=? 90))%N.

Definition is_lower (c : ascii) : bool :=
  let n := N_of_ascii c in ((97 <=? n) && (n <=? 122))%N.

Definition to_lower (c : ascii) : ascii :=
  if is_upper c then ascii_of_N (N_of_ascii c + 32) else c.

Definition to_upper (c : ascii) : ascii :=
  if is_lower c then ascii_of_N (N_of_ascii c - 32) else c.

(** [str.lower()] *)
Fixpoint lower (s : string) : string :=
  match s with
  | EmptyString => EmptyString
  | String c r => String (to_lower c) (lower r)
  end.

(** [str.upper()] *)
Fixpoint upper (s : string) : string :=
  match s with
  | EmptyString => EmptyString
  | String c r => String (to_upper c) (upper r)
  end.

(** [str.capitalize()]: first character upper-cased, the rest lower-cased. *)
Definition capitalize (s : string) : string :=
  match s with
  | EmptyString => EmptyString
  | String c r => String (to_upper c) (lower r)
  end.

(** [s.startswith(p)] *)
Fixpoint startswith (p s : string) : bool :=
  match p, s with
  | EmptyString, _ => true
  | String a p', String b s' => bool_decide (a = b) && startswith p' s'
  | String _ _, EmptyString => false
  end.

(** [x in xs] on a list of strings *)
Definition is_in (x : string) (xs : list string) : bool := bool_decide (x ∈ xs).

End PyStr.

(** ** Resource catalogue: [PLANS] and [PRICES] *)

Record plan_spec := { spec_ram_gb : Z; spec_cpu : Z; spec_storage : Z }.

(** A Python dict literal read as an association list. *)
Fixpoint dict_get {V : Type} (k : string) (d : list (string * V)) : option V :=
  match d with
  | [] => None
  | (k', v) :: d' => if bool_decide (k = k') then Some v else dict_get k d'
  end.

Definition PLANS : list (string * plan_spec) :=
  [ ("Starter",  {| spec_ram_gb := 4;  spec_cpu := 1; spec_storage := 20 |});
    ("Basic",    {| spec_ram_gb := 8;  spec_cpu := 1; spec_storage := 30 |});
    ("Standard", {| spec_ram_gb := 12; spec_cpu := 2; spec_storage := 50 |});
    ("Pro",      {| spec_ram_gb := 16; spec_cpu := 2; spec_storage := 80 |}) ].

Definition PRICES : list (string * list (string * Z)) :=
  [ ("Starter",  [("Intel", 42);  ("AMD", 83)]);
    ("Basic",    [("Intel", 96);  ("AMD", 164)]);
    ("Standard", [("Intel", 192); ("AMD", 320)]);
    ("Pro",      [("Intel", 220); ("AMD", 340)]) ].

Definition CPU_THRESHOLD : Z := 90.
Definition CHECK_INTERVAL : Z := 60.

(** The text stored in a record for a size in gigabytes: [f"{n}GB"]. *)
Definition gb (n : Z) : string := pretty n +:+ "GB".

(** [f"vps-{user_id}-{vps_count}"] *)
Definition vps_name (user_id : N) (vps_count : nat) : string :=
  "vps-" +:+ pretty user_id +:+ "-" +:+ pretty vps_count.

(** The processor token accepted by [buy_with_credits] (lines 544 and 548):
    the capitalized token must be one of the three listed spellings, and the
    price column is AMD when its upper-casing starts with "A". *)
Definition processor_listed (processor : string) : bool :=
  PyStr.is_in processor ["Intel"; "AMD"; "Amd"].

Definition processor_key (processor : string) : string :=
  if PyStr.startswith "A" (PyStr.upper processor) then "AMD" else "Intel".

(** ** Data model *)

Inductive vps_status := running | stopped.

(** One entry of a [vps_data] list: the dict built by [create_vps] (lines
    468-476) and [buy_with_credits] (lines 578-588).  The keys [plan] and
    [processor] are absent from records made by [create_vps]. *)
Record vps_info := {
  plan : option string;
  container_name : string;
  ram : string;
  cpu : string;
  storage : string;
  status : vps_status;
  created_at : string;
  processor : option string;
  shared_with : list N }.

Definition set_status (s : vps_status) (v : vps_info) : vps_info :=
  {| plan := plan v; container_name := container_name v; ram := ram v;
     cpu := cpu v; storage := storage v; status := s;
     created_at := created_at v; processor := processor v;
     shared_with := shared_with v |}.

Definition set_storage (s : string) (v : vps_info) : vps_info :=
  {| plan := plan v; container_name := container_name v; ram := ram v;
     cpu := cpu v; storage := s; status := status v;
     created_at := created_at v; processor := processor v;
     shared_with := shared_with v |}.

Definition set_shared_with (l : list N) (v : vps_info) : vps_info :=
  {| plan := plan v; container_name := container_name v; ram := ram v;
     cpu := cpu v; storage := storage v; status := status v;
     created_at := created_at v; processor := processor v;
     shared_with := l |}.

Definition set_created_at (t : string) (v : vps_info) : vps_info :=
  {| plan := plan v; container_name := container_name v; ram := ram v;
     cpu := cpu v; storage := storage v; status := status v;
     created_at := t; processor := processor v;
     shared_with := shared_with v |}.

(** The in-memory tables [user_data] (credits per user) and [vps_data]
    (records per owner). *)
Record tables := {
  user_data : gmap N Z;
  vps_data : gmap N (list vps_info) }.

(** ** The outside world *)

(** External calls: the [lxc] verbs, [top], and the chat transport.  An embed
    is identified by its title.  [lxc_launch_text] is the launch of the
    reinstall (line 359), whose CPU limit is the stored text. *)
Inductive call :=
| lxc_launch (name : string) (ram_mb cpu_count : Z) (pool : string)
| lxc_root_size (name : string) (size_gb : Z)
| lxc_grow_fs (name : string)
| lxc_set_memory (name : string) (ram_mb : Z)
| lxc_set_cpu (name : string) (cpu_count : Z)
| lxc_start (name : string)
| lxc_stop (name : string)
| lxc_restart (name : string)
| lxc_delete (name : string)
| lxc_stop_all
| top
| ctx_send (title : string)
| user_send (to : N) (title : string)
| get_role
| add_roles (to : N)
| remove_roles (to : N)
| lxc_launch_text (name : string) (ram_mb : Z) (cpu_text : string) (pool : string).

#[global] Instance call_eq_dec : EqDecision call.
Proof. solve_decision. Defined.

(** How a call ends: normally, with [discord.Forbidden], or with any other
    exception (non-zero exit, timeout, [discord.HTTPException]). *)
Inductive outcome := ok | forbidden | failed.

(** The world answers each call knowing the calls made so far; it also gives
    the time and the CPU usage that [top] reports. *)
Record world := {
  respond : list call -> call -> outcome;
  clock : list call -> string;
  usage : list call -> Q }.

(** Program state: the tables, their last flushed copy, the number of flushes,
    the monitor flag, and the calls made so far (oldest first). *)
Record state := {
  mem : tables;
  disk : tables;
  saves : nat;
  cpu_monitor_active : bool;
  trace : list call }.

Inductive exn := LxcError | Forbidden | HTTPException | KeyError | ValueError.

(** ** A state and exception monad for the commands *)

Definition M (A : Type) : Type := state -> (exn + A) * state.

Definition ret {A} (a : A) : M A := fun st => (inr a, st).

Definition bind {A B} (m : M A) (k : A -> M B) : M B := fun st =>
  match m st with
  | (inr a, st') => k a st'
  | (inl e, st') => (inl e, st')
  end.

Definition raise {A} (e : exn) : M A := fun st => (inl e, st).

(** [try: m except Exception: h] *)
Definition try_except {A} (m : M A) (h : exn -> M A) : M A := fun st =>
  match m st with
  | (inr a, st') => (inr a, st')
  | (inl e, st') => h e st'
  end.

(** [try: m except discord.Forbidden: h] *)
Definition except_forbidden {A} (m : M A) (h : M A) : M A :=
  try_except m (fun e => match e with Forbidden => h | _ => raise e end).

Declare Scope cmd_scope.
Delimit Scope cmd_scope with cmd.
Notation "'let*' x := m 'in' k" := (bind m (fun x => k))
  (at level 10, x name, m at level 100, k at level 200) : cmd_scope.
Notation "m >> k" := (bind m (fun _ => k))
  (at level 65, right associativity) : cmd_scope.
Local Open Scope cmd_scope.

Definition gets {A} (f : tables -> A) : M A := fun st => (inr (f (mem st)), st).

Definition modify (f : tables -> tables) : M unit := fun st =>
  (inr tt, {| mem := f (mem st); disk := disk st; saves := saves st;
              cpu_monitor_active := cpu_monitor_active st; trace := trace st |}).

(** [save_data()]: rewrites the files from the tables; a failed write is only
    logged there and is not modelled. *)
Definition save_data : M unit := fun st =>
  (inr tt, {| mem := mem st; disk := mem st; saves := S (saves st);
              cpu_monitor_active := cpu_monitor_active st; trace := trace st |}).

Definition set_monitor (b : bool) : M unit := fun st =>
  (inr tt, {| mem := mem st; disk := disk st; saves := saves st;
              cpu_monitor_active := b; trace := trace st |}).

Definition log (c : call) (st : state) : state :=
  {| mem := mem st; disk := disk st; saves := saves st;
     cpu_monitor_active := cpu_monitor_active st; trace := trace st ++ [c] |}.

(** [d[k]] on a table or a dict literal: [KeyError] when the key is absent. *)
Definition item {A} (o : option A) : M A :=
  match o with Some a => ret a | None => raise KeyError end.

(** Who issues a command, and whether it comes from a guild ([ctx.guild]). *)
Record context := { author : N; guild : bool }.

(** What a command reports when it returns: the embed it ends with. *)
Inductive reply :=
| InvalidSpecs | Created (v : vps_info) | CreationFailed
| InvalidPlan | InvalidProcessor | InsufficientCredits
| Purchased (v : vps_info) | PurchaseFailed
| InvalidVPS | AlreadyShared | Shared | NotShared | Revoked
| Deleted | DeletionFailed
| Resized | ResizeFailed
| Started | StartFailed | Stopped | StopFailed
| Restarted | RestartFailed
| InvalidAmount | CreditsAdded
| MonitorStatus | MonitorEnabled | MonitorDisabled | InvalidAction.

Section Commands.

Variable w : world.

(** An external call: it is recorded, and the world decides how it ends. *)
Definition perform (c : call) : M unit := fun st =>
  match respond w (trace st) c with
  | ok => (inr tt, log c st)
  | forbidden => (inl Forbidden, log c st)
  | failed => (inl HTTPException, log c st)
  end.

(** [execute_lxc] (lines 126-148): every failure of the verb is re-raised as a
    plain exception. *)
Definition execute_lxc (c : call) : M unit :=
  try_except (perform c) (fun _ => raise LxcError).

(** [datetime.now().isoformat()] *)
Definition now : M string := fun st => (inr (clock w (trace st)), st).

(** [get_cpu_usage] (lines 151-168): the busy percentage parsed from [top],
    and 0.0 when reading it fails. *)
Definition get_cpu_usage : M Q := fun st =>
  match respond w (trace st) top with
  | ok => (inr (usage w (trace st)), log top st)
  | _ => (inr 0%Q, log top st)
  end.

(** [set_root_disk_size] (lines 196-217): the quota override is re-raised on
    failure, the growth of the filesystem inside the guest is best effort. *)
Definition set_root_disk_size (container_name : string) (size_gb : Z) : M unit :=
  execute_lxc (lxc_root_size container_name size_gb) >>
  try_except (execute_lxc (lxc_grow_fs container_name)) (fun _ => ret tt).

(** [core_create_container] (lines 220-226) *)
Definition core_create_container (container_name : string)
    (ram_gb cpu storage_gb : Z) (storage_pool : string) : M unit :=
  let ram_mb := ram_gb * 1024 in
  execute_lxc (lxc_launch container_name ram_mb cpu storage_pool) >>
  set_root_disk_size container_name storage_gb.

(** [get_or_create_vps_role] (lines 507-533) never raises: it returns the role
    or [None]. *)
Definition get_or_create_vps_role : M bool :=
  try_except (perform get_role >> ret true) (fun _ => ret false).

(** ** Table accessors *)

(** [if user_id not in user_data: user_data[user_id] = {"credits": 0}] *)
Definition ensure_user (user_id : N) (t : tables) : tables :=
  match user_data t !! user_id with
  | Some _ => t
  | None => {| user_data := <[user_id := 0]> (user_data t); vps_data := vps_data t |}
  end.

(** [if user_id not in vps_data: vps_data[user_id] = []] *)
Definition ensure_vps (user_id : N) (t : tables) : tables :=
  match vps_data t !! user_id with
  | Some _ => t
  | None => {| user_data := user_data t; vps_data := <[user_id := []]> (vps_data t) |}
  end.

Definition set_credits (user_id : N) (c : Z) (t : tables) : tables :=
  {| user_data := <[user_id := c]> (user_data t); vps_data := vps_data t |}.

Definition set_vps_list (user_id : N) (l : list vps_info) (t : tables) : tables :=
  {| user_data := user_data t; vps_data := <[user_id := l]> (vps_data t) |}.

Definition del_vps_list (user_id : N) (t : tables) : tables :=
  {| user_data := user_data t; vps_data := delete user_id (vps_data t) |}.

(** [user_data[user_id]["credits"]] *)
Definition credits (user_id : N) : M Z :=
  let* o := gets (fun t => user_data t !! user_id) in item o.

(** [vps_data[user_id]] *)
Definition vps_list (user_id : N) : M (list vps_info) :=
  let* o := gets (fun t => vps_data t !! user_id) in item o.

(** The guard shared by [share_user], [revoke_share] and [delete_vps]:
    [user_id not in vps_data or vps_number < 1 or vps_number > len(...)]. *)
Definition bad_vps_number (user_id : N) (vps_number : Z) (t : tables) : bool :=
  match vps_data t !! user_id with
  | None => true
  | Some l => (vps_number <? 1) || (Z.of_nat (length l) <? vps_number)
  end.

(** The role step of [create_vps] and [buy_with_credits] (lines 481-487,
    592-598): only [discord.Forbidden] is caught. *)
Definition grant_role (ctx : context) (user_id : N) : M unit :=
  if guild ctx then
    let* vps_role := get_or_create_vps_role in
    if vps_role then except_forbidden (perform (add_roles user_id)) (ret tt)
    else ret tt
  else ret tt.

(** ** [create_vps] (lines 448-505) *)
Definition create_vps (ctx : context) (user : N) (ram cpu storage : Z) : M reply :=
  if (ram <=? 0) || (cpu <=? 0) || (storage <=? 0) then
    perform (ctx_send "Invalid Specs") >> ret InvalidSpecs
  else
    let user_id := user in
    modify (ensure_vps user_id) >>
    let* l := vps_list user_id in
    let vps_count := (length l + 1)%nat in
    let container_name := vps_name user_id vps_count in
    perform (ctx_send "Creating VPS") >>
    try_except
      (core_create_container container_name ram cpu storage "btrpool" >>
       let* t := now in
       let vps_info :=
         {| plan := None; container_name := container_name; ram := gb ram;
            cpu := pretty cpu; storage := gb storage; status := running;
            created_at := t; processor := None; shared_with := [] |} in
       let* l := vps_list user_id in
       modify (set_vps_list user_id (l ++ [vps_info])) >>
       save_data >>
       grant_role ctx user >>
       perform (ctx_send "VPS Created Successfully") >>
       except_forbidden (perform (user_send user "VPS Created!"))
         (perform (ctx_send "Notification Failed")) >>
       ret (Created vps_info))
      (fun _ => perform (ctx_send "Creation Failed") >> ret CreationFailed).

(** ** [buy_with_credits] (lines 535-620) *)

(** [storage if storage and storage > 0 else default_storage] (line 570) *)
Definition effective_storage (storage : option Z) (default_storage : Z) : Z :=
  match storage with
  | Some s => if bool_decide (s ≠ 0) && (0 <? s) then s else default_storage
  | None => default_storage
  end.

Definition buy_with_credits (ctx : context) (plan processor : string)
    (storage : option Z) : M reply :=
  let plan := PyStr.capitalize plan in
  let processor := PyStr.capitalize processor in
  match dict_get plan PRICES with
  | None => perform (ctx_send "Invalid Plan") >> ret InvalidPlan
  | Some prices =>
    if negb (processor_listed processor) then
      perform (ctx_send "Invalid Processor") >> ret InvalidProcessor
    else
      let processor_key := processor_key processor in
      let* cost := item (dict_get processor_key prices) in
      let user_id := author ctx in
      modify (ensure_user user_id) >>
      let* have := credits user_id in
      if have <? cost then
        perform (ctx_send "Insufficient Credits") >> ret InsufficientCredits
      else
        modify (set_credits user_id (have - cost)) >>
        modify (ensure_vps user_id) >>
        let* l := vps_list user_id in
        let vps_count := (length l + 1)%nat in
        let container_name := vps_name user_id vps_count in
        let* plan_spec := item (dict_get plan PLANS) in
        let ram_str := gb (spec_ram_gb plan_spec) in
        let cpu_str := pretty (spec_cpu plan_spec) in
        let default_storage := spec_storage plan_spec in
        let storage_gb := effective_storage storage default_storage in
        let ram_gb := spec_ram_gb plan_spec in
        perform (ctx_send "Processing Purchase") >>
        try_except
          (core_create_container container_name ram_gb (spec_cpu plan_spec)
             storage_gb "btrpool" >>
           let* t := now in
           let vps_info :=
             {| plan := Some plan; container_name := container_name;
                ram := ram_str; cpu := cpu_str; storage := gb storage_gb;
                status := running; created_at := t;
                processor := Some processor_key; shared_with := [] |} in
           let* l := vps_list user_id in
           modify (set_vps_list user_id (l ++ [vps_info])) >>
           save_data >>
           grant_role ctx user_id >>
           perform (ctx_send "VPS Purchased Successfully") >>
           except_forbidden (perform (user_send user_id "VPS Purchased!"))
             (perform (ctx_send "DM Failed")) >>
           ret (Purchased vps_info))
          (fun _ =>
             (* Refund credits on failure *)
             let* have := credits user_id in
             modify (set_credits user_id (have + cost)) >>
             save_data >>
             perform (ctx_send "Purchase Failed") >> ret PurchaseFailed)
  end.

(** ** [share_user] (lines 691-713) and [revoke_share] (lines 715-737) *)

(** [vps_data[user_id][vps_number - 1]] *)
Definition nth_vps (user_id : N) (vps_number : Z) : M vps_info :=
  let* l := vps_list user_id in item (l !! Z.to_nat (vps_number - 1)).

(** Replaces the record at [vps_number - 1]: the dict in the list is mutated
    in place. *)
Definition update_nth_vps (user_id : N) (vps_number : Z) (f : vps_info -> vps_info)
    (t : tables) : tables :=
  {| user_data := user_data t;
     vps_data := alter (alter f (Z.to_nat (vps_number - 1))) user_id (vps_data t) |}.

Definition share_user (ctx : context) (shared_user : N) (vps_number : Z) : M reply :=
  let user_id := author ctx in
  let shared_user_id := shared_user in
  let* bad := gets (bad_vps_number user_id vps_number) in
  if (bad : bool) then perform (ctx_send "Invalid VPS") >> ret InvalidVPS
  else
    let* vps := nth_vps user_id vps_number in
    if bool_decide (shared_user_id ∈ shared_with vps) then
      perform (ctx_send "Already Shared") >> ret AlreadyShared
    else
      modify (update_nth_vps user_id vps_number
                (fun v => set_shared_with (shared_with v ++ [shared_user_id]) v)) >>
      save_data >>
      perform (ctx_send "VPS Shared") >>
      except_forbidden (perform (user_send shared_user "VPS Access Granted"))
        (perform (ctx_send "Notification Failed")) >>
      ret Shared.

(** [list.remove(x)]: drops the first occurrence. *)
Fixpoint remove_first (x : N) (l : list N) : list N :=
  match l with
  | [] => []
  | y :: l' => if bool_decide (x = y) then l' else y :: remove_first x l'
  end.

Definition revoke_share (ctx : context) (shared_user : N) (vps_number : Z) : M reply :=
  let user_id := author ctx in
  let shared_user_id := shared_user in
  let* bad := gets (bad_vps_number user_id vps_number) in
  if (bad : bool) then perform (ctx_send "Invalid VPS") >> ret InvalidVPS
  else
    let* vps := nth_vps user_id vps_number in
    if negb (bool_decide (shared_user_id ∈ shared_with vps)) then
      perform (ctx_send "Not Shared") >> ret NotShared
    else
      modify (update_nth_vps user_id vps_number
                (fun v => set_shared_with (remove_first shared_user_id (shared_with v)) v)) >>
      save_data >>
      perform (ctx_send "Access Revoked") >>
      except_forbidden (perform (user_send shared_user "VPS Access Revoked"))
        (perform (ctx_send "Notification Failed")) >>
      ret Revoked.

(** ** [delete_vps] (lines 754-789) *)

(** [del vps_data[user_id][vps_number - 1]] and, when the list is left empty,
    [del vps_data[user_id]]. *)
Definition del_nth_vps (user_id : N) (vps_number : Z) (l : list vps_info)
    (t : tables) : tables :=
  set_vps_list user_id (delete (Z.to_nat (vps_number - 1)) l) t.

Definition revoke_role (ctx : context) (user : N) : M unit :=
  if guild ctx then
    let* vps_role := get_or_create_vps_role in
    if vps_role then except_forbidden (perform (remove_roles user)) (ret tt)
    else ret tt
  else ret tt.

Definition delete_vps (ctx : context) (user : N) (vps_number : Z) : M reply :=
  let user_id := user in
  let* bad := gets (bad_vps_number user_id vps_number) in
  if (bad : bool) then perform (ctx_send "Invalid VPS") >> ret InvalidVPS
  else
    let* vps := nth_vps user_id vps_number in
    let container_name := container_name vps in
    perform (ctx_send "Deleting VPS") >>
    try_except
      (execute_lxc (lxc_delete container_name) >>
       let* l := vps_list user_id in
       modify (del_nth_vps user_id vps_number l) >>
       let* l := vps_list user_id in
       (match l with
        | [] => modify (del_vps_list user_id) >> revoke_role ctx user
        | _ => ret tt
        end) >>
       save_data >>
       perform (ctx_send "VPS Deleted Successfully") >>
       ret Deleted)
      (fun _ => perform (ctx_send "Deletion Failed") >> ret DeletionFailed).

(** ** [resize_vps] (lines 1064-1084) *)

(** The loop of lines 1077-1080: every record of every owner with that
    container name gets the new storage text. *)
Definition update_storage (container : string) (storage : Z) (t : tables) : tables :=
  {| user_data := user_data t;
     vps_data :=
       fmap (M := gmap N)
         (fmap (M := list)
            (fun vps => if bool_decide (container_name vps = container)
                        then set_storage (gb storage) vps else vps))
         (vps_data t) |}.

(** [if x:] on an optional integer: absent and zero are both false. *)
Definition truthy (x : option Z) : option Z :=
  match x with
  | Some v => if bool_decide (v = 0) then None else Some v
  | None => None
  end.

Definition resize_vps (container : string) (ram cpu storage : option Z) : M reply :=
  try_except
    ((match truthy ram with
      | Some ram => execute_lxc (lxc_set_memory container (ram * 1024))
      | None => ret tt
      end) >>
     (match truthy cpu with
      | Some cpu => execute_lxc (lxc_set_cpu container cpu)
      | None => ret tt
      end) >>
     (match truthy storage with
      | Some storage =>
          set_root_disk_size container storage >>
          modify (update_storage container storage)
      | None => ret tt
      end) >>
     save_data >>
     perform (ctx_send "VPS Resized") >> ret Resized)
    (fun _ => perform (ctx_send "Resize Failed") >> ret ResizeFailed).

(** ** Start and stop from the manage view (lines 379-399), for the owner's
    record at a list index *)

Definition manage_start (owner : N) (selected_index : nat) : M reply :=
  let* l := vps_list owner in
  let* vps := item (l !! selected_index) in
  try_except
    (execute_lxc (lxc_start (container_name vps)) >>
     modify (update_nth_vps owner (Z.of_nat selected_index + 1) (set_status running)) >>
     save_data >>
     perform (ctx_send "VPS Started") >> ret Started)
    (fun _ => perform (ctx_send "Start Failed") >> ret StartFailed).

Definition manage_stop (owner : N) (selected_index : nat) : M reply :=
  let* l := vps_list owner in
  let* vps := item (l !! selected_index) in
  try_except
    (execute_lxc (lxc_stop (container_name vps)) >>
     modify (update_nth_vps owner (Z.of_nat selected_index + 1) (set_status stopped)) >>
     save_data >>
     perform (ctx_send "VPS Stopped") >> ret Stopped)
    (fun _ => perform (ctx_send "Stop Failed") >> ret StopFailed).

(** ** [admin_credits] (lines 1087-1098) *)
Definition admin_credits (user : N) (amount : Z) : M reply :=
  if amount <=? 0 then perform (ctx_send "Invalid Amount") >> ret InvalidAmount
  else
    let user_id := user in
    modify (ensure_user user_id) >>
    let* have := credits user_id in
    modify (set_credits user_id (have + amount)) >>
    save_data >>
    perform (ctx_send "Credits Added") >> ret CreditsAdded.

(** ** The CPU monitor (lines 170-193) and its control command (1044-1061) *)

(** Lines 180-183: every record whose status is running becomes stopped. *)
Definition stop_if_running (vps : vps_info) : vps_info :=
  match status vps with
  | running => set_status stopped vps
  | stopped => vps
  end.

Definition mark_all_stopped (t : tables) : tables :=
  {| user_data := user_data t;
     vps_data := fmap (M := gmap N) (fmap (M := list) stop_if_running) (vps_data t) |}.

(** [cpu_usage > CPU_THRESHOLD] *)
Definition over_threshold (cpu_usage : Q) : bool :=
  negb (Qle_bool cpu_usage (inject_Z CPU_THRESHOLD)).

(** [subprocess.run([...], check=True)]: a non-zero exit raises. *)
Definition subprocess_run (c : call) : M unit :=
  try_except (perform c) (fun _ => raise LxcError).

(** [time.sleep(CHECK_INTERVAL)]: time is not modelled. *)
Definition sleep : M unit := ret tt.

(** The body of the [while] loop, lines 173-190. *)
Definition cpu_monitor_body : M unit :=
  try_except
    (let* cpu_usage := get_cpu_usage in
     (if over_threshold cpu_usage then
        try_except
          (subprocess_run lxc_stop_all >>
           modify mark_all_stopped >>
           save_data)
          (fun _ => ret tt)
      else ret tt) >>
     sleep)
    (fun _ => sleep).

Definition cpu_monitor_control (action : string) : M reply :=
  if bool_decide (PyStr.lower action = "status") then
    perform (ctx_send "CPU Monitor Status") >> ret MonitorStatus
  else if bool_decide (PyStr.lower action = "enable") then
    set_monitor true >>
    perform (ctx_send "CPU Monitor Enabled") >> ret MonitorEnabled
  else if bool_decide (PyStr.lower action = "disable") then
    set_monitor false >>
    perform (ctx_send "CPU Monitor Disabled") >> ret MonitorDisabled
  else
    perform (ctx_send "Invalid Action") >> ret InvalidAction.

(** The monitor thread started at line 193.  [while cpu_monitor_active:] is
    evaluated each time the thread comes back from [sleep]; when the flag is
    false the function returns and the thread is over. *)
Inductive thread := Looping | Exited.

Definition cpu_monitor_wake (th : thread) (st : state) : thread * state :=
  match th with
  | Exited => (Exited, st)
  | Looping =>
      if cpu_monitor_active st then (Looping, (cpu_monitor_body st).2)
      else (Exited, st)
  end.

(** The bot as a whole: the thread wakes up, or an admin sends
    [.cpu-monitor <action>]; events are interleaved at that grain. *)
Inductive event := Wake | Control (action : string).

Definition step (sys : thread * state) (ev : event) : thread * state :=
  match ev with
  | Wake => cpu_monitor_wake sys.1 sys.2
  | Control action => (sys.1, (cpu_monitor_control action sys.2).2)
  end.

Definition run_events (evs : list event) (sys : thread * state) : thread * state :=
  foldl step sys evs.

(** The number of CPU samples taken so far. *)
Definition samples (st : state) : nat :=
  length (filter (fun c => c = top) (trace st)).

End Commands.

(** ** State observers used in the statements *)

(** The balance of a user: an account is created lazily with 0 credits. *)
Definition balance (st : state) (user_id : N) : Z :=
  default 0 (user_data (mem st) !! user_id).

(** The records of an owner: no entry and an empty list are the same. *)
Definition records (st : state) (user_id : N) : list vps_info :=
  default [] (vps_data (mem st) !! user_id).

(** The cost that lines 538-549 of [buy_with_credits] compute, when the plan
    and the processor token are both accepted. *)
Definition price (plan processor : string) : option Z :=
  let plan := PyStr.capitalize plan in
  let processor := PyStr.capitalize processor in
  match dict_get plan PRICES with
  | None => None
  | Some prices =>
      if processor_listed processor
      then dict_get (processor_key processor) prices else None
  end.

(** The plan keys, lower-cased. *)
Definition plan_names : list string := ["starter"; "basic"; "standard"; "pro"].

(** The storage text that [resize_vps] leaves in a record when it applies a
    new size to [container]. *)
Definition resized_storage (container : string) (size_gb : Z) (vps : vps_info) : string :=
  if bool_decide (container_name vps = container) then gb size_gb else storage vps.

(** How a command ends when its last act is to send an embed: with its reply,
    or with the exception of the transport. *)
Definition told (w : world) (st : state) (title : string) (r : reply) : exn + reply :=
  match respond w (trace st) (ctx_send title) with
  | ok => inr r
  | forbidden => inl Forbidden
  | failed => inl HTTPException
  end.

(** The state with another call history. *)
Definition with_trace (tr : list call) (st : state) : state :=
  {| mem := mem st; disk := disk st; saves := saves st;
     cpu_monitor_active := cpu_monitor_active st; trace := tr |}.

(** A command is silent when it only talks to the outside world: it leaves
    the tables, the flushed copy and the monitor flag alone and extends the
    call history. *)
Definition silent {A} (m : M A) : Prop :=
  ∀ st, ∃ tr, (m st).2 = with_trace (trace st ++ tr) st.

(** [wp m Q st]: running [m] from [st] ends in a result and a state that
    satisfy [Q]. *)
Definition wp {A} (m : M A) (Q : exn + A -> state -> Prop) (st : state) : Prop :=
  Q (m st).1 (m st).2.

(** No two stored records, of the same owner or of different owners, carry
    the same container name. *)
Definition names_unique (st : state) : Prop :=
  ∀ o1 i1 v1 o2 i2 v2,
    records st o1 !! i1 = Some v1 → records st o2 !! i2 = Some v2 →
    container_name v1 = container_name v2 → o1 = o2 ∧ i1 = i2.

(** The records of every owner are numbered 1, 2, 3, ... in list order: the
    shape of the store as long as no record other than a last one has been
    deleted. *)
Definition dense (st : state) : Prop :=
  ∀ o i v, records st o !! i = Some v → container_name v = vps_name o (S i).

(** Two records that agree on every field other than [status]. *)
Definition same_but_status (v v' : vps_info) : Prop :=
  plan v' = plan v ∧ container_name v' = container_name v ∧ ram v' = ram v ∧
  cpu v' = cpu v ∧ storage v' = storage v ∧ created_at v' = created_at v ∧
  processor v' = processor v ∧ shared_with v' = shared_with v.

(** The busy percentage that [get_cpu_usage] returns in a state. *)
Definition sampled_usage (w : world) (st : state) : Q :=
  match respond w (trace st) top with
  | ok => usage w (trace st)
  | _ => 0%Q
  end.

(** No record lists its own owner in [shared_with]. *)
Definition no_self_share (t : tables) : Prop :=
  ∀ o l i v, vps_data t !! o = Some l → l !! i = Some v → o ∉ shared_with v.

(** Every record of [t'] has an empty sharing list or comes from a record of
    the same owner in [t] whose sharing list it does not extend by the owner. *)
Definition shares_from (t t' : tables) : Prop :=
  ∀ o l' i v', vps_data t' !! o = Some l' → l' !! i = Some v' →
    shared_with v' = [] ∨
    ∃ l j v, vps_data t !! o = Some l ∧ l !! j = Some v ∧
             ∀ x, x ∈ shared_with v' → x ∈ shared_with v ∨ x ≠ o.

(** A command preserves a property of the tables. *)
Definition preserves {A} (I : tables -> Prop) (m : M A) : Prop :=
  ∀ st, I (mem st) → I (mem (m st).2).

(** Whether a text contains the separator of container names. *)
Fixpoint has_dash (s : string) : bool :=
  match s with
  | EmptyString => false
  | String c r => bool_decide (c = "-"%char) || has_dash r
  end.

(** The calls that go to the chat transport. *)
Definition chat_call (c : call) : bool :=
  match c with
  | ctx_send _ | user_send _ _ | get_role | add_roles _ | remove_roles _ => true
  | _ => false
  end.

(** A world in which the chat transport never raises. *)
Definition reliable_chat (w : world) : Prop :=
  ∀ h c, chat_call c = true → respond w h c = ok.

(** The bot at start-up: tables as loaded, monitor flag on, nothing called. *)
Definition boot (t : tables) : state :=
  {| mem := t; disk := t; saves := 0; cpu_monitor_active := true; trace := [] |}.

(** ** Concrete worlds and states for the examples *)

(** Every call succeeds; the clock and the CPU reading are constant. *)
Definition calm : world :=
  {| respond := fun _ _ => ok; clock := fun _ => "2024-01-01T00:00:00";
     usage := fun _ => 0%Q |}.

(** As [calm], but the calls in [bad] end with an exception. *)
Definition failing (bad : list call) : world :=
  {| respond := fun _ c => if bool_decide (c ∈ bad) then failed else ok;
     clock := fun _ => "2024-01-01T00:00:00"; usage := fun _ => 0%Q |}.

(** As [calm], but [top] reports the given busy percentage and the calls in
    [bad] fail. *)
Definition busy (u : Q) (bad : list call) : world :=
  {| respond := fun _ c => if bool_decide (c ∈ bad) then failed else ok;
     clock := fun _ => "2024-01-01T00:00:00"; usage := fun _ => u |}.

Definition U1 : context := {| author := 1; guild := true |}.

Definition with_credits (c : Z) : state :=
  boot {| user_data := {[ 1%N := c ]}; vps_data := ∅ |}.

Definition sample_vps (owner : N) (n : nat) (s : vps_status) : vps_info :=
  {| plan := None; container_name := vps_name owner n; ram := "4GB"; cpu := "1";
     storage := "20GB"; status := s; created_at := "2023-12-31T00:00:00";
     processor := None; shared_with := [] |}.

(** Three records of owner 7, numbered 1 to 3. *)
Definition three_of_7 : state :=
  boot {| user_data := ∅;
          vps_data := {[ 7%N := [sample_vps 7 1 running; sample_vps 7 2 running;
                                 sample_vps 7 3 running] ]} |}.

(** One record of owner 7, with the given status and sharing list. *)
Definition one_of_7 (s : vps_status) (shared : list N) : state :=
  boot {| user_data := ∅;
          vps_data := {[ 7%N := [set_shared_with shared (sample_vps 7 1 s)] ]} |}.

(** ** Further parts of the bot *)

(** *** The admin roster (lines 33, 85-100, 1128-1164)

    [admin_data["admins"]] is a list of ids; a missing key reads as the empty
    list.  The two roster commands are guarded by [@is_main_admin()]; what
    they send is their reply, and a failing send does not undo the write. *)

Definition MAIN_ADMIN_ID : N := 1061287786755395585.

(** The predicate of [is_admin] (line 88), also used at lines 668, 1223, 1257. *)
Definition is_admin (admins : list N) (user_id : N) : bool :=
  bool_decide (user_id = MAIN_ADMIN_ID) || bool_decide (user_id ∈ admins).

(** The predicate of [is_main_admin] (line 96). *)
Definition is_main_admin (user_id : N) : bool := bool_decide (user_id = MAIN_ADMIN_ID).

Inductive roster_reply :=
| AccessDenied | AlreadyAdmin | AdminAdded | CannotRemove | NotAdmin | AdminRemoved.

(** [admin_add] (lines 1128-1146) *)
Definition admin_add (caller : N) (admins : list N) (user : N) : roster_reply * list N :=
  if negb (is_main_admin caller) then (AccessDenied, admins)
  else
    let user_id := user in
    if bool_decide (user_id = MAIN_ADMIN_ID) then (AlreadyAdmin, admins)
    else if bool_decide (user_id ∈ admins) then (AlreadyAdmin, admins)
    else (AdminAdded, admins ++ [user_id]).

(** [admin_remove] (lines 1148-1164) *)
Definition admin_remove (caller : N) (admins : list N) (user : N) : roster_reply * list N :=
  if negb (is_main_admin caller) then (AccessDenied, admins)
  else
    let user_id := user in
    if bool_decide (user_id = MAIN_ADMIN_ID) then (CannotRemove, admins)
    else if negb (bool_decide (user_id ∈ admins)) then (NotAdmin, admins)
    else (AdminRemoved, remove_first user_id admins).

(** The default of [admin_data] when no file is found (line 70). *)
Definition initial_admins : list N := [MAIN_ADMIN_ID].

(** The "Total Admins" figure of [server_stats] (line 1247). *)
Definition total_admins (admins : list N) : nat := (length admins + 1)%nat.

(** The users who pass the [is_admin] check. *)
Definition admin_set (admins : list N) : gset N := {[ MAIN_ADMIN_ID ]} ∪ list_to_set admins.

(** A history of roster commands, by any callers. *)
Inductive roster_command := AdminAdd (caller user : N) | AdminRemove (caller user : N).

Definition run_roster_command (admins : list N) (c : roster_command) : list N :=
  match c with
  | AdminAdd caller user => (admin_add caller admins user).2
  | AdminRemove caller user => (admin_remove caller admins user).2
  end.

Definition run_roster (cs : list roster_command) (admins : list N) : list N :=
  foldl run_roster_command admins cs.

(** *** [admin_remove_credits] (lines 1100-1126) *)

Inductive removal_reply := RemovalInvalidAmount | CreditsRemoved (removed : Z).

Section Removal.

Variable w : world.

(** Python's [int] on text: the number, or nothing for [ValueError]. *)
Variable int : string -> option Z.

Definition admin_remove_credits (user : N) (amount_or_all : string) : M removal_reply :=
  let user_id := user in
  modify (ensure_user user_id) >>
  let* current_credits := credits user_id in
  if bool_decide (PyStr.lower amount_or_all = "all") then
    let removed := current_credits in
    modify (set_credits user_id 0) >>
    save_data >>
    perform w (ctx_send "Credits Removed") >> ret (CreditsRemoved removed)
  else
    match int amount_or_all with
    | Some amount =>
        if amount <=? 0 then
          perform w (ctx_send "Invalid Amount") >> ret RemovalInvalidAmount
        else
          let amount := if current_credits <? amount then current_credits else amount in
          let* have := credits user_id in
          modify (set_credits user_id (have - amount)) >>
          save_data >>
          perform w (ctx_send "Credits Removed") >> ret (CreditsRemoved amount)
    | None =>
        perform w (ctx_send "Invalid Amount") >> ret RemovalInvalidAmount
    end.

End Removal.

(** A reading of plain decimal text, one of the parsers [int] may stand for. *)
Definition digit_of (c : ascii) : option Z :=
  let n := N_of_ascii c in
  if ((48 <=? n) && (n <=? 57))%N then Some (Z.of_N n - 48) else None.

Fixpoint decimal_go (acc : Z) (s : string) : option Z :=
  match s with
  | EmptyString => Some acc
  | String c r =>
      match digit_of c with
      | Some d => decimal_go (10 * acc + d) r
      | None => None
      end
  end.

Definition decimal (s : string) : option Z :=
  match s with
  | EmptyString => None
  | String "-" r => match r with EmptyString => None | _ => Z.opp <$> decimal_go 0 r end
  | _ => decimal_go 0 s
  end.

(** *** Text helpers of [execute_command] and [list_snapshots] *)

(** [str.isspace] on a character; texts are sequences of code points
    below 256. *)
Definition is_space (c : ascii) : bool :=
  let n := N_of_ascii c in
  (((9 <=? n) && (n <=? 13)) || ((28 <=? n) && (n <=? 32)) || (n =? 133) || (n =? 160))%N.

(** [str.lstrip()], [str.rstrip()] and [str.strip()] *)
Fixpoint lstrip (s : string) : string :=
  match s with
  | EmptyString => EmptyString
  | String c r => if is_space c then lstrip r else s
  end.

Fixpoint rstrip (s : string) : string :=
  match s with
  | EmptyString => EmptyString
  | String c r =>
      match rstrip r with
      | EmptyString => if is_space c then EmptyString else String c EmptyString
      | r' => String c r'
      end
  end.

Definition strip (s : string) : string := rstrip (lstrip s).

(** [s[:n]] *)
Fixpoint str_take (n : nat) (s : string) : string :=
  match n, s with
  | S n', String c r => String c (str_take n' r)
  | _, _ => EmptyString
  end.

Definition newline : ascii := "010"%char.

(** Lines 985-988 and 989-992 of [execute_command]: the value of the output
    (or error) field, or nothing when the text is blank. *)
Definition clip (text : string) : string :=
  if (1000 <? String.length text)%nat
  then str_take 1000 text +:+ String newline "... (truncated)"
  else text.

Definition code_block (text : string) : string :=
  "```" +:+ String newline text +:+ String newline "```".

Definition exec_field (text : string) : option string :=
  match strip text with
  | EmptyString => None
  | _ => Some (code_block (clip text))
  end.

(** Line 982: [stdout.decode() if stdout else "No output"]. *)
Definition exec_output (stdout : string) : string :=
  match stdout with EmptyString => "No output" | _ => stdout end.

(** [s.split(sep)] for a one-character separator. *)
Fixpoint split_on (sep : ascii) (s : string) : list string :=
  match s with
  | EmptyString => [EmptyString]
  | String c r =>
      if bool_decide (c = sep) then EmptyString :: split_on sep r
      else match split_on sep r with
           | piece :: pieces => String c piece :: pieces
           | [] => [String c EmptyString]
           end
  end.

(** [s.split(sep, 1)] for a one-character separator. *)
Fixpoint split_once (sep : ascii) (s : string) : list string :=
  match s with
  | EmptyString => [EmptyString]
  | String c r =>
      if bool_decide (c = sep) then [EmptyString; r]
      else match split_once sep r with
           | piece :: pieces => String c piece :: pieces
           | [] => [String c EmptyString]
           end
  end.

(** [sub in s] *)
Fixpoint contains (sub s : string) : bool :=
  PyStr.startswith sub s ||
  match s with
  | EmptyString => false
  | String _ r => contains sub r
  end.

(** The loop of [list_snapshots] (lines 955-959); [None] stands for the
    [IndexError] of [line.split(':', 1)[1]]. *)
Fixpoint snapshot_names_of (lines : list string) : option (list string) :=
  match lines with
  | [] => Some []
  | line :: rest =>
      if contains "snapshot:" line then
        match split_once ":" line !! 1%nat with
        | Some after =>
            match snapshot_names_of rest with
            | Some names => Some (strip after :: names)
            | None => None
            end
        | None => None
        end
      else snapshot_names_of rest
  end.

Definition snapshot_names (info : string) : option (list string) :=
  snapshot_names_of (split_on newline info).

(** The text after the first occurrence of a character, if it occurs. *)
Fixpoint after_first (x : ascii) (s : string) : option string :=
  match s with
  | EmptyString => None
  | String c r => if bool_decide (c = x) then Some r else after_first x r
  end.

(** Whether a text holds a given character. *)
Fixpoint has_char (x : ascii) (s : string) : bool :=
  match s with
  | EmptyString => false
  | String c r => bool_decide (c = x) || has_char x r
  end.

(** *** The stored size text read back (lines 357-358, 1214, 1239):
    [text.replace("GB", "")] *)
Fixpoint remove_GB (s : string) : string :=
  match s with
  | String "G" (String "B" r) => remove_GB r
  | String c r => String c (remove_GB r)
  | EmptyString => EmptyString
  end.

(** Whether a text is made of decimal digits and minus signs only. *)
Fixpoint numeric (s : string) : bool :=
  match s with
  | EmptyString => true
  | String c r =>
      (bool_decide (c = "-"%char) ||
       ((48 <=? N_of_ascii c) && (N_of_ascii c <=? 57))%N) && numeric r
  end.

(** *** The manage views (lines 229-256, 306-326, 664-689, 739-752)

    [self.vps_list] is a reference to a list object.  [manage_vps] passes
    the owner's entry of [vps_data] itself, so the view sees every later
    change of that entry: after a deletion the records behind the deleted
    one have moved up by one position.  [manage_shared_vps] passes a fresh
    list.  The view here keeps the list as it was given and, in
    [view_holds_entry], whether that list is the owner's entry;
    [view_items] is what the reference yields when a callback runs. *)

Record manage_view := {
  view_user_id : N;
  view_vps_list : list vps_info;
  view_holds_entry : bool;
  view_selected_index : option nat;
  view_is_shared : bool;
  view_owner_id : N;
  view_is_admin : bool }.

(** [ManageView.__init__]: with more than one record a selection is awaited;
    otherwise index 0 is selected and its embed is built at once, which
    raises on an empty list ([None]).  Of the two call sites, the one with
    [is_shared] false passes the owner's entry and the one with [is_shared]
    true a list of its own. *)
Definition ManageView (user_id : N) (vps_list : list vps_info) (is_shared : bool)
    (owner_id : option N) (is_admin : bool) : option manage_view :=
  let view selected :=
    {| view_user_id := user_id; view_vps_list := vps_list;
       view_holds_entry := negb is_shared;
       view_selected_index := selected; view_is_shared := is_shared;
       view_owner_id := default user_id owner_id; view_is_admin := is_admin |} in
  if (1 <? length vps_list)%nat then Some (view None)
  else match vps_list !! 0%nat with
       | Some _ => Some (view (Some 0%nat))
       | None => None
       end.

(** The content of [self.vps_list] when the tables are [t]. *)
Definition view_items (t : tables) (view : manage_view) : list vps_info :=
  if view_holds_entry view then default [] (vps_data t !! view_owner_id view)
  else view_vps_list view.


Inductive shared_reply :=
| SharedInvalidVPS | SharedAccessDenied | SharedView (view : manage_view).

(** [manage_shared_vps] (lines 739-752); [None] stands for a raised
    exception. *)
Definition manage_shared_vps (user_id owner : N) (vps_number : Z) (t : tables)
    : option shared_reply :=
  let owner_id := owner in
  if bad_vps_number owner_id vps_number t then Some SharedInvalidVPS
  else
    match vps_data t !! owner_id with
    | None => None
    | Some l =>
        match l !! Z.to_nat (vps_number - 1) with
        | None => None
        | Some vps =>
            if negb (bool_decide (user_id ∈ shared_with vps)) then Some SharedAccessDenied
            else SharedView <$> ManageView user_id [vps] true (Some owner_id) false
        end
    end.

Inductive action_reply := ActionDenied | ActionOn (vps : vps_info).

(** The head of [action_callback] (lines 316-326): the access check and the
    record the action is applied to, read from the owner's entry (shared
    view) or from the view's list as it is now; [None] stands for a raised
    exception. *)
Definition action_target (view : manage_view) (interaction_user : N) (t : tables)
    : option action_reply :=
  if negb (bool_decide (interaction_user = view_user_id view)) && negb (view_is_admin view)
  then Some ActionDenied
  else
    match view_selected_index view with
    | None => None
    | Some selected_index =>
        if view_is_shared view then
          match vps_data t !! view_owner_id view with
          | None => None
          | Some l => ActionOn <$> l !! selected_index
          end
        else ActionOn <$> view_items t view !! selected_index
    end.





(** *** [restart_vps] (lines 899-914) *)

(** The inner loop (lines 907-911) on one owner's list: the first record with
    the name is set to running, and [break] leaves the list. *)
Fixpoint mark_running (name : string) (l : list vps_info) : list vps_info :=
  match l with
  | [] => []
  | vps :: rest =>
      if bool_decide (container_name vps = name) then set_status running vps :: rest
      else vps :: mark_running name rest
  end.

(** The outer loop (line 906) as one update of the table: the lists are
    separate objects and nothing between their updates can fail. *)
Definition restart_marks (name : string) (t : tables) : tables :=
  {| user_data := user_data t;
     vps_data := fmap (M := gmap N) (mark_running name) (vps_data t) |}.

(** The number of [save_data()] calls of the loop: one for every list that
    holds the name. *)
Definition restart_saves (name : string) (t : tables) : nat :=
  length (filter (fun entry => name ∈ container_name <$> entry.2)
            (map_to_list (vps_data t))).

Fixpoint save_times (k : nat) : M unit :=
  match k with
  | O => ret tt
  | S k' => save_data >> save_times k'
  end.

Section Restart.

Variable w : world.

Definition restart_vps (container_name : string) : M reply :=
  perform w (ctx_send "Restarting VPS") >>
  try_except
    (execute_lxc w (lxc_restart container_name) >>
     let* hits := gets (restart_saves container_name) in
     modify (restart_marks container_name) >>
     save_times hits >>
     perform w (ctx_send "VPS Restarted") >> ret Restarted)
    (fun _ => perform w (ctx_send "Restart Failed") >> ret RestartFailed).

End Restart.

(** *** [show_credits] (lines 1186-1195); the balance shown is returned, and
    the embed is named by the words of its title *)

Section ShowCredits.

Variable w : world.

Definition show_credits (ctx : context) : M Z :=
  let user_id := author ctx in
  let* known := gets (fun t => bool_decide (is_Some (user_data t !! user_id))) in
  (if (known : bool) then ret tt
   else modify (ensure_user user_id) >> save_data) >>
  let* shown := credits user_id in
  perform w (ctx_send "Credit Balance") >> ret shown.

End ShowCredits.

(** *** The confirmation of [stop_all_vps] (lines 1009-1036)

    As for start and stop from the manage view, the acknowledgement of the
    button press ([interaction.response.defer()]) is not a call of the model:
    it precedes the [try] block and writes nothing. *)

Definition is_running (vps : vps_info) : bool :=
  match status vps with
  | running => true
  | stopped => false
  end.

(** The loop of lines 1019-1024 counts the records that it stops. *)
Definition running_count (t : tables) : nat :=
  sum_list ((fun entry : N * list vps_info =>
               length (filter (fun vps => Is_true (is_running vps)) entry.2))
            <$> map_to_list (vps_data t)).

Inductive stop_all_reply := AllStopped (stopped_count : nat) | StopAllFailed | StopAllError.

Section StopAll.

Variable w : world.

(** [asyncio.create_subprocess_exec] and [communicate()] with the exit status
    left to the caller: [true] for status 0 ([ok]), [false] for another
    status ([failed]); the third answer of the world is an exception raised
    while the process is started or awaited. *)
Definition subprocess_exec (c : call) : M bool := fun st =>
  match respond w (trace st) c with
  | ok => (inr true, log c st)
  | failed => (inr false, log c st)
  | forbidden => (inl LxcError, log c st)
  end.

Definition stop_all_confirm : M stop_all_reply :=
  try_except
    (let* success := subprocess_exec lxc_stop_all in
     if (success : bool) then
       let* stopped_count := gets running_count in
       modify mark_all_stopped >>
       save_data >>
       perform w (ctx_send "All VPS Stopped") >> ret (AllStopped stopped_count)
     else
       perform w (ctx_send "Stop Failed") >> ret StopAllFailed)
    (fun _ => perform w (ctx_send "Error") >> ret StopAllError).

End StopAll.

(** *** The confirmation of a reinstall (lines 346-371)

    The confirmation view holds the container name and the record object
    that stood at the selected position when "Reinstall" was pressed
    ([self.vps], line 341).  When "Confirm" is pressed that object still is
    a record of the owner, at some position of the owner's list, or it was
    deleted in between and is no longer part of the tables; its fields are
    read from it and written to it wherever it is.  The acknowledgement of
    the button press and the refresh of the message after the success reply
    are not calls of the model, as for start and stop. *)

Inductive held_record := held_at (index : nat) | held_apart (vps : vps_info).

Inductive reinstall_reply := ReinstallComplete | ReinstallFailed.

Section Reinstall.

Variable w : world.

(** Python's [int] on text: the number, or nothing for [ValueError]. *)
Variable int : string -> option Z.

Definition parse_int (text : string) : M Z :=
  match int text with
  | Some n => ret n
  | None => raise ValueError
  end.

(** [self.vps]: a position outside the owner's list is not a state of the
    program. *)
Definition held_fields (owner : N) (held : held_record) : M vps_info :=
  match held with
  | held_at index => let* l := vps_list owner in item (l !! index)
  | held_apart vps => ret vps
  end.

Definition write_held (owner : N) (held : held_record) (f : vps_info -> vps_info)
    : M unit :=
  match held with
  | held_at index => modify (update_nth_vps owner (Z.of_nat index + 1) f)
  | held_apart _ => ret tt
  end.

Definition reinstall_confirm (owner : N) (container_name : string)
    (held : held_record) : M reinstall_reply :=
  try_except
    (perform w (ctx_send "Deleting Container") >>
     execute_lxc w (lxc_delete container_name) >>
     perform w (ctx_send "Recreating Container") >>
     let* vps := held_fields owner held in
     let original_ram := ram vps in
     let original_cpu := cpu vps in
     let original_storage := storage vps in
     let* ram_gb := parse_int (remove_GB original_ram) in
     let ram_mb := ram_gb * 1024 in
     let* storage_gb := parse_int (remove_GB original_storage) in
     execute_lxc w (lxc_launch_text container_name ram_mb original_cpu "btrpool") >>
     set_root_disk_size w container_name storage_gb >>
     write_held owner held (set_status running) >>
     let* t := now w in
     write_held owner held (set_created_at t) >>
     save_data >>
     perform w (ctx_send "Reinstall Complete") >> ret ReinstallComplete)
    (fun _ => perform w (ctx_send "Reinstall Failed") >> ret ReinstallFailed).

End Reinstall.

(** *** The deployment fields of [list_all_vps] (lines 832-839) *)

(** [range(0, stop, step)] for a positive step. *)
Definition range_step (stop step : nat) : list nat :=
  (fun k => k * step)%nat <$> seq 0 ((stop + step - 1) / step).

(** [l[i:j]] for [i <= j] *)
Definition slice {A} (i j : nat) (l : list A) : list A := take (j - i) (drop i l).

(** One field per chunk: the bounds shown in its name and its lines. *)
Definition deployment_fields (vps_info : list string) : list (nat * nat * list string) :=
  let chunk_size := 15%nat in
  (fun i => (i + 1, Nat.min (i + chunk_size) (length vps_info),
             slice i (i + chunk_size) vps_info))%nat
    <$> range_step (Nat.min (length vps_info) 30) chunk_size.

(** The number announced by the "Additional VPS" field, when there is one. *)
Definition additional_vps (vps_info : list string) : option nat :=
  if (30 <? length vps_info)%nat then Some (length vps_info - 30)%nat else None.

(** ** Further observers *)

(** The runtime calls of [resize_vps] that end the command when they fail,
    in the order of lines 1069-1075. *)
Definition resize_calls (container : string) (ram cpu storage : option Z) : list call :=
  match truthy ram with
  | Some r => [lxc_set_memory container (r * 1024)]
  | None => []
  end ++
  match truthy cpu with
  | Some n => [lxc_set_cpu container n]
  | None => []
  end ++
  match truthy storage with
  | Some g => [lxc_root_size container g]
  | None => []
  end.

(** The calls of [cs], made one after the other from the history [h], are all
    answered with [ok]. *)
Fixpoint all_ok (w : world) (h : list call) (cs : list call) : Prop :=
  match cs with
  | [] => True
  | c :: cs' => respond w h c = ok ∧ all_ok w (h ++ [c]) cs'
  end.

(** The world accepts every call. *)
Definition obliging (w : world) : Prop := ∀ h c, respond w h c = ok.

(** Two records that agree on every field other than [shared_with]. *)
Definition same_but_shared (v v' : vps_info) : Prop :=
  plan v' = plan v ∧ container_name v' = container_name v ∧ ram v' = ram v ∧
  cpu v' = cpu v ∧ storage v' = storage v ∧ status v' = status v ∧
  created_at v' = created_at v ∧ processor v' = processor v.

(** From [st] to [s], nothing changed but the sharing list of record [i] of
    owner [u]. *)
Definition shares_only (u : N) (i : nat) (st s : state) : Prop :=
  user_data (mem s) = user_data (mem st) ∧
  (∀ u' j, u' ≠ u ∨ j ≠ i → records s u' !! j = records st u' !! j) ∧
  (∀ u', Forall2 same_but_shared (records st u') (records s u')).

(** How often a user is listed in a sharing list. *)
Definition listed (x : N) (l : list N) : nat := length (filter (fun y => y = x) l).

(** No balance is negative. *)
Definition credits_nonneg (t : tables) : Prop :=
  ∀ u c, user_data t !! u = Some c → 0 <= c.

(** * Theorems *)

(** ** Case mapping *)

Section CaseMapping.
Import PyStr.

Example capitalize_amd : capitalize "aMD" = "Amd".
Proof. reflexivity. Qed.

Example capitalize_intel : capitalize "INTEL" = "Intel".
Proof. reflexivity. Qed.

Example vps_name_7_3 : vps_name 7 3 = "vps-7-3".
Proof. reflexivity. Qed.

Example gb_20 : gb 20 = "20GB".
Proof. reflexivity. Qed.

Example effective_storage_values :
  effective_storage None 20 = 20 ∧ effective_storage (Some 0) 20 = 20 ∧
  effective_storage (Some (-3)) 20 = 20 ∧ effective_storage (Some 35) 20 = 35.
Proof. by repeat split. Qed.

Lemma to_lower_upper c : to_lower (to_upper c) = to_lower c.
Proof. by destruct c as [[] [] [] [] [] [] [] []]. Qed.

Lemma to_upper_lower c : to_upper (to_lower c) = to_upper c.
Proof. by destruct c as [[] [] [] [] [] [] [] []]. Qed.

Lemma to_lower_idem c : to_lower (to_lower c) = to_lower c.
Proof. by destruct c as [[] [] [] [] [] [] [] []]. Qed.

Lemma lower_idem s : lower (lower s) = lower s.
Proof. induction s as [|c s IH]; simpl; [done|]. by rewrite to_lower_idem, IH. Qed.

Lemma lower_capitalize s : lower (capitalize s) = lower s.
Proof. destruct s as [|c s]; simpl; [done|]. by rewrite to_lower_upper, lower_idem. Qed.

Lemma capitalize_lower s : capitalize (lower s) = capitalize s.
Proof. destruct s as [|c s]; simpl; [done|]. by rewrite to_upper_lower, lower_idem. Qed.

Lemma capitalize_eq_iff s t : capitalize s = capitalize t ↔ lower s = lower t.
Proof.
  split; intros H.
  - by rewrite <-(lower_capitalize s), H, lower_capitalize.
  - by rewrite <-(capitalize_lower s), H, capitalize_lower.
Qed.

Lemma capitalize_idem s : capitalize (capitalize s) = capitalize s.
Proof. by rewrite <-capitalize_lower, lower_capitalize, capitalize_lower. Qed.

(** The first character decides the price column. *)
Lemma processor_key_capitalize s :
  processor_key (capitalize s) =
  if startswith "a" (lower s) then "AMD" else "Intel".
Proof.
  destruct s as [|c s]; [done|].
  unfold processor_key; simpl.
  rewrite !andb_true_r.
  by destruct c as [[] [] [] [] [] [] [] []].
Qed.

Lemma processor_listed_capitalize s :
  processor_listed (capitalize s) = true ↔ lower s = "intel" ∨ lower s = "amd".
Proof.
  unfold processor_listed, is_in. rewrite bool_decide_eq_true.
  rewrite !elem_of_cons, elem_of_nil.
  change "Intel" with (capitalize "intel").
  change "Amd" with (capitalize "amd").
  rewrite !capitalize_eq_iff. simpl (lower _) at 2 4.
  split; [|by intros [?|?]; [left|right; right; left]].
  intros [?|[H|[?|[]]]]; [by left| |by right].
  apply (f_equal capitalize) in H. rewrite capitalize_idem in H.
  apply capitalize_eq_iff in H. by right.
Qed.

Lemma capitalize_eq_const s k :
  capitalize k = k → capitalize s = k ↔ lower s = lower k.
Proof. intros Hk. by rewrite <-Hk at 1; rewrite capitalize_eq_iff. Qed.

(** Looking a capitalized key up in a table keyed like [PLANS] and [PRICES]. *)
Lemma dict_get_plan {V} s (v1 v2 v3 v4 : V) :
  dict_get (capitalize s)
    [("Starter", v1); ("Basic", v2); ("Standard", v3); ("Pro", v4)] =
  if bool_decide (lower s = "starter") then Some v1
  else if bool_decide (lower s = "basic") then Some v2
  else if bool_decide (lower s = "standard") then Some v3
  else if bool_decide (lower s = "pro") then Some v4
  else None.
Proof.
  cbn [dict_get].
  rewrite (bool_decide_ext _ _ (capitalize_eq_const s "Starter" eq_refl)).
  rewrite (bool_decide_ext _ _ (capitalize_eq_const s "Basic" eq_refl)).
  rewrite (bool_decide_ext _ _ (capitalize_eq_const s "Standard" eq_refl)).
  rewrite (bool_decide_ext _ _ (capitalize_eq_const s "Pro" eq_refl)).
  done.
Qed.

End CaseMapping.

(** ** Silent commands *)

Lemma with_trace_id st : with_trace (trace st ++ []) st = st.
Proof. destruct st. unfold with_trace. simpl. by rewrite app_nil_r. Qed.

Lemma with_trace_twice tr tr' st :
  with_trace (trace (with_trace tr st) ++ tr') (with_trace tr st)
  = with_trace (tr ++ tr') st.
Proof. done. Qed.

Lemma silent_ret {A} (a : A) : silent (ret a).
Proof. intros st. exists []. by rewrite with_trace_id. Qed.

Lemma silent_raise {A} e : silent (raise (A := A) e).
Proof. intros st. exists []. by rewrite with_trace_id. Qed.

Lemma silent_bind {A B} (m : M A) (k : A -> M B) :
  silent m → (∀ a, silent (k a)) → silent (bind m k).
Proof.
  intros Hm Hk st. unfold bind. destruct (Hm st) as [tr Htr].
  destruct (m st) as [[e|a] st1]; simpl in Htr; subst st1; simpl.
  - by exists tr.
  - destruct (Hk a (with_trace (trace st ++ tr) st)) as [tr' ->].
    exists (tr ++ tr'). by rewrite with_trace_twice, app_assoc.
Qed.

Lemma silent_try {A} (m : M A) (h : exn -> M A) :
  silent m → (∀ e, silent (h e)) → silent (try_except m h).
Proof.
  intros Hm Hh st. unfold try_except. destruct (Hm st) as [tr Htr].
  destruct (m st) as [[e|a] st1]; simpl in Htr; subst st1; simpl.
  - destruct (Hh e (with_trace (trace st ++ tr) st)) as [tr' ->].
    exists (tr ++ tr'). by rewrite with_trace_twice, app_assoc.
  - by exists tr.
Qed.

Lemma silent_perform w c : silent (perform w c).
Proof. intros st. exists [c]. unfold perform. by destruct (respond w (trace st) c). Qed.

Create HintDb silent.
#[local] Hint Resolve silent_ret silent_raise silent_perform : silent.
#[local] Hint Extern 2 (silent (bind _ _)) => apply silent_bind; [|intros ?] : silent.
#[local] Hint Extern 2 (silent (try_except _ _)) => apply silent_try; [|intros ?] : silent.
#[local] Hint Extern 2 (silent (if ?b then _ else _)) => destruct b : silent.
#[local] Hint Extern 2 (silent (match ?e with Forbidden => _ | _ => _ end)) =>
  destruct e : silent.
#[local] Hint Unfold execute_lxc subprocess_run set_root_disk_size
  core_create_container get_or_create_vps_role grant_role revoke_role
  except_forbidden : silent.

Lemma silent_core_create_container w name ram cpu storage pool :
  silent (core_create_container w name ram cpu storage pool).
Proof. autounfold with silent. auto 20 with silent. Qed.

Lemma silent_grant_role w ctx u : silent (grant_role w ctx u).
Proof. autounfold with silent. auto 20 with silent. Qed.

Lemma silent_revoke_role w ctx u : silent (revoke_role w ctx u).
Proof. autounfold with silent. auto 20 with silent. Qed.

Lemma silent_set_root_disk_size w name size :
  silent (set_root_disk_size w name size).
Proof. autounfold with silent. auto 20 with silent. Qed.

Lemma silent_execute_lxc w c : silent (execute_lxc w c).
Proof. autounfold with silent. auto 20 with silent. Qed.

Lemma silent_notify w c c' :
  silent (except_forbidden (perform w c) (perform w c')).
Proof. autounfold with silent. auto 20 with silent. Qed.

(** ** Running commands: rules for [wp] *)

Lemma wp_silent {A} (m : M A) (Q : exn + A -> state -> Prop) st :
  silent m →
  (∀ r tr, Q r (with_trace (trace st ++ tr) st)) →
  wp m Q st.
Proof. intros Hm HQ. unfold wp. destruct (Hm st) as [tr ->]. apply HQ. Qed.

Section Rules.
Context {A B : Type}.
Implicit Types (Q : exn + B -> state -> Prop) (st : state).

Lemma wp_bind (m : M A) (k : A -> M B) Q st :
  wp m (fun r st' => match r with
                     | inr a => wp (k a) Q st'
                     | inl e => Q (inl e) st'
                     end) st →
  wp (bind m k) Q st.
Proof. unfold wp, bind. by destruct (m st) as [[e|a] st']. Qed.

Lemma wp_try (m : M B) (h : exn -> M B) Q st :
  wp m (fun r st' => match r with
                     | inr a => Q (inr a) st'
                     | inl e => wp (h e) Q st'
                     end) st →
  wp (try_except m h) Q st.
Proof. unfold wp, try_except. by destruct (m st) as [[e|a] st']. Qed.

Lemma wp_ret (b : B) Q st : Q (inr b) st → wp (ret b) Q st.
Proof. done. Qed.

Lemma wp_raise e Q st : Q (inl e) st → wp (raise e) Q st.
Proof. done. Qed.

Lemma wp_item (o : option B) Q st :
  match o with Some b => Q (inr b) st | None => Q (inl KeyError) st end →
  wp (item o) Q st.
Proof. by destruct o. Qed.

Lemma wp_gets (f : tables -> B) Q st : Q (inr (f (mem st))) st → wp (gets f) Q st.
Proof. done. Qed.

End Rules.

Section UnitRules.
Implicit Types (Q : exn + unit -> state -> Prop) (st : state).

Lemma wp_modify f Q st :
  Q (inr tt) {| mem := f (mem st); disk := disk st; saves := saves st;
                cpu_monitor_active := cpu_monitor_active st; trace := trace st |} →
  wp (modify f) Q st.
Proof. done. Qed.

Lemma wp_save_data Q st :
  Q (inr tt) {| mem := mem st; disk := mem st; saves := S (saves st);
                cpu_monitor_active := cpu_monitor_active st; trace := trace st |} →
  wp save_data Q st.
Proof. done. Qed.

Lemma wp_set_monitor b Q st :
  Q (inr tt) {| mem := mem st; disk := disk st; saves := saves st;
                cpu_monitor_active := b; trace := trace st |} →
  wp (set_monitor b) Q st.
Proof. done. Qed.

Lemma wp_perform w c Q st :
  match respond w (trace st) c with
  | ok => Q (inr tt) (log c st)
  | forbidden => Q (inl Forbidden) (log c st)
  | failed => Q (inl HTTPException) (log c st)
  end →
  wp (perform w c) Q st.
Proof. unfold wp, perform. by destruct (respond w (trace st) c). Qed.

End UnitRules.

Lemma wp_now w (Q : exn + string -> state -> Prop) st :
  Q (inr (clock w (trace st))) st → wp (now w) Q st.
Proof. done. Qed.

Lemma wp_get_cpu_usage w (Q : exn + Q -> state -> Prop) st :
  match respond w (trace st) top with
  | ok => Q (inr (usage w (trace st))) (log top st)
  | _ => Q (inr 0%Q) (log top st)
  end →
  wp (get_cpu_usage w) Q st.
Proof. unfold wp, get_cpu_usage. by destruct (respond w (trace st) top). Qed.

(** Reading a postcondition back as facts about the run. *)
Lemma wp_elim {A} (m : M A) Q st r st' : wp m Q st → m st = (r, st') → Q r st'.
Proof. unfold wp. intros H E. by rewrite E in H. Qed.

Lemma wp_elim_let {A} (m : M A) (P : (exn + A) * state -> Prop) st :
  wp m (fun r st' => P (r, st')) st → P (m st).
Proof. unfold wp. by destruct (m st). Qed.

(** One step of symbolic execution. *)
Ltac wp_step :=
  lazymatch goal with
  | |- wp (bind _ _) _ _ => apply wp_bind
  | |- wp (try_except _ _) _ _ => apply wp_try
  | |- wp (except_forbidden _ _) _ _ => unfold except_forbidden
  | |- wp (ret _) _ _ => apply wp_ret
  | |- wp (raise _) _ _ => apply wp_raise
  | |- wp (gets _) _ _ => apply wp_gets
  | |- wp (modify _) _ _ => apply wp_modify
  | |- wp save_data _ _ => apply wp_save_data
  | |- wp (set_monitor _) _ _ => apply wp_set_monitor
  | |- wp sleep _ _ => apply wp_ret
  | |- wp (now _) _ _ => apply wp_now
  | |- wp (perform _ _) _ _ => apply wp_perform
  | |- wp (get_cpu_usage _) _ _ => apply wp_get_cpu_usage
  | |- wp (execute_lxc _ _) _ _ => unfold execute_lxc
  | |- wp (subprocess_run _ _) _ _ => unfold subprocess_run
  | |- wp (set_root_disk_size _ _ _) _ _ => unfold set_root_disk_size
  | |- wp (core_create_container _ _ _ _ _ _) _ _ => unfold core_create_container
  | |- wp (get_or_create_vps_role _) _ _ => unfold get_or_create_vps_role
  | |- wp (grant_role _ _ _) _ _ => unfold grant_role
  | |- wp (revoke_role _ _ _) _ _ => unfold revoke_role
  | |- wp (credits _) _ _ => unfold credits
  | |- wp (vps_list _) _ _ => unfold vps_list
  | |- wp (nth_vps _ _) _ _ => unfold nth_vps
  | |- wp (item _) _ _ => apply wp_item
  | |- wp (match ?e with Forbidden => _ | _ => _ end) _ _ => destruct e
  | |- match respond ?w ?h ?c with _ => _ end => destruct (respond w h c) eqn:?
  end;
  cbv beta iota;
  cbn [fst snd mem disk saves trace cpu_monitor_active log user_data vps_data].

Ltac wp_run := repeat wp_step.

(** Symbolic execution that forgets which calls were made: a silent block is
    crossed in one step, with a result that is an exception or not. *)
Ltac wp_skip lem :=
  apply wp_silent; [apply lem|];
  let r := fresh "r" in let tr := fresh "tr" in
  intros r tr; destruct r as [?|?].

Ltac wp_fast_step :=
  lazymatch goal with
  | |- wp (perform _ _) _ _ => wp_skip silent_perform
  | |- wp (execute_lxc _ _) _ _ => wp_skip silent_execute_lxc
  | |- wp (core_create_container _ _ _ _ _ _) _ _ =>
      wp_skip silent_core_create_container
  | |- wp (set_root_disk_size _ _ _) _ _ => wp_skip silent_set_root_disk_size
  | |- wp (grant_role _ _ _) _ _ => wp_skip silent_grant_role
  | |- wp (revoke_role _ _ _) _ _ => wp_skip silent_revoke_role
  | |- wp (except_forbidden (perform _ _) (perform _ _)) _ _ =>
      wp_skip silent_notify
  | |- match ?o with Some _ => _ | None => _ end => destruct o eqn:?
  | |- wp (if ?b then _ else _) _ _ => destruct b eqn:?
  | |- wp (match ?l with [] => _ | _ :: _ => _ end) _ _ => destruct l eqn:?
  | |- wp (match ?o with Some _ => _ | None => _ end) _ _ => destruct o eqn:?
  | |- _ => wp_step
  end;
  cbv beta iota;
  cbn [fst snd mem disk saves trace cpu_monitor_active log with_trace
       user_data vps_data].

Ltac wp_fast := repeat wp_fast_step.

(** Symbolic execution in a world whose chat transport never raises: a chat
    call has one outcome, the creation of the container is crossed as a
    silent block. *)
Ltac reliable_step Hrel :=
  lazymatch goal with
  | |- wp (perform _ _) _ _ => apply wp_perform; rewrite Hrel by reflexivity
  | |- wp (core_create_container _ _ _ _ _ _) _ _ =>
      wp_skip silent_core_create_container
  | |- match ?o with Some _ => _ | None => _ end => destruct o eqn:?
  | |- wp (if ?b then _ else _) _ _ => destruct b eqn:?
  | |- wp (match ?o with Some _ => _ | None => _ end) _ _ => destruct o eqn:?
  | |- _ => wp_step
  end;
  cbv beta iota;
  cbn [fst snd mem disk saves trace cpu_monitor_active log with_trace
       user_data vps_data].

Section Tables.

Lemma lookup_ensure_user u t :
  user_data (ensure_user u t) !! u = Some (default 0 (user_data t !! u)).
Proof.
  unfold ensure_user. destruct (user_data t !! u) eqn:E; simpl.
  - by rewrite E.
  - by rewrite lookup_insert_eq.
Qed.

Lemma default_ensure_user u t v :
  default 0 (user_data (ensure_user u t) !! v) = default 0 (user_data t !! v).
Proof.
  unfold ensure_user. destruct (user_data t !! u) eqn:E; simpl; [done|].
  destruct (decide (u = v)) as [->|?].
  - by rewrite lookup_insert_eq, E.
  - by rewrite lookup_insert_ne.
Qed.

Lemma vps_data_ensure_user u t : vps_data (ensure_user u t) = vps_data t.
Proof. unfold ensure_user. by destruct (user_data t !! u). Qed.

Lemma lookup_ensure_vps u t :
  vps_data (ensure_vps u t) !! u = Some (default [] (vps_data t !! u)).
Proof.
  unfold ensure_vps. destruct (vps_data t !! u) eqn:E; simpl.
  - by rewrite E.
  - by rewrite lookup_insert_eq.
Qed.

Lemma default_ensure_vps u t v :
  default [] (vps_data (ensure_vps u t) !! v) = default [] (vps_data t !! v).
Proof.
  unfold ensure_vps. destruct (vps_data t !! u) eqn:E; simpl; [done|].
  destruct (decide (u = v)) as [->|?].
  - by rewrite lookup_insert_eq, E.
  - by rewrite lookup_insert_ne.
Qed.

Lemma user_data_ensure_vps u t : user_data (ensure_vps u t) = user_data t.
Proof. unfold ensure_vps. by destruct (vps_data t !! u). Qed.

End Tables.

(** Normalises lookups in tables built by the accessors. *)
Ltac tab :=
  repeat
    (progress
       (cbn [set_credits set_vps_list del_vps_list user_data vps_data] in *;
        rewrite ?user_data_ensure_vps, ?vps_data_ensure_user,
          ?lookup_ensure_user, ?lookup_ensure_vps, ?default_ensure_user,
          ?default_ensure_vps, ?lookup_insert_eq in *));
  simplify_eq.



(** ** Purchase *)

Section Purchase.
Import PyStr.

Lemma purchase_success w ctx plan processor storage st v st' :
  buy_with_credits w ctx plan processor storage st = (inr (Purchased v), st') →
  ∃ cost spec,
    price plan processor = Some cost ∧
    dict_get (capitalize plan) PLANS = Some spec ∧
    cost ≤ balance st (author ctx) ∧
    balance st' (author ctx) = balance st (author ctx) - cost ∧
    (∀ u, u ≠ author ctx → balance st' u = balance st u) ∧
    records st' (author ctx) = records st (author ctx) ++ [v] ∧
    (∀ u, u ≠ author ctx → records st' u = records st u) ∧
    disk st' = mem st' ∧
    v = {| plan := Some (capitalize plan);
           container_name :=
             vps_name (author ctx) (length (records st (author ctx)) + 1);
           ram := gb (spec_ram_gb spec); cpu := pretty (spec_cpu spec);
           storage := gb (effective_storage storage (spec_storage spec));
           status := running; created_at := created_at v;
           processor := Some (processor_key (capitalize processor));
           shared_with := [] |}.
Proof.
  intros Hrun. pattern v, st'.
  lazymatch goal with
  | |- ?P v st' =>
      cut (wp (buy_with_credits w ctx plan processor storage)
             (fun r s => ∀ x, r = inr (Purchased x) → P x s) st);
      [intros Hwp; exact (wp_elim _ _ _ _ _ Hwp Hrun v eq_refl)|]
  end.
  clear. cbv beta.
  unfold price, balance, records, buy_with_credits.
  destruct (dict_get (capitalize plan) PRICES) as [prices|].
  2:{ wp_fast; by intros ? [=]. }
  destruct (processor_listed (capitalize processor)); cbn [negb].
  2:{ wp_fast; by intros ? [=]. }
  wp_fast; try (by intros ? [=]).
  all: intros v' [= <-].
  tab. apply Z.ltb_ge in Heqb. 
  eexists _, _. repeat split; try done.
  all: intros u' ?; rewrite lookup_insert_ne by done; by tab.
Qed.

(** The cost does not depend on the letter case of the tokens. *)
Lemma price_lower p c : price p c = price (lower p) (lower c).
Proof. unfold price. by rewrite !capitalize_lower. Qed.

Lemma price_accepted p c :
  lower p ∈ plan_names → lower c = "intel" ∨ lower c = "amd" →
  is_Some (price p c).
Proof.
  rewrite price_lower. unfold plan_names. rewrite !elem_of_cons, elem_of_nil.
  intros [->|[->|[->|[->|[]]]]] [->| ->]; by eexists.
Qed.

Lemma purchase_never_invalid_specs w ctx p c override st :
  (buy_with_credits w ctx p c override st).1 ≠ inr InvalidSpecs.
Proof.
  apply (wp_elim_let (buy_with_credits w ctx p c override)
           (fun out => out.1 ≠ inr InvalidSpecs)).
  unfold buy_with_credits.
  destruct (dict_get _ PRICES); [|by wp_fast].
  destruct (processor_listed _); cbn [negb]; by wp_fast.
Qed.

(** [C8] The credit check of [buy_with_credits] comes before every effect:
    when the balance of the buyer is below the price of the plan, the command
    only sends the "Insufficient Credits" embed (it ends with that reply
    unless the transport raises).  No call reaches the container runtime, the
    balance of every user is what it was, no record is created and nothing
    is flushed.  The one thing written before the check is the account that
    is created lazily with 0 credits, which leaves the balance at 0. *)
Theorem insufficient_credits_before_effects w ctx p c override st cost :
  price p c = Some cost →
  balance st (author ctx) < cost →
  let out := buy_with_credits w ctx p c override st in
  out.1 = told w st "Insufficient Credits" InsufficientCredits ∧
  trace out.2 = trace st ++ [ctx_send "Insufficient Credits"] ∧
  (∀ u, balance out.2 u = balance st u) ∧
  vps_data (mem out.2) = vps_data (mem st) ∧
  disk out.2 = disk st ∧ saves out.2 = saves st.
Proof.
  intros Hp Hlt.
  apply (wp_elim_let (buy_with_credits w ctx p c override)).
  unfold price, balance, buy_with_credits in *.
  destruct (dict_get (capitalize p) PRICES) as [prices|]; [|done].
  destruct (processor_listed (capitalize c)); [|done].
  cbn [negb]. rewrite Hp.
  wp_run. rewrite lookup_ensure_user.
  apply Z.ltb_lt in Hlt. rewrite Hlt.
  unfold told.
  wp_run; repeat split; try done; try apply vps_data_ensure_user;
    intros; apply default_ensure_user.
Qed.

(** The scenario of [C8]: user 1 has 0 credits and asks for Starter on Intel,
    which costs 42. *)
Lemma insufficient_credits_scenario :
  let out := buy_with_credits calm U1 "Starter" "Intel" None (with_credits 0) in
  price "Starter" "Intel" = Some 42 ∧
  out.1 = inr InsufficientCredits ∧ balance out.2 1 = 0 ∧ records out.2 1 = [].
Proof.
  destruct (insufficient_credits_before_effects calm U1 "Starter" "Intel" None
              (with_credits 0) 42 eq_refl eq_refl) as (H1 & _ & H3 & H4 & _).
  split; [reflexivity|]. split; [exact H1|]. split; [exact (H3 1%N)|].
  unfold records. rewrite H4. reflexivity.
Defined.

(** [C9] The price is a fixed function of the plan and the processor (the
    table of [PRICES], whatever the letter case of the tokens), and a buyer
    with 100 credits whose purchase of Starter on Intel succeeds is left with
    58 credits and exactly one more record, with 4 GB of RAM, 1 core, 20 GB of
    storage and status running. *)
Theorem starter_intel_purchase w ctx st v st' :
  balance st (author ctx) = 100 →
  buy_with_credits w ctx "Starter" "Intel" None st = (inr (Purchased v), st') →
  (∀ p c, price p c = price (lower p) (lower c)) ∧
  price "starter" "intel" = Some 42 ∧ price "starter" "amd" = Some 83 ∧
  price "basic" "intel" = Some 96 ∧ price "basic" "amd" = Some 164 ∧
  price "standard" "intel" = Some 192 ∧ price "standard" "amd" = Some 320 ∧
  price "pro" "intel" = Some 220 ∧ price "pro" "amd" = Some 340 ∧
  balance st' (author ctx) = 58 ∧
  records st' (author ctx) = records st (author ctx) ++ [v] ∧
  ram v = "4GB" ∧ cpu v = "1" ∧ storage v = "20GB" ∧ status v = running.
Proof.
  intros Hbal Hrun.
  apply purchase_success in Hrun
    as (cost & spec & Hp & Hs & _ & Hb & _ & Hr & _ & _ & Hv).
  injection Hp as <-. injection Hs as <-. rewrite Hbal in Hb.
  split; [exact price_lower|].
  repeat (split; [reflexivity|]).
  split; [by rewrite Hb|]. split; [done|].
  by rewrite Hv.
Qed.

Lemma starter_intel_purchase_witness :
  ∃ v st',
    buy_with_credits calm U1 "Starter" "Intel" None (with_credits 100)
      = (inr (Purchased v), st') ∧
    balance st' 1 = 58 ∧ records st' 1 = [v] ∧ storage v = "20GB".
Proof.
  destruct (buy_with_credits calm U1 "Starter" "Intel" None (with_credits 100))
    as [[e|[]] st'] eqn:E; try (vm_compute in E; discriminate E).
  exists v, st'. split; [reflexivity|].
  destruct (starter_intel_purchase calm U1 (with_credits 100) v st' eq_refl E)
    as (_ & _ & _ & _ & _ & _ & _ & _ & _ & Hb & Hr & _ & _ & Hs & _).
  split; [exact Hb|]. split; [exact Hr|exact Hs].
Defined.

(** Every priced plan has a specification: line 566 cannot raise. *)
Lemma priced_plan_has_spec p prices :
  dict_get (capitalize p) PRICES = Some prices →
  dict_get (capitalize p) PLANS ≠ None.
Proof.
  unfold PRICES, PLANS. rewrite !dict_get_plan.
  by repeat case_bool_decide.
Qed.

(** Symbolic execution in a world that accepts every call. *)
Ltac obliging_step Hok :=
  lazymatch goal with
  | |- wp (perform _ _) _ _ => apply wp_perform; rewrite (Hok _ _)
  | |- match ?o with Some _ => _ | None => _ end => destruct o eqn:?
  | |- wp (if ?b then _ else _) _ _ => destruct b eqn:?
  | |- wp (match ?o with Some _ => _ | None => _ end) _ _ => destruct o eqn:?
  | |- _ => wp_step
  end;
  cbv beta iota;
  cbn [fst snd mem disk saves trace cpu_monitor_active log with_trace
       user_data vps_data].

Lemma purchase_proceeds w ctx p c override st cost :
  obliging w → price p c = Some cost → cost <= balance st (author ctx) →
  let out := buy_with_credits w ctx p c override st in
  ∃ v spec,
    out.1 = inr (Purchased v) ∧
    dict_get (capitalize p) PLANS = Some spec ∧
    lxc_launch (container_name v) (spec_ram_gb spec * 1024) (spec_cpu spec) "btrpool"
      ∈ trace out.2 ∧
    lxc_root_size (container_name v) (effective_storage override (spec_storage spec))
      ∈ trace out.2.
Proof.
  intros Hok Hprice Hbal.
  apply (wp_elim_let (buy_with_credits w ctx p c override)).
  unfold buy_with_credits, price, balance in *.
  destruct (dict_get (capitalize p) PRICES) as [prices|] eqn:Hp; [|done].
  destruct (processor_listed (capitalize c)) eqn:Hc; [|done]. cbn [negb].
  pose proof (priced_plan_has_spec _ _ Hp) as Hspec.
  destruct (dict_get (capitalize p) PLANS) as [spec|] eqn:Hs; [|done].
  repeat (obliging_step Hok; tab).
  { apply Z.ltb_lt in Heqb. lia. }
  all: eexists _, spec; split; [reflexivity|]; split; [done|]; cbn [container_name].
  all: split;
    repeat first [ by apply elem_of_app; right; apply list_elem_of_singleton
                 | apply elem_of_app; left ].
Qed.

(** [C10] A storage override that is absent, zero or negative is replaced by
    the default storage of the plan and the purchase proceeds: it runs
    exactly as it does without an override and never reports invalid specs;
    when the plan and the processor are valid, the balance covers the price
    and the outside world accepts every call, it succeeds, the container is
    launched and its quota set to the default storage of the plan, and the
    record that is appended carries that default; and whenever it succeeds
    the record carries the default storage of the plan. *)
Theorem storage_override_defaulted w ctx p c override st :
  override = None ∨ (∃ s, override = Some s ∧ s <= 0) →
  let out := buy_with_credits w ctx p c override st in
  out = buy_with_credits w ctx p c None st ∧
  out.1 ≠ inr InvalidSpecs ∧
  (∀ v st', out = (inr (Purchased v), st') →
     ∃ spec, dict_get (capitalize p) PLANS = Some spec ∧
             storage v = gb (spec_storage spec)) ∧
  (∀ cost, obliging w → price p c = Some cost → cost <= balance st (author ctx) →
     ∃ v spec,
       out.1 = inr (Purchased v) ∧
       dict_get (capitalize p) PLANS = Some spec ∧
       storage v = gb (spec_storage spec) ∧
       records out.2 (author ctx) = records st (author ctx) ++ [v] ∧
       balance out.2 (author ctx) = balance st (author ctx) - cost ∧
       lxc_launch (container_name v) (spec_ram_gb spec * 1024) (spec_cpu spec) "btrpool"
         ∈ trace out.2 ∧
       lxc_root_size (container_name v) (spec_storage spec) ∈ trace out.2).
Proof.
  intros Hov.
  assert (effective_storage override = effective_storage None) as Heff.
  { destruct Hov as [->|(s & -> & Hs)]; [done|].
    unfold effective_storage.
    destruct (decide (s = 0)) as [->|?]; [done|].
    rewrite (proj2 (Z.ltb_ge 0 s)) by done. by rewrite andb_false_r. }
  cbv zeta. split; [|split; [|split]].
  - unfold buy_with_credits. by rewrite Heff.
  - apply purchase_never_invalid_specs.
  - intros v st' Hrun.
    apply purchase_success in Hrun
      as (cost & spec & _ & Hs & _ & _ & _ & _ & _ & _ & Hv).
    exists spec. split; [done|]. rewrite Hv. cbn [storage].
    by rewrite Heff.
  - intros cost Hok Hprice Hbal.
    destruct (purchase_proceeds w ctx p c override st cost Hok Hprice Hbal)
      as (v & spec & Hrun & Hs & Hlaunch & Hquota).
    rewrite Heff in Hquota. change (effective_storage None (spec_storage spec))
      with (spec_storage spec) in Hquota.
    destruct (buy_with_credits w ctx p c override st) as [r st'] eqn:E.
    cbn [fst snd] in *. subst r.
    apply purchase_success in E
      as (cost' & spec' & Hp' & Hs' & _ & Hb & _ & Hr & _ & _ & Hv).
    assert (cost' = cost) as -> by congruence.
    assert (spec' = spec) as -> by congruence.
    exists v, spec. split_and!; try done.
    rewrite Hv. cbn [storage]. by rewrite Heff.
Qed.

Lemma storage_override_defaulted_witness :
  let out := buy_with_credits calm U1 "Starter" "Intel" (Some (-5)) (with_credits 100) in
  out = buy_with_credits calm U1 "Starter" "Intel" None (with_credits 100) ∧
  ∃ v, out.1 = inr (Purchased v) ∧ storage v = "20GB" ∧ records out.2 1 = [v] ∧
       lxc_root_size "vps-1-1" 20 ∈ trace out.2.
Proof.
  intros out.
  destruct (storage_override_defaulted calm U1 "Starter" "Intel" (Some (-5))
              (with_credits 100)) as (Hsame & _ & _ & Hgo).
  { right. exists (-5). split; [reflexivity|]. lia. }
  split; [exact Hsame|].
  destruct (Hgo 42) as (v & spec & Hv & Hs & Hst & Hr & _ & _ & Hq).
  { intros h c. reflexivity. }
  { reflexivity. }
  { by vm_compute. }
  vm_compute in Hs. injection Hs as <-.
  exists v. split; [exact Hv|]. split; [exact Hst|]. split; [exact Hr|].
  vm_compute in Hv. injection Hv as <-. exact Hq.
Defined.

(** *** Plan and processor keys *)

Lemma price_column p c k :
  lower c = lower k → processor_listed (capitalize k) = true →
  price p c = price p k.
Proof.
  intros Hc Hk. unfold price.
  destruct (dict_get (capitalize p) PRICES); [|done].
  assert (capitalize c = capitalize k) as -> by by apply capitalize_eq_iff.
  done.
Qed.

Lemma isascii_lower s : isascii (lower s) = isascii s.
Proof.
  induction s as [|c s IH]; [done|]. cbn [lower isascii]. rewrite IH. f_equal.
  by destruct c as [[] [] [] [] [] [] [] []].
Qed.

Lemma isascii_of_lower s k : lower s = k → isascii k = true → isascii s = true.
Proof. intros <-. by rewrite isascii_lower. Qed.

(** [C4], as the code has it.  The tokens are normalised with [capitalize].
    For tokens made of ASCII characters: a plan that is not Starter, Basic,
    Standard or Pro in some letter case is answered with "Invalid Plan";
    with a valid plan, a processor that is neither "intel" nor "amd" in some
    letter case is answered with "Invalid Processor", whatever its first
    letter.  "amd" in any case is priced and recorded as AMD and "intel" in
    any case as Intel; these spellings, and those of the plans, are ASCII.
    The two rejections change nothing in the tables. *)
Theorem purchase_key_resolution w ctx p c override st :
  let out := buy_with_credits w ctx p c override st in
  (isascii p = true → lower p ∉ plan_names →
     out = (told w st "Invalid Plan" InvalidPlan,
            log (ctx_send "Invalid Plan") st)) ∧
  (isascii c = true →
   lower p ∈ plan_names → lower c ≠ "intel" → lower c ≠ "amd" →
     out = (told w st "Invalid Processor" InvalidProcessor,
            log (ctx_send "Invalid Processor") st)) ∧
  (lower p ∈ plan_names → lower c = "amd" →
     is_Some (price p c) ∧ price p c = price p "AMD" ∧
     ∀ v st', out = (inr (Purchased v), st') → processor v = Some "AMD") ∧
  (lower p ∈ plan_names → lower c = "intel" →
     is_Some (price p c) ∧ price p c = price p "Intel" ∧
     ∀ v st', out = (inr (Purchased v), st') → processor v = Some "Intel") ∧
  (lower p ∈ plan_names → isascii p = true) ∧
  (lower c = "amd" ∨ lower c = "intel" → isascii c = true).
Proof.
  cbv zeta.
  assert (Hplan : lower p ∈ plan_names ↔ is_Some (dict_get (capitalize p) PRICES)).
  { unfold PRICES, plan_names. rewrite dict_get_plan.
    rewrite !elem_of_cons, elem_of_nil.
    repeat case_bool_decide; split; try (by eexists); try tauto.
    by intros [? [=]]. }
  assert (Hsent : ∀ title r,
    (perform w (ctx_send title) >> ret r) st
    = (told w st title r, log (ctx_send title) st)).
  { intros. unfold bind, perform, told. by destruct (respond _ _ _). }
  split; [|split; [|split; [|split; [|split]]]].
  - intros _ Hp. unfold buy_with_credits.
    destruct (dict_get (capitalize p) PRICES) eqn:E; [|apply Hsent].
    destruct Hp. apply Hplan. by eexists.
  - intros _ Hp Hi Ha. unfold buy_with_credits.
    apply Hplan in Hp as [prices ->].
    destruct (processor_listed (capitalize c)) eqn:E; [|apply Hsent].
    apply processor_listed_capitalize in E. tauto.
  - intros Hp Hc. split; [apply price_accepted; auto|].
    split; [by apply price_column|].
    intros v st' Hrun. apply purchase_success in Hrun
      as (? & ? & _ & _ & _ & _ & _ & _ & _ & _ & ->).
    cbn [processor]. by rewrite processor_key_capitalize, Hc.
  - intros Hp Hc. split; [apply price_accepted; auto|].
    split; [by apply price_column|].
    intros v st' Hrun. apply purchase_success in Hrun
      as (? & ? & _ & _ & _ & _ & _ & _ & _ & _ & ->).
    cbn [processor]. by rewrite processor_key_capitalize, Hc.
  - unfold plan_names. rewrite !elem_of_cons, elem_of_nil.
    intros Hp. repeat destruct Hp as [Hp|Hp]; [..|done];
      by apply (isascii_of_lower _ _ Hp).
  - intros [Hc|Hc]; by apply (isascii_of_lower _ _ Hc).
Qed.

Lemma purchase_key_resolution_witness :
  price "pro" "aMd" = Some 340 ∧
  buy_with_credits calm U1 "gold" "Intel" None (with_credits 100)
  = (inr InvalidPlan, log (ctx_send "Invalid Plan") (with_credits 100)).
Proof.
  destruct (purchase_key_resolution calm U1 "pro" "aMd" None (with_credits 100))
    as (_ & _ & Hamd & _).
  destruct (purchase_key_resolution calm U1 "gold" "Intel" None (with_credits 100))
    as (Hplan & _).
  split.
  - destruct Hamd as (_ & -> & _); [|reflexivity|reflexivity].
    apply (bool_decide_unpack _). by vm_compute.
  - apply Hplan; [reflexivity|]. apply (bool_decide_unpack _). by vm_compute.
Defined.

(** [C4] fails as stated: "apple" starts with "a" and is not taken for AMD;
    the purchase is answered with "Invalid Processor". *)
Lemma apple_is_not_amd :
  startswith "a" (lower "apple") = true ∧
  price "Starter" "apple" = None ∧
  (buy_with_credits calm U1 "Starter" "apple" None (with_credits 100)).1
  = inr InvalidProcessor.
Proof. by vm_compute. Qed.

(** *** Atomicity of the purchase *)

Lemma failing_lxc_is_reliable_chat name ram cpu pool :
  reliable_chat (failing [lxc_launch name ram cpu pool]).
Proof.
  intros h c Hc. cbn. rewrite bool_decide_eq_false_2; [done|].
  rewrite list_elem_of_singleton. intros ->. discriminate Hc.
Defined.

(** [X15] With a chat transport that never raises, a purchase is all or
    nothing, whatever the container runtime does: it ends with the price paid
    and one record appended, or with every balance and every list of records
    as before. *)
Lemma purchase_atomic_reliable_chat w ctx p c override st :
  reliable_chat w →
  let out := buy_with_credits w ctx p c override st in
  (∃ v cost, out.1 = inr (Purchased v) ∧ price p c = Some cost ∧
     balance out.2 (author ctx) = balance st (author ctx) - cost ∧
     records out.2 (author ctx) = records st (author ctx) ++ [v]) ∨
  ((∀ v, out.1 ≠ inr (Purchased v)) ∧
   (∀ u, balance out.2 u = balance st u) ∧
   (∀ u, records out.2 u = records st u)).
Proof.
  intros Hrel.
  destruct (buy_with_credits w ctx p c override st) as [r st'] eqn:Hrun.
  cbn [fst snd].
  assert ((∃ v, r = inr (Purchased v)) ∨ (∀ v, r ≠ inr (Purchased v)))
    as [[v ->]|Hno]
    by (destruct r as [?|[]]; try (by right); left; by eexists).
  { left. apply purchase_success in Hrun
      as (cost & spec & ? & _ & _ & ? & _ & ? & _).
    by exists v, cost. }
  right. split; [done|].
  revert Hno. apply (wp_elim _ (fun r s => (∀ v, r ≠ inr (Purchased v)) → _) _ _ _)
    with (2 := Hrun).
  clear r st' Hrun.
  unfold buy_with_credits, balance, records.
  destruct (dict_get _ PRICES) eqn:Hpriced; [|by wp_fast].
  apply priced_plan_has_spec in Hpriced.
  destruct (processor_listed _); cbn [negb]; [|by wp_fast].
  repeat (reliable_step Hrel; tab); try (by intros H; destruct (H _ eq_refl)).
  all: intros _; split; intros u'; try done.
  all: destruct (decide (u' = author ctx)) as [->|?].
  all: rewrite ?lookup_insert_eq, ?lookup_insert_ne by done; tab; try done.
  all: simpl; lia.
Qed.

Lemma purchase_atomic_reliable_chat_witness :
  let out := buy_with_credits (failing [lxc_launch "vps-1-1" 4096 1 "btrpool"])
               U1 "Starter" "Intel" None (with_credits 100) in
  out.1 = inr PurchaseFailed ∧ balance out.2 1 = 100 ∧ records out.2 1 = [].
Proof.
  pose proof (purchase_atomic_reliable_chat
                (failing [lxc_launch "vps-1-1" 4096 1 "btrpool"])
                U1 "Starter" "Intel" None (with_credits 100)
                (failing_lxc_is_reliable_chat _ _ _ _)) as H.
  cbv zeta in *.
  destruct H as [(v & cost & H1 & _)|(_ & Hb & Hr)].
  - vm_compute in H1. discriminate H1.
  - split; [by vm_compute|]. split; [exact (Hb 1%N)|exact (Hr 1%N)].
Defined.

(** [C1] at the failing inputs.  User 1 has 100 credits and buys Starter on
    Intel.  (a) The container is created and the record is stored and
    flushed, then sending the success embed raises: the handler refunds the
    42 credits, so the record exists and nothing was paid.  (b) Sending the
    "Processing Purchase" embed raises, after the debit and outside the
    [try]: 42 credits are gone and there is no record. *)
Theorem purchase_not_atomic :
  (let out := buy_with_credits
                (failing [ctx_send "VPS Purchased Successfully"])
                U1 "Starter" "Intel" None (with_credits 100) in
   out.1 = inr PurchaseFailed ∧ balance out.2 1 = 100 ∧
   container_name <$> records out.2 1 = ["vps-1-1"] ∧
   vps_data (disk out.2) !! 1%N = vps_data (mem out.2) !! 1%N) ∧
  (let out := buy_with_credits (failing [ctx_send "Processing Purchase"])
                U1 "Starter" "Intel" None (with_credits 100) in
   out.1 = inl HTTPException ∧ balance out.2 1 = 58 ∧ records out.2 1 = []).
Proof. by vm_compute. Qed.

End Purchase.

(** ** Container names *)

Section Names.

Lemma pretty_N_go_no_dash (x : N) s :
  has_dash s = false → has_dash (pretty_N_go x s) = false.
Proof.
  revert s. induction (N.lt_wf_0 x) as [x _ IH]; intros s Hs.
  destruct (decide (x = 0)%N) as [->|Hx]; [by rewrite pretty_N_go_0|].
  rewrite pretty_N_go_step by lia.
  apply IH; [apply N.div_lt; lia|].
  cbn [has_dash]. rewrite Hs, orb_false_r.
  unfold pretty_N_char. by repeat case_match.
Qed.

Lemma pretty_N_no_dash (x : N) : has_dash (pretty x) = false.
Proof.
  unfold pretty, pretty_N. case_decide; [done|].
  by apply pretty_N_go_no_dash.
Qed.

Lemma split_at_dash s1 t1 s2 t2 :
  has_dash s1 = false → has_dash s2 = false →
  s1 +:+ String "-" t1 = s2 +:+ String "-" t2 → s1 = s2 ∧ t1 = t2.
Proof.
  revert s2. induction s1 as [|a s1 IH]; intros [|b s2]; cbn [has_dash String.append].
  - by intros _ _ [= ->].
  - intros _ Hb [= <- _]. by rewrite bool_decide_eq_true_2 in Hb.
  - intros Ha _ [= -> _]. by rewrite bool_decide_eq_true_2 in Ha.
  - intros [_ Ha]%orb_false_elim [_ Hb]%orb_false_elim [= -> E].
    by destruct (IH _ Ha Hb E) as [-> ->].
Qed.

(** The owner and the sequence number can be read back from the name. *)
Lemma vps_name_inj o n o' n' : vps_name o n = vps_name o' n' → o = o' ∧ n = n'.
Proof.
  unfold vps_name. cbn [String.append]. intros [= E].
  apply split_at_dash in E as [Ho Hn]; try apply pretty_N_no_dash.
  split; [by apply (inj pretty)|by apply (inj pretty)].
Qed.

Lemma dense_names_unique st : dense st → names_unique st.
Proof.
  intros Hd o1 i1 v1 o2 i2 v2 H1 H2 E.
  rewrite (Hd _ _ _ H1), (Hd _ _ _ H2) in E.
  apply vps_name_inj in E as [-> [= ->]]. done.
Qed.

Lemma dense_append st st' o v :
  dense st →
  records st' o = records st o ++ [v] →
  (∀ u, u ≠ o → records st' u = records st u) →
  container_name v = vps_name o (length (records st o) + 1) →
  dense st'.
Proof.
  intros Hd Ho Hne Hv u i x Hx.
  destruct (decide (u = o)) as [->|Hu]; [|rewrite Hne in Hx by done; eauto].
  rewrite Ho in Hx. apply lookup_app_Some in Hx as [Hx|[Hlen Hx]]; [eauto|].
  apply list_lookup_singleton_Some in Hx as [Hi <-].
  rewrite Hv. f_equal. lia.
Qed.

Lemma names_unique_delete st st' o k :
  names_unique st →
  records st' o = delete k (records st o) →
  (∀ u, u ≠ o → records st' u = records st u) →
  names_unique st'.
Proof.
  intros Hu Ho Hne.
  assert (∀ u i x, records st' u !! i = Some x →
            ∃ j, records st u !! j = Some x ∧
                 (u = o → j = if decide (i < k)%nat then i else S i)) as Hback.
  { intros u i x Hx. destruct (decide (u = o)) as [->|?].
    - rewrite Ho in Hx. case_decide.
      + rewrite list_lookup_delete_lt in Hx by done. eauto.
      + rewrite list_lookup_delete_ge in Hx by lia. eauto.
    - rewrite Hne in Hx by done. exists i. split; [done|]. by intros ->. }
  assert (∀ u i x, u ≠ o → records st' u !! i = Some x →
            records st u !! i = Some x) as Hother.
  { intros u i x ? Hx. by rewrite Hne in Hx. }
  intros o1 i1 v1 o2 i2 v2 H1 H2 E.
  destruct (decide (o1 = o)) as [->|N1], (decide (o2 = o)) as [->|N2].
  - destruct (Hback _ _ _ H1) as (j1 & G1 & J1), (Hback _ _ _ H2) as (j2 & G2 & J2).
    destruct (Hu _ _ _ _ _ _ G1 G2 E) as [_ Hj]. split; [done|].
    rewrite J1, J2 in Hj by done. repeat case_decide; lia.
  - destruct (Hback _ _ _ H1) as (j1 & G1 & _).
    by destruct (Hu _ _ _ _ _ _ G1 (Hother _ _ _ N2 H2) E) as [-> _].
  - destruct (Hback _ _ _ H2) as (j2 & G2 & _).
    by destruct (Hu _ _ _ _ _ _ (Hother _ _ _ N1 H1) G2 E) as [<- _].
  - exact (Hu _ _ _ _ _ _ (Hother _ _ _ N1 H1) (Hother _ _ _ N2 H2) E).
Qed.

Lemma create_success w ctx user ram cpu storage st v st' :
  create_vps w ctx user ram cpu storage st = (inr (Created v), st') →
  container_name v = vps_name user (length (records st user) + 1) ∧
  records st' user = records st user ++ [v] ∧
  (∀ u, u ≠ user → records st' u = records st u) ∧
  user_data (mem st') = user_data (mem st) ∧
  disk st' = mem st' ∧
  shared_with v = [] ∧ status v = running.
Proof.
  intros Hrun. pattern v, st'.
  lazymatch goal with
  | |- ?P v st' =>
      cut (wp (create_vps w ctx user ram cpu storage)
             (fun r s => ∀ x, r = inr (Created x) → P x s) st);
      [intros Hwp; exact (wp_elim _ _ _ _ _ Hwp Hrun v eq_refl)|]
  end.
  clear. cbv beta. unfold records, create_vps.
  wp_fast; try (by intros ? [=]).
  all: intros v' [= <-].
  tab. repeat split; try done.
  intros u' ?. rewrite lookup_insert_ne by done. by tab.
Qed.

Lemma delete_success w ctx user n st st' :
  delete_vps w ctx user n st = (inr Deleted, st') →
  1 <= n <= Z.of_nat (length (records st user)) ∧
  records st' user = delete (Z.to_nat (n - 1)) (records st user) ∧
  (∀ u, u ≠ user → records st' u = records st u) ∧
  user_data (mem st') = user_data (mem st).
Proof.
  intros Hrun. pattern st'.
  lazymatch goal with
  | |- ?P st' =>
      cut (wp (delete_vps w ctx user n)
             (fun r s => r = inr Deleted → P s) st);
      [intros Hwp; exact (wp_elim _ _ _ _ _ Hwp Hrun eq_refl)|]
  end.
  clear. cbv beta. unfold records, delete_vps.
  wp_fast; try (by intros [=]).
  all: intros _.
  all: unfold bad_vps_number, del_nth_vps in *; tab.
  all: rewrite ?lookup_delete_eq; cbn [default].
  all: rewrite Heqo1 in Heqb; apply orb_false_elim in Heqb as [?%Z.ltb_ge ?%Z.ltb_ge].
  all: repeat split; try done; try lia.
  all: intros u' ?; by rewrite ?lookup_delete_ne, lookup_insert_ne by done.
Qed.

(** [C2], as the code has it.  [create_vps] and [buy_with_credits] name the
    new container "vps-<owner>-<n>" with n the length of the owner's list plus
    one, and append its record.  [delete_vps] removes one record and leaves
    the surviving records, their stored names included, as they were, so
    deleting #2 of 3 does not renumber #3.  The number is computed from the
    length alone, so it can come back after a deletion.  Container names stay
    unique through a deletion; through a creation they stay unique in a store
    whose records are numbered 1, 2, 3, ... in list order, and that numbering
    is kept by the creation. *)
Theorem container_names w ctx st :
  (∀ user ram cpu storage v st',
     create_vps w ctx user ram cpu storage st = (inr (Created v), st') →
     container_name v = vps_name user (length (records st user) + 1) ∧
     records st' user = records st user ++ [v] ∧
     (∀ u, u ≠ user → records st' u = records st u) ∧
     (dense st → dense st' ∧ names_unique st')) ∧
  (∀ p c override v st',
     buy_with_credits w ctx p c override st = (inr (Purchased v), st') →
     container_name v = vps_name (author ctx) (length (records st (author ctx)) + 1) ∧
     records st' (author ctx) = records st (author ctx) ++ [v] ∧
     (∀ u, u ≠ author ctx → records st' u = records st u) ∧
     (dense st → dense st' ∧ names_unique st')) ∧
  (∀ user n st',
     delete_vps w ctx user n st = (inr Deleted, st') →
     1 <= n <= Z.of_nat (length (records st user)) ∧
     records st' user = delete (Z.to_nat (n - 1)) (records st user) ∧
     (∀ u, u ≠ user → records st' u = records st u) ∧
     (names_unique st → names_unique st')).
Proof.
  split; [|split].
  - intros user ram cpu storage v st' Hrun.
    apply create_success in Hrun as (Hn & Ha & Ho & _).
    do 3 (split; [done|]). intros Hd.
    assert (dense st') by by eapply dense_append.
    split; [done|by apply dense_names_unique].
  - intros p c override v st' Hrun.
    apply purchase_success in Hrun
      as (? & ? & _ & _ & _ & _ & _ & Ha & Ho & _ & Hv).
    assert (container_name v
            = vps_name (author ctx) (length (records st (author ctx)) + 1))
      as Hn by by rewrite Hv.
    do 3 (split; [done|]). intros Hd.
    assert (dense st') by by eapply dense_append.
    split; [done|by apply dense_names_unique].
  - intros user n st' Hrun.
    apply delete_success in Hrun as (Hn & Hd & Ho & _).
    do 3 (split; [done|]).
    intros Hu. by eapply names_unique_delete.
Qed.

Lemma container_names_witness :
  ∃ v st',
    create_vps calm U1 7 4 1 10 three_of_7 = (inr (Created v), st') ∧
    container_name v = "vps-7-4" ∧
    container_name <$> records st' 7 = ["vps-7-1"; "vps-7-2"; "vps-7-3"; "vps-7-4"].
Proof.
  destruct (create_vps calm U1 7 4 1 10 three_of_7) as [[e|[]] st'] eqn:E;
    try (vm_compute in E; discriminate E).
  exists v, st'. split; [reflexivity|].
  destruct (container_names calm U1 three_of_7) as (Hcreate & _).
  destruct (Hcreate 7%N 4 1 10 v st' E) as (Hn & Hr & _).
  split; [exact Hn|]. rewrite Hr, fmap_app. cbn [fmap list_fmap].
  rewrite Hn. reflexivity.
Defined.

(** [C2] fails as stated.  Owner 7 has records 1 to 3.  After #3 is deleted,
    the next creation is given number 3 again; and after #2 is deleted, a
    creation that the runtime accepts stores a second record named
    "vps-7-3". *)
Lemma sequence_number_reused :
  (let st1 := (delete_vps calm U1 7 3 three_of_7).2 in
   let out := create_vps calm U1 7 4 1 10 st1 in
   container_name <$> records st1 7 = ["vps-7-1"; "vps-7-2"] ∧
   container_name <$> records out.2 7 = ["vps-7-1"; "vps-7-2"; "vps-7-3"]) ∧
  (let st1 := (delete_vps calm U1 7 2 three_of_7).2 in
   let out := create_vps calm U1 7 4 1 10 st1 in
   container_name <$> records st1 7 = ["vps-7-1"; "vps-7-3"] ∧
   container_name <$> records out.2 7 = ["vps-7-1"; "vps-7-3"; "vps-7-3"]).
Proof. by vm_compute. Qed.

End Names.

(** ** Resize *)

Section Resize.

Lemma records_update_storage st container g o :
  default [] (vps_data (update_storage container g (mem st)) !! o)
  = (fun vps => if bool_decide (container_name vps = container)
                then set_storage (gb g) vps else vps) <$> records st o.
Proof.
  unfold update_storage, records. cbn [vps_data].
  rewrite lookup_fmap. by destruct (vps_data (mem st) !! o).
Qed.

(** What a run of [resize_vps] can leave behind: nothing at all, or the
    storage text of the named records and one flush. *)
Lemma resize_outcomes w container ram cpu size st :
  let out := resize_vps w container ram cpu size st in
  (mem out.2 = mem st ∧ disk out.2 = disk st ∧ saves out.2 = saves st ∧
   out.1 ≠ inr Resized) ∨
  (saves out.2 = S (saves st) ∧ disk out.2 = mem out.2 ∧
   ∀ o, storage <$> records out.2 o =
        match truthy size with
        | Some g => resized_storage container g <$> records st o
        | None => storage <$> records st o
        end).
Proof.
  apply (wp_elim_let (resize_vps w container ram cpu size)).
  unfold resize_vps, records.
  destruct (truthy ram), (truthy cpu), (truthy size);
    wp_fast; try (by left); right; repeat split; try done; intros o.
  all: rewrite records_update_storage, <-list_fmap_compose.
  all: apply list_fmap_ext; intros ? v _; unfold resized_storage; cbn [compose].
  all: by case_bool_decide.
Qed.

(** A failing quota call: nothing is written, nothing is flushed, and the
    command ends on the "Resize Failed" embed. *)
Lemma resize_quota_failure w container ram cpu size g st :
  truthy size = Some g →
  (∀ h, respond w h (lxc_root_size container g) ≠ ok) →
  let out := resize_vps w container ram cpu size st in
  mem out.2 = mem st ∧ disk out.2 = disk st ∧ saves out.2 = saves st ∧
  last (trace out.2) = Some (ctx_send "Resize Failed") ∧ out.1 ≠ inr Resized.
Proof.
  intros Hs Hq.
  apply (wp_elim_let (resize_vps w container ram cpu size)).
  unfold resize_vps. rewrite Hs.
  destruct (truthy ram), (truthy cpu); wp_run;
    try (by rewrite ?last_snoc);
    by match goal with H : respond _ _ (lxc_root_size _ _) = ok |- _ =>
         destruct (Hq _ H) end.
Qed.

(** A failing memory call ends the command: the CPU and storage dimensions
    are not attempted. *)
Lemma resize_memory_failure w container ram cpu size r st :
  truthy ram = Some r →
  respond w (trace st) (lxc_set_memory container (r * 1024)) ≠ ok →
  let out := resize_vps w container ram cpu size st in
  trace out.2 = trace st ++ [lxc_set_memory container (r * 1024);
                             ctx_send "Resize Failed"] ∧
  mem out.2 = mem st ∧ disk out.2 = disk st ∧ saves out.2 = saves st.
Proof.
  intros Hr Hq.
  apply (wp_elim_let (resize_vps w container ram cpu size)).
  unfold resize_vps. rewrite Hr.
  wp_run; try done; by rewrite <-app_assoc.
Qed.

(** A failing CPU call ends the command as well: the storage dimension is not
    attempted. *)
Lemma resize_cpu_failure w container ram cpu size n st :
  truthy cpu = Some n →
  (∀ h, respond w h (lxc_set_cpu container n) ≠ ok) →
  let out := resize_vps w container ram cpu size st in
  mem out.2 = mem st ∧ disk out.2 = disk st ∧ saves out.2 = saves st ∧
  ∀ c, c ∈ trace out.2 →
    c ∈ trace st ∨ (∃ r, c = lxc_set_memory container r) ∨
    c = lxc_set_cpu container n ∨ c = ctx_send "Resize Failed".
Proof.
  intros Hn Hq.
  apply (wp_elim_let (resize_vps w container ram cpu size)).
  unfold resize_vps. rewrite Hn.
  destruct (truthy ram); wp_run;
    try (by match goal with H : respond _ _ (lxc_set_cpu _ _) = ok |- _ =>
              destruct (Hq _ H) end).
  all: do 3 (split; [done|]); intros c'.
  all: rewrite !elem_of_app, !list_elem_of_singleton; intros Hc.
  all: repeat match goal with H : _ ∨ _ |- _ => destruct H as [H|H] end; subst.
  all: first [by left | by right; left; eexists
             | by right; right; left | by right; right; right].
Qed.

Lemma resize_first_failure w container ram cpu size st pre c post :
  resize_calls container ram cpu size = pre ++ c :: post →
  all_ok w (trace st) pre →
  respond w (trace st ++ pre) c ≠ ok →
  let out := resize_vps w container ram cpu size st in
  trace out.2 = trace st ++ pre ++ [c; ctx_send "Resize Failed"] ∧
  mem out.2 = mem st ∧ disk out.2 = disk st ∧ saves out.2 = saves st ∧
  out.1 ≠ inr Resized.
Proof.
  intros Hcalls Hpre Hc.
  apply (wp_elim_let (resize_vps w container ram cpu size)).
  unfold resize_vps, resize_calls in *.
  destruct (truthy ram), (truthy cpu), (truthy size); cbn [app] in Hcalls.
  all: repeat (destruct pre as [|? pre]; cbn [app] in Hcalls;
               [|try discriminate Hcalls]);
       try discriminate Hcalls; simplify_eq.
  all: cbn [all_ok] in Hpre; rewrite ?app_nil_r in *; cbn [app] in *.
  all: wp_run.
  all: rewrite <- ?app_assoc in *; cbn [app] in *.
  all: try (exfalso; intuition congruence).
  all: try (by repeat split).
Qed.

Lemma resize_all_ok w container ram cpu size st :
  all_ok w (trace st) (resize_calls container ram cpu size) →
  let out := resize_vps w container ram cpu size st in
  let made := trace st ++ resize_calls container ram cpu size ++
              match truthy size with
              | Some _ => [lxc_grow_fs container]
              | None => []
              end in
  mem out.2 = match truthy size with
              | Some g => update_storage container g (mem st)
              | None => mem st
              end ∧
  disk out.2 = mem out.2 ∧ saves out.2 = S (saves st) ∧
  (respond w made (ctx_send "VPS Resized") = ok →
     out.1 = inr Resized ∧ trace out.2 = made ++ [ctx_send "VPS Resized"]) ∧
  (respond w made (ctx_send "VPS Resized") ≠ ok →
     out.1 ≠ inr Resized ∧
     trace out.2 = made ++ [ctx_send "VPS Resized"; ctx_send "Resize Failed"]).
Proof.
  intros Hcalls.
  apply (wp_elim_let (resize_vps w container ram cpu size)).
  unfold resize_vps, resize_calls in *.
  destruct (truthy ram), (truthy cpu), (truthy size);
    cbn [app all_ok] in Hcalls; cbn [app].
  all: wp_run.
  all: rewrite <- ?app_assoc in *; cbn [app] in *; rewrite ?app_nil_r in *.
  all: try (exfalso; intuition congruence).
  all: split; [done|]; split; [done|]; split; [done|].
  all: split; intros Hsend; try (exfalso; congruence);
       (split; [done|by rewrite <- ?app_assoc]).
Qed.

(** [C3], as the code has it.  [resize_vps] applies the supplied dimensions
    in the order RAM, CPU, storage inside one [try].  The first runtime call
    that fails ends the command: the calls made are exactly the ones before
    it, the failing one and the "Resize Failed" embed, so a failed call is
    not repeated and the dimensions after it are not attempted, and the
    tables and the flushed copy are as before.  When every runtime call
    succeeds, each supplied dimension is applied once, in that order, the
    stored storage text is rewritten for the records with that container
    name (and only when storage was supplied), the store is flushed once,
    after all dimensions, and the command reports "VPS Resized".  In
    particular, when the quota call fails the tables are unchanged, the
    "Resize Failed" embed is sent and nothing is flushed. *)
Theorem resize_sequential w container ram cpu size st :
  let out := resize_vps w container ram cpu size st in
  let calls := resize_calls container ram cpu size in
  ((mem out.2 = mem st ∧ disk out.2 = disk st ∧ saves out.2 = saves st ∧
    out.1 ≠ inr Resized) ∨
   (saves out.2 = S (saves st) ∧ disk out.2 = mem out.2 ∧
    ∀ o, storage <$> records out.2 o =
         match truthy size with
         | Some g => resized_storage container g <$> records st o
         | None => storage <$> records st o
         end)) ∧
  (∀ g, truthy size = Some g →
     (∀ h, respond w h (lxc_root_size container g) ≠ ok) →
     mem out.2 = mem st ∧ disk out.2 = disk st ∧ saves out.2 = saves st ∧
     last (trace out.2) = Some (ctx_send "Resize Failed") ∧ out.1 ≠ inr Resized) ∧
  (∀ r, truthy ram = Some r →
     respond w (trace st) (lxc_set_memory container (r * 1024)) ≠ ok →
     trace out.2 = trace st ++ [lxc_set_memory container (r * 1024);
                                ctx_send "Resize Failed"] ∧
     mem out.2 = mem st ∧ disk out.2 = disk st ∧ saves out.2 = saves st) ∧
  (∀ n, truthy cpu = Some n →
     (∀ h, respond w h (lxc_set_cpu container n) ≠ ok) →
     mem out.2 = mem st ∧ disk out.2 = disk st ∧ saves out.2 = saves st ∧
     ∀ c, c ∈ trace out.2 →
       c ∈ trace st ∨ (∃ r, c = lxc_set_memory container r) ∨
       c = lxc_set_cpu container n ∨ c = ctx_send "Resize Failed") ∧
  (∀ pre c post,
     calls = pre ++ c :: post →
     all_ok w (trace st) pre →
     respond w (trace st ++ pre) c ≠ ok →
     trace out.2 = trace st ++ pre ++ [c; ctx_send "Resize Failed"] ∧
     mem out.2 = mem st ∧ disk out.2 = disk st ∧ saves out.2 = saves st ∧
     out.1 ≠ inr Resized) ∧
  (all_ok w (trace st) calls →
     let made := trace st ++ calls ++
                 match truthy size with
                 | Some _ => [lxc_grow_fs container]
                 | None => []
                 end in
     mem out.2 = match truthy size with
                 | Some g => update_storage container g (mem st)
                 | None => mem st
                 end ∧
     disk out.2 = mem out.2 ∧ saves out.2 = S (saves st) ∧
     (respond w made (ctx_send "VPS Resized") = ok →
        out.1 = inr Resized ∧ trace out.2 = made ++ [ctx_send "VPS Resized"]) ∧
     (respond w made (ctx_send "VPS Resized") ≠ ok →
        out.1 ≠ inr Resized ∧
        trace out.2 = made ++ [ctx_send "VPS Resized"; ctx_send "Resize Failed"])).
Proof.
  cbv zeta. split; [apply resize_outcomes|]. split; [|split; [|split; [|split]]].
  - intros g. apply resize_quota_failure.
  - intros r. apply resize_memory_failure.
  - intros n. apply resize_cpu_failure.
  - intros pre c post. apply resize_first_failure.
  - apply resize_all_ok.
Qed.

Lemma resize_sequential_witness :
  (let out := resize_vps (failing [lxc_root_size "vps-7-1" 50]) "vps-7-1"
                (Some 8) None (Some 50) (one_of_7 running []) in
   storage <$> records out.2 7 = ["20GB"] ∧ saves out.2 = 0%nat ∧
   trace out.2 = [lxc_set_memory "vps-7-1" 8192; lxc_root_size "vps-7-1" 50;
                  ctx_send "Resize Failed"]) ∧
  (let out := resize_vps calm "vps-7-1" (Some 8) (Some 2) (Some 50)
                (one_of_7 running []) in
   out.1 = inr Resized ∧ storage <$> records out.2 7 = ["50GB"] ∧
   saves out.2 = 1%nat ∧ disk out.2 = mem out.2 ∧
   trace out.2 = [lxc_set_memory "vps-7-1" 8192; lxc_set_cpu "vps-7-1" 2;
                  lxc_root_size "vps-7-1" 50; lxc_grow_fs "vps-7-1";
                  ctx_send "VPS Resized"]).
Proof.
  split; cbv zeta.
  - destruct (resize_sequential (failing [lxc_root_size "vps-7-1" 50]) "vps-7-1"
                (Some 8) None (Some 50) (one_of_7 running []))
      as (_ & _ & _ & _ & Hfail & _).
    destruct (Hfail [lxc_set_memory "vps-7-1" 8192] (lxc_root_size "vps-7-1" 50) [])
      as (Ht & Hm & _ & Hs & _).
    + reflexivity.
    + by vm_compute.
    + by vm_compute.
    + unfold records. rewrite Hm, Hs, Ht. by vm_compute.
  - destruct (resize_sequential calm "vps-7-1" (Some 8) (Some 2) (Some 50)
                (one_of_7 running [])) as (_ & _ & _ & _ & _ & Hgo).
    destruct Hgo as (Hm & Hd & Hs & Hsent & _); [by vm_compute|].
    destruct Hsent as [Hr Ht]; [reflexivity|].
    unfold records. rewrite Hr, Hm, Hs, Hd, Ht, Hm. by vm_compute.
Defined.

(** [C3] fails as stated: the dimensions are not applied independently.
    With RAM and storage supplied and a failing memory call, the quota call,
    which the runtime would accept, is never made and the stored storage
    stays at 20GB.  And a memory call that succeeds leaves the stored RAM
    text as it was. *)
Lemma resize_not_per_dimension :
  (let w := failing [lxc_set_memory "vps-7-1" 8192] in
   let out := resize_vps w "vps-7-1" (Some 8) None (Some 50) (one_of_7 running []) in
   (∀ h, respond w h (lxc_root_size "vps-7-1" 50) = ok) ∧
   trace out.2 = [lxc_set_memory "vps-7-1" 8192; ctx_send "Resize Failed"] ∧
   storage <$> records out.2 7 = ["20GB"] ∧ out.1 = inr ResizeFailed) ∧
  (let out := resize_vps calm "vps-7-1" (Some 8) None None (one_of_7 running []) in
   out.1 = inr Resized ∧ lxc_set_memory "vps-7-1" 8192 ∈ trace out.2 ∧
   ram <$> records out.2 7 = ["4GB"]).
Proof.
  split; cbv zeta.
  - split; [by intros h|]. by vm_compute.
  - split; [by vm_compute|]. split; [|by vm_compute].
    apply (bool_decide_unpack _). by vm_compute.
Qed.

End Resize.

(** ** Sharing *)

Section Sharing.

Lemma no_self_share_from t t' : shares_from t t' → no_self_share t → no_self_share t'.
Proof.
  intros Hf Ht o l' i v' Hl Hv Hin.
  destruct (Hf _ _ _ _ Hl Hv) as [E|(l & j & v & Hl0 & Hv0 & Hsub)].
  - rewrite E in Hin. by apply not_elem_of_nil in Hin.
  - destruct (Hsub _ Hin) as [?|?]; [|done]. by eapply Ht.
Qed.

Lemma shares_from_same t t' : vps_data t' = vps_data t → shares_from t t'.
Proof. intros E o l' i v' Hl Hv. rewrite E in Hl. right. eauto 10. Qed.

Lemma nss_ensure_user u t : no_self_share t → no_self_share (ensure_user u t).
Proof. apply no_self_share_from, shares_from_same, vps_data_ensure_user. Qed.

Lemma nss_set_credits u c t : no_self_share t → no_self_share (set_credits u c t).
Proof. by apply no_self_share_from, shares_from_same. Qed.

Lemma nss_ensure_vps u t : no_self_share t → no_self_share (ensure_vps u t).
Proof.
  apply no_self_share_from. intros o l' i v' Hl Hv.
  unfold ensure_vps in Hl. destruct (vps_data t !! u) eqn:E; [right; eauto 10|].
  cbn [vps_data] in Hl. apply lookup_insert_Some in Hl as [[-> <-]|[_ Hl]].
  - by rewrite lookup_nil in Hv.
  - right; eauto 10.
Qed.

Lemma nss_append u l v t :
  vps_data t !! u = Some l → shared_with v = [] →
  no_self_share t → no_self_share (set_vps_list u (l ++ [v]) t).
Proof.
  intros Hu Hv. apply no_self_share_from. intros o l' i v' Hl Hi.
  cbn [set_vps_list vps_data] in Hl.
  apply lookup_insert_Some in Hl as [[-> <-]|[_ Hl]]; [|right; eauto 10].
  apply lookup_app_Some in Hi as [Hi|[_ Hi]]; [right; eauto 10|].
  apply list_lookup_singleton_Some in Hi as [_ <-]. by left.
Qed.

Lemma nss_update_nth u n f t :
  (∀ v x, x ∈ shared_with (f v) → x ∈ shared_with v ∨ x ≠ u) →
  no_self_share t → no_self_share (update_nth_vps u n f t).
Proof.
  intros Hf. apply no_self_share_from. intros o l' i v' Hl Hi.
  cbn [update_nth_vps vps_data] in Hl. right.
  apply lookup_alter_Some in Hl as [(-> & l & Hl & ->)|[_ Hl]]; [|eauto 10].
  destruct (decide (Z.to_nat (n - 1) = i)) as [<-|Hne].
  - rewrite list_lookup_alter_eq in Hi.
    destruct (l !! Z.to_nat (n - 1)) as [v|] eqn:E; [|done].
    injection Hi as <-. exists l, (Z.to_nat (n - 1)), v. eauto.
  - rewrite list_lookup_alter_ne in Hi by done. eauto 10.
Qed.

Lemma nss_del_nth u n l t :
  vps_data t !! u = Some l →
  no_self_share t → no_self_share (del_nth_vps u n l t).
Proof.
  intros Hu. apply no_self_share_from. intros o l' i v' Hl Hi.
  cbn [del_nth_vps set_vps_list vps_data] in Hl. right.
  apply lookup_insert_Some in Hl as [[-> <-]|[_ Hl]]; [|eauto 10].
  apply list_elem_of_lookup_2, list_elem_of_delete_inv, list_elem_of_lookup_1 in Hi
    as [j Hj].
  eauto 10.
Qed.

Lemma nss_del_list u t : no_self_share t → no_self_share (del_vps_list u t).
Proof.
  apply no_self_share_from. intros o l' i v' Hl Hi.
  cbn [del_vps_list vps_data] in Hl.
  apply lookup_delete_Some in Hl as [_ Hl]. right; eauto 10.
Qed.

Lemma nss_fmap (f : vps_info -> vps_info) t :
  (∀ v, shared_with (f v) = shared_with v) →
  no_self_share t →
  no_self_share {| user_data := user_data t;
                   vps_data := fmap (M := gmap N) (fmap (M := list) f) (vps_data t) |}.
Proof.
  intros Hf. apply no_self_share_from. intros o l' i v' Hl Hi.
  cbn [vps_data] in Hl. right.
  apply lookup_fmap_Some in Hl as (l & <- & Hl).
  apply list_lookup_fmap_Some in Hi as (v & -> & Hi).
  exists l, i, v. rewrite Hf. eauto.
Qed.

Lemma nss_update_storage c g t :
  no_self_share t → no_self_share (update_storage c g t).
Proof. apply nss_fmap. intros v. by case_bool_decide. Qed.

Lemma nss_mark_all_stopped t : no_self_share t → no_self_share (mark_all_stopped t).
Proof. apply nss_fmap. intros v. unfold stop_if_running. by destruct (status v). Qed.

Lemma elem_of_remove_first x y l : x ∈ remove_first y l → x ∈ l.
Proof.
  induction l as [|z l IH]; cbn [remove_first]; [done|].
  case_bool_decide; rewrite !elem_of_cons; [tauto|]. intros [?|?]; auto.
Qed.

Ltac nss :=
  eauto 12 using nss_ensure_user, nss_set_credits, nss_ensure_vps, nss_append,
    nss_update_nth, nss_del_nth, nss_del_list, nss_update_storage,
    nss_mark_all_stopped.

Ltac preserving m :=
  let st := fresh "st" in let Hst := fresh "Hst" in
  intros st Hst;
  apply (wp_elim_let m (fun out => no_self_share (mem out.2)));
  cbv beta.

Lemma preserves_share_user w ctx grantee n :
  grantee ≠ author ctx → preserves no_self_share (share_user w ctx grantee n).
Proof.
  intros Hne. preserving (share_user w ctx grantee n).
  unfold share_user. wp_fast; nss.
  all: apply nss_update_nth; [|done].
  all: intros v' x; cbn [shared_with set_shared_with]; rewrite elem_of_app.
  all: rewrite list_elem_of_singleton; intros [?|E]; [by left|right; by rewrite E].
Qed.

Lemma preserves_revoke_share w ctx grantee n :
  preserves no_self_share (revoke_share w ctx grantee n).
Proof.
  preserving (revoke_share w ctx grantee n).
  unfold revoke_share. wp_fast; nss.
  all: apply nss_update_nth; [|done].
  all: intros v' x ?%elem_of_remove_first; auto.
Qed.

Lemma preserves_create_vps w ctx user ram cpu storage :
  preserves no_self_share (create_vps w ctx user ram cpu storage).
Proof.
  preserving (create_vps w ctx user ram cpu storage).
  unfold create_vps. wp_fast; simplify_eq; nss.
Qed.

Lemma preserves_buy_with_credits w ctx p c override :
  preserves no_self_share (buy_with_credits w ctx p c override).
Proof.
  preserving (buy_with_credits w ctx p c override).
  unfold buy_with_credits. wp_fast; simplify_eq; nss.
Qed.

Lemma preserves_delete_vps w ctx user n :
  preserves no_self_share (delete_vps w ctx user n).
Proof.
  preserving (delete_vps w ctx user n).
  unfold delete_vps. wp_fast; simplify_eq; nss.
Qed.

Lemma preserves_resize_vps w container ram cpu size :
  preserves no_self_share (resize_vps w container ram cpu size).
Proof.
  preserving (resize_vps w container ram cpu size).
  unfold resize_vps. destruct (truthy ram), (truthy cpu), (truthy size);
    wp_fast; nss.
Qed.

Lemma preserves_manage w owner i :
  preserves no_self_share (manage_start w owner i) ∧
  preserves no_self_share (manage_stop w owner i).
Proof.
  split.
  - preserving (manage_start w owner i). unfold manage_start. wp_fast; nss.
  - preserving (manage_stop w owner i). unfold manage_stop. wp_fast; nss.
Qed.

Lemma preserves_admin_credits w user amount :
  preserves no_self_share (admin_credits w user amount).
Proof.
  preserving (admin_credits w user amount).
  unfold admin_credits. wp_fast; nss.
Qed.

Lemma preserves_cpu_monitor_control w action :
  preserves no_self_share (cpu_monitor_control w action).
Proof.
  preserving (cpu_monitor_control w action).
  unfold cpu_monitor_control. wp_fast; nss.
Qed.

Lemma preserves_cpu_monitor_body w :
  preserves no_self_share (cpu_monitor_body w).
Proof.
  preserving (cpu_monitor_body w).
  unfold cpu_monitor_body. wp_fast; nss.
Qed.

End Sharing.

(** ** The CPU monitor *)

Section Monitor.

Lemma records_mark_all_stopped st o :
  default [] (vps_data (mark_all_stopped (mem st)) !! o)
  = stop_if_running <$> records st o.
Proof.
  unfold mark_all_stopped, records. cbn [vps_data].
  rewrite lookup_fmap. by destruct (vps_data (mem st) !! o).
Qed.

Lemma same_but_status_refl v : same_but_status v v.
Proof. by repeat split. Qed.

Lemma same_but_status_stop v : same_but_status v (stop_if_running v).
Proof. unfold stop_if_running. destruct (status v); by repeat split. Qed.

Lemma status_stop_if_running v : status (stop_if_running v) = stopped.
Proof. unfold stop_if_running. by destruct (status v) eqn:E. Qed.

Lemma stop_if_running_stopped v : status v = stopped → stop_if_running v = v.
Proof. unfold stop_if_running. by intros ->. Qed.

Lemma over_threshold_0 : over_threshold 0 = false.
Proof. reflexivity. Qed.

(** An iteration of the loop never raises and never touches the flag,
    whatever fails in it. *)
Lemma cpu_monitor_body_total w st :
  (cpu_monitor_body w st).1 = inr tt ∧
  cpu_monitor_active (cpu_monitor_body w st).2 = cpu_monitor_active st.
Proof.
  apply (wp_elim_let (cpu_monitor_body w)
           (fun out => out.1 = inr tt ∧ cpu_monitor_active out.2 = _)).
  unfold cpu_monitor_body. by wp_fast.
Qed.

(** [C7], as the code has it.  When the monitor is active and the sampled
    usage is over the threshold, the iteration calls the stop-all verb once.
    If the verb succeeds, every record is left stopped and the tables are
    flushed; if it fails, no record changes and nothing is flushed.  In both
    cases every field other than [status] of every record of every owner is
    as it was, records already stopped are untouched, and the thread keeps
    looping with the flag still on. *)
Theorem cpu_guard_stop_all w st :
  cpu_monitor_active st = true →
  over_threshold (sampled_usage w st) = true →
  let out := cpu_monitor_wake w Looping st in
  out.1 = Looping ∧ cpu_monitor_active out.2 = true ∧
  trace out.2 = trace st ++ [top; lxc_stop_all] ∧
  (∀ o, Forall2 same_but_status (records st o) (records out.2 o)) ∧
  (∀ o i v, records st o !! i = Some v → status v = stopped →
            records out.2 o !! i = Some v) ∧
  match respond w (trace st ++ [top]) lxc_stop_all with
  | ok => (∀ o i v, records out.2 o !! i = Some v → status v = stopped) ∧
          disk out.2 = mem out.2 ∧ saves out.2 = S (saves st)
  | _ => mem out.2 = mem st ∧ disk out.2 = disk st ∧ saves out.2 = saves st
  end.
Proof.
  intros Hact Hover. unfold cpu_monitor_wake. rewrite Hact. cbn [fst snd].
  split; [done|].
  apply (wp_elim_let (cpu_monitor_body w)
    (fun out =>
       cpu_monitor_active out.2 = true ∧
       trace out.2 = trace st ++ [top; lxc_stop_all] ∧
       (∀ o, Forall2 same_but_status (records st o) (records out.2 o)) ∧
       (∀ o i v, records st o !! i = Some v → status v = stopped →
                 records out.2 o !! i = Some v) ∧
       match respond w (trace st ++ [top]) lxc_stop_all with
       | ok => (∀ o i v, records out.2 o !! i = Some v → status v = stopped) ∧
               disk out.2 = mem out.2 ∧ saves out.2 = S (saves st)
       | _ => mem out.2 = mem st ∧ disk out.2 = disk st ∧ saves out.2 = saves st
       end)).
  unfold cpu_monitor_body, sampled_usage in *.
  do 2 wp_step. apply wp_get_cpu_usage.
  destruct (respond w (trace st) top) eqn:Etop;
    try (rewrite over_threshold_0 in Hover; discriminate Hover).
  cbv beta iota. rewrite Hover. unfold records.
  wp_run; rewrite <-app_assoc; cbn [app].
  2,3: do 2 (split; [done|]); split; [|by split].
  2,3: intros o; apply Forall_Forall2_diag, Forall_forall.
  2,3: intros; apply same_but_status_refl.
  do 2 (split; [done|]).
  split; [|split; [|split; [|done]]].
  - intros o. rewrite records_mark_all_stopped.
    apply Forall2_fmap_r, Forall_Forall2_diag, Forall_forall.
    intros v _. apply same_but_status_stop.
  - intros o i v Hv Hs. rewrite records_mark_all_stopped, list_lookup_fmap.
    unfold records. rewrite Hv. cbn. by rewrite stop_if_running_stopped.
  - intros o i v. rewrite records_mark_all_stopped, list_lookup_fmap.
    intros (v0 & _ & ->)%fmap_Some. apply status_stop_if_running.
Qed.

Lemma cpu_guard_stop_all_witness :
  let out := cpu_monitor_wake (busy (95 # 1) []) Looping (one_of_7 running []) in
  trace out.2 = [top; lxc_stop_all] ∧
  ∀ i v, records out.2 7 !! i = Some v → status v = stopped.
Proof.
  destruct (cpu_guard_stop_all (busy (95 # 1) []) (one_of_7 running [])
              eq_refl eq_refl) as (_ & _ & Ht & _ & _ & Hs).
  split; [exact Ht|]. intros i v. apply (proj1 Hs 7%N).
Defined.

(** [C7] fails as stated: the usage is over the threshold and the stop-all
    verb fails, and the running record stays running. *)
Lemma stop_all_failure_leaves_running :
  let w := busy (95 # 1) [lxc_stop_all] in
  let st := one_of_7 running [] in
  let out := cpu_monitor_wake w Looping st in
  cpu_monitor_active st = true ∧ over_threshold (sampled_usage w st) = true ∧
  trace out.2 = [top; lxc_stop_all] ∧
  status <$> records out.2 7 = [running].
Proof. by vm_compute. Qed.

End Monitor.

(** ** The monitor thread and its toggle *)

Section Toggle.

Lemma samples_log c st : c ≠ top → samples (log c st) = samples st.
Proof.
  intros Hc. unfold samples, log. cbn [trace].
  rewrite filter_app, length_app, filter_cons_False by done. cbn. lia.
Qed.

(** The control command takes no CPU sample. *)
Lemma control_takes_no_sample w action st :
  samples (cpu_monitor_control w action st).2 = samples st.
Proof.
  apply (wp_elim_let (cpu_monitor_control w action)
           (fun out => samples out.2 = samples st)).
  unfold cpu_monitor_control. repeat case_bool_decide; wp_run;
    by rewrite samples_log.
Qed.

(** What the control command does to the flag. *)
Lemma control_flag w action st :
  cpu_monitor_active (cpu_monitor_control w action st).2 =
  if bool_decide (PyStr.lower action = "status") then cpu_monitor_active st
  else if bool_decide (PyStr.lower action = "enable") then true
  else if bool_decide (PyStr.lower action = "disable") then false
  else cpu_monitor_active st.
Proof.
  apply (wp_elim_let (cpu_monitor_control w action)
           (fun out => cpu_monitor_active out.2 = _)).
  unfold cpu_monitor_control. repeat case_bool_decide; by wp_run.
Qed.

(** While the flag is on, a wake-up takes one sample and the thread goes on
    looping, whatever fails in the iteration. *)
Lemma wake_while_active w st :
  cpu_monitor_active st = true →
  let sys := cpu_monitor_wake w Looping st in
  sys.1 = Looping ∧ cpu_monitor_active sys.2 = true ∧
  samples sys.2 = S (samples st).
Proof.
  intros Hact. unfold cpu_monitor_wake. rewrite Hact. cbn [fst snd].
  split; [done|]. split.
  { by rewrite (proj2 (cpu_monitor_body_total w st)). }
  apply (wp_elim_let (cpu_monitor_body w)
           (fun out => samples out.2 = S (samples st))).
  assert (samples (log top st) = S (samples st)) as Htop.
  { unfold samples, log. cbn [trace].
    rewrite filter_app, length_app, filter_cons_True by done. cbn. lia. }
  unfold cpu_monitor_body.
  do 2 wp_step. apply wp_get_cpu_usage.
  destruct (respond w (trace st) top); cbv beta iota.
  all: destruct (over_threshold _); wp_run; cbn [samples trace] in *.
  all: try done.
  all: unfold samples in *; cbn [trace log] in *.
  all: rewrite filter_app, length_app, filter_cons_False by done.
  all: cbn [filter length]; rewrite Nat.add_0_r; exact Htop.
Qed.

(** A thread that has left the loop stays out of it: no later event makes it
    sample again. *)
Lemma exited_forever w evs st :
  let sys := run_events w evs (Exited, st) in
  sys.1 = Exited ∧ samples sys.2 = samples st.
Proof.
  revert st. induction evs as [|ev evs IH]; intros st; [done|].
  unfold run_events in *. cbn [foldl]. destruct ev as [|action]; cbn [step fst snd].
  - apply IH.
  - destruct (IH (cpu_monitor_control w action st).2) as [H1 H2].
    cbn zeta in *. split; [done|]. by rewrite H2, control_takes_no_sample.
Qed.

(** [C5] at the failing input.  The monitor is disabled, the thread wakes up
    once, the monitor is enabled again: the flag is on and the thread is
    over, so whatever happens next, no sample is taken any more.
    [wake_while_active] shows what an enabled monitor does at each wake-up of
    a live thread: it takes a sample and goes on looping. *)
Theorem monitor_not_resumed w st evs :
  let sys := run_events w [Control "disable"; Wake; Control "enable"] (Looping, st) in
  cpu_monitor_active sys.2 = true ∧ sys.1 = Exited ∧
  let later := run_events w evs sys in
  later.1 = Exited ∧ samples later.2 = samples st.
Proof.
  set (st1 := (cpu_monitor_control w "disable" st).2).
  set (st2 := (cpu_monitor_control w "enable" st1).2).
  assert (cpu_monitor_active st1 = false) as Hoff
    by (unfold st1; by rewrite control_flag).
  assert (run_events w [Control "disable"; Wake; Control "enable"] (Looping, st)
          = (Exited, st2)) as ->.
  { unfold run_events. cbn [foldl step fst snd]. fold st1.
    unfold cpu_monitor_wake. by rewrite Hoff. }
  cbv zeta. cbn [fst snd].
  split; [unfold st2; by rewrite control_flag|]. split; [done|].
  destruct (exited_forever w evs st2) as [H1 H2].
  cbn zeta in *. split; [exact H1|].
  unfold st2, st1 in *. by rewrite H2, !control_takes_no_sample.
Qed.

(** The same events on concrete inputs: three wake-ups of an enabled monitor
    take three samples; after a disable that the thread has seen, enabling
    the monitor and waking three times takes none. *)
Example three_wakes_three_samples :
  samples (run_events calm [Wake; Wake; Wake] (Looping, one_of_7 running [])).2 = 3%nat.
Proof. by vm_compute. Qed.

Example reenabled_monitor_takes_no_sample :
  let sys := run_events calm
               [Control "disable"; Wake; Control "enable"; Wake; Wake; Wake]
               (Looping, one_of_7 running []) in
  cpu_monitor_active sys.2 = true ∧ samples sys.2 = 0%nat.
Proof. by vm_compute. Qed.

End Toggle.

(** ** More on sharing *)

Section MoreSharing.

Lemma records_lookup st u l :
  records st u = l → l ≠ [] → vps_data (mem st) !! u = Some l.
Proof.
  unfold records. destruct (vps_data (mem st) !! u); cbn; [by intros ->|].
  by intros <-.
Qed.

Lemma records_update_nth st u n f s :
  mem s = update_nth_vps u n f (mem st) →
  records s u = alter f (Z.to_nat (n - 1)) (records st u) ∧
  (∀ u', u' ≠ u → records s u' = records st u') ∧
  user_data (mem s) = user_data (mem st).
Proof.
  intros E. unfold records. rewrite E. cbn [update_nth_vps vps_data user_data].
  split; [|split; [|done]].
  - rewrite lookup_alter_eq. by destruct (vps_data (mem st) !! u).
  - intros u' ?. by rewrite lookup_alter_ne.
Qed.

Lemma bad_vps_number_false u n t :
  bad_vps_number u n t = false →
  ∃ l, vps_data t !! u = Some l ∧ 1 <= n <= Z.of_nat (length l).
Proof.
  unfold bad_vps_number. destruct (vps_data t !! u) as [l|]; [|done].
  intros Hb. apply orb_false_elim in Hb as [H1 H2].
  apply Z.ltb_ge in H1. apply Z.ltb_ge in H2. exists l. split; [done|lia].
Qed.

Lemma bad_vps_number_true st u n :
  n < 1 ∨ Z.of_nat (length (records st u)) < n →
  bad_vps_number u n (mem st) = true.
Proof.
  unfold bad_vps_number, records.
  destruct (vps_data (mem st) !! u) as [l|]; cbn [default length]; [|done].
  intros [?|?]; apply orb_true_iff; [left|right]; by apply Z.ltb_lt.
Qed.

(** What a successful share leaves behind. *)
Lemma share_success w ctx g n st st' :
  share_user w ctx g n st = (inr Shared, st') →
  ∃ v, 1 <= n ∧ records st (author ctx) !! Z.to_nat (n - 1) = Some v ∧
       (g ∉ shared_with v) ∧
       mem st' = update_nth_vps (author ctx) n
                   (fun v => set_shared_with (shared_with v ++ [g]) v) (mem st) ∧
       disk st' = mem st'.
Proof.
  intros Hrun. pattern st'.
  lazymatch goal with
  | |- ?P st' =>
      cut (wp (share_user w ctx g n) (fun r s => r = inr Shared → P s) st);
      [intros Hwp; exact (wp_elim _ _ _ _ _ Hwp Hrun eq_refl)|]
  end.
  clear. cbv beta. unfold share_user, records.
  wp_fast; try (by intros [=]).
  all: intros _; apply bad_vps_number_false in Heqb as (l' & Hl & ?).
  all: simplify_eq; simpl (default _ _).
  all: exists v; repeat split; try done; try lia.
  all: by apply bool_decide_eq_false in Heqb0.
Qed.

(** What a successful revocation leaves behind. *)
Lemma revoke_success w ctx g n st st' :
  revoke_share w ctx g n st = (inr Revoked, st') →
  ∃ v, 1 <= n ∧ records st (author ctx) !! Z.to_nat (n - 1) = Some v ∧
       g ∈ shared_with v ∧
       mem st' = update_nth_vps (author ctx) n
                   (fun v => set_shared_with (remove_first g (shared_with v)) v)
                   (mem st) ∧
       disk st' = mem st'.
Proof.
  intros Hrun. pattern st'.
  lazymatch goal with
  | |- ?P st' =>
      cut (wp (revoke_share w ctx g n) (fun r s => r = inr Revoked → P s) st);
      [intros Hwp; exact (wp_elim _ _ _ _ _ Hwp Hrun eq_refl)|]
  end.
  clear. cbv beta. unfold revoke_share, records.
  wp_fast; try (by intros [=]).
  all: intros _; apply bad_vps_number_false in Heqb as (l' & Hl & ?).
  all: simplify_eq; simpl (default _ _).
  all: exists v; repeat split; try done; try lia.
  all: apply negb_false_iff in Heqb0; by apply bool_decide_eq_true in Heqb0.
Qed.

Lemma listed_snoc_new g l : g ∉ l → listed g (l ++ [g]) = 1%nat.
Proof.
  intros Hg. unfold listed. rewrite filter_app, length_app, filter_cons_True by done.
  assert (filter (fun y => y = g) l = []) as ->; [|done].
  induction l as [|y l IH]; [done|].
  apply not_elem_of_cons in Hg as [? ?].
  rewrite filter_cons_False by done. auto.
Qed.

Lemma remove_first_snoc g l : g ∉ l → remove_first g (l ++ [g]) = l.
Proof.
  induction l as [|y l IH]; cbn [app remove_first].
  - by rewrite bool_decide_eq_true_2.
  - intros [? ?]%not_elem_of_cons.
    rewrite bool_decide_eq_false_2 by done. by rewrite IH.
Qed.

Lemma set_shared_with_twice l l' v :
  set_shared_with l (set_shared_with l' v) = set_shared_with l v.
Proof. done. Qed.

Lemma set_shared_with_id v : set_shared_with (shared_with v) v = v.
Proof. by destruct v. Qed.

(** [X1] Sharing is idempotent.  After a share that succeeded, sharing the
    same record with the same user again is answered with "Already Shared":
    the tables are not written, nothing is flushed, and the record lists the
    grantee exactly once. *)
Theorem share_twice w w' ctx g n st st' :
  share_user w ctx g n st = (inr Shared, st') →
  let out := share_user w' ctx g n st' in
  out.1 = told w' st' "Already Shared" AlreadyShared ∧
  mem out.2 = mem st' ∧ disk out.2 = disk st' ∧ saves out.2 = saves st' ∧
  ∃ v', records st' (author ctx) !! Z.to_nat (n - 1) = Some v' ∧
        listed g (shared_with v') = 1%nat.
Proof.
  intros (v & Hn & Hv & Hg & Hmem & _)%share_success.
  destruct (records_update_nth _ _ _ _ _ Hmem) as (Hr & _ & _).
  assert (records st' (author ctx) !! Z.to_nat (n - 1)
          = Some (set_shared_with (shared_with v ++ [g]) v)) as Hv'.
  { by rewrite Hr, list_lookup_alter_eq, Hv. }
  assert (vps_data (mem st') !! author ctx = Some (records st' (author ctx))) as Hl.
  { apply records_lookup; [done|]. intros E. by rewrite E in Hv'. }
  assert (bad_vps_number (author ctx) n (mem st') = false) as Hbad.
  { unfold bad_vps_number. rewrite Hl.
    apply lookup_lt_Some in Hv'. apply orb_false_intro; [apply Z.ltb_ge|apply Z.ltb_ge]; lia. }
  cbv zeta. split; [|split; [|split; [|split]]].
  5:{ eexists. split; [exact Hv'|]. cbn [shared_with set_shared_with].
      by apply listed_snoc_new. }
  all: apply (wp_elim_let (share_user w' ctx g n)).
  all: unfold share_user, told; wp_run; rewrite Hbad; wp_run.
  all: rewrite Hl; cbv beta iota; wp_run; rewrite Hv'; cbv beta iota.
  all: cbn [shared_with set_shared_with].
  all: rewrite bool_decide_eq_true_2 by (apply elem_of_app; right; apply list_elem_of_here).
  all: by wp_run.
Qed.

Lemma share_twice_witness :
  let ctx := {| author := 7; guild := true |} in
  ∃ st', share_user calm ctx 9 1 (one_of_7 running []) = (inr Shared, st') ∧
         (share_user calm ctx 9 1 st').1 = inr AlreadyShared ∧
         shared_with <$> records st' 7 = [[9%N]].
Proof.
  intros ctx.
  destruct (share_user calm ctx 9 1 (one_of_7 running [])) as [[e|[]] st'] eqn:E;
    try (vm_compute in E; discriminate E).
  exists st'. split; [reflexivity|].
  destruct (share_twice calm calm ctx 9%N 1 _ st' E) as (H1 & _).
  split; [exact H1|].
  injection E as <-. by vm_compute.
Defined.

(** [X2] Revoking a share from a user who is not listed is answered with
    "Not Shared" and changes nothing: the tables and the flushed copy are as
    before, and the only call is that embed. *)
Theorem revoke_absent w ctx g n st v :
  1 <= n →
  records st (author ctx) !! Z.to_nat (n - 1) = Some v →
  g ∉ shared_with v →
  let out := revoke_share w ctx g n st in
  out.1 = told w st "Not Shared" NotShared ∧
  trace out.2 = trace st ++ [ctx_send "Not Shared"] ∧
  mem out.2 = mem st ∧ disk out.2 = disk st ∧ saves out.2 = saves st.
Proof.
  intros Hn Hv Hg.
  assert (vps_data (mem st) !! author ctx = Some (records st (author ctx))) as Hl.
  { apply records_lookup; [done|]. intros E. by rewrite E in Hv. }
  assert (bad_vps_number (author ctx) n (mem st) = false) as Hbad.
  { unfold bad_vps_number. rewrite Hl.
    apply lookup_lt_Some in Hv. apply orb_false_intro; apply Z.ltb_ge; lia. }
  apply (wp_elim_let (revoke_share w ctx g n)).
  unfold revoke_share, told. wp_run. rewrite Hbad. wp_run.
  rewrite Hl. cbv beta iota. wp_run. rewrite Hv. cbv beta iota.
  rewrite bool_decide_eq_false_2 by done. cbn [negb].
  by wp_run.
Qed.

Lemma revoke_absent_witness :
  let ctx := {| author := 7; guild := true |} in
  let out := revoke_share calm ctx 9 1 (one_of_7 running [8%N]) in
  out.1 = inr NotShared ∧ mem out.2 = mem (one_of_7 running [8%N]).
Proof.
  intros ctx.
  destruct (revoke_absent calm ctx 9%N 1 (one_of_7 running [8%N])
              (set_shared_with [8%N] (sample_vps 7 1 running)))
    as (H1 & _ & H3 & _).
  - lia.
  - reflexivity.
  - apply (bool_decide_unpack _). by vm_compute.
  - split; [exact H1|exact H3].
Defined.

(** [X3] Sharing and then revoking is a round trip: after a share that
    succeeded and a revocation of the same grantee that succeeded, the
    records of every owner and the balances are what they were before the
    share. *)
Theorem share_then_revoke w w' ctx g n st st' st'' :
  share_user w ctx g n st = (inr Shared, st') →
  revoke_share w' ctx g n st' = (inr Revoked, st'') →
  (∀ u, records st'' u = records st u) ∧ user_data (mem st'') = user_data (mem st).
Proof.
  intros (v & _ & Hv & Hg & Hmem & _)%share_success
         (v' & _ & Hv' & _ & Hmem' & _)%revoke_success.
  destruct (records_update_nth _ _ _ _ _ Hmem) as (Hr & Ho & Hu).
  destruct (records_update_nth _ _ _ _ _ Hmem') as (Hr' & Ho' & Hu').
  split; [|congruence].
  intros u. destruct (decide (u = author ctx)) as [->|?];
    [|by rewrite Ho', Ho].
  rewrite Hr', Hr. apply list_eq. intros i.
  destruct (decide (Z.to_nat (n - 1) = i)) as [<-|?].
  - rewrite !list_lookup_alter_eq, Hv. destruct v; cbn in *.
    by rewrite remove_first_snoc.
  - by rewrite !list_lookup_alter_ne.
Qed.

Lemma share_then_revoke_witness :
  let ctx := {| author := 7; guild := true |} in
  ∃ st' st'',
    share_user calm ctx 9 1 (one_of_7 running []) = (inr Shared, st') ∧
    revoke_share calm ctx 9 1 st' = (inr Revoked, st'') ∧
    records st'' 7 = records (one_of_7 running []) 7.
Proof.
  intros ctx.
  destruct (share_user calm ctx 9 1 (one_of_7 running [])) as [[e|[]] st'] eqn:E;
    try (vm_compute in E; discriminate E).
  destruct (revoke_share calm ctx 9 1 st') as [[e|[]] st''] eqn:E';
    try (injection E as <-; vm_compute in E'; discriminate E').
  exists st', st''. split; [reflexivity|]. split; [exact E'|].
  exact (proj1 (share_then_revoke calm calm ctx 9%N 1 _ st' st'' E E') 7%N).
Defined.

Lemma shares_only_refl u i st s : mem s = mem st → shares_only u i st s.
Proof.
  intros E. unfold shares_only, records. rewrite E. repeat split; try done.
  intros u'. apply Forall_Forall2_diag, Forall_forall. intros; by repeat split.
Qed.

Lemma shares_only_update u n f st s :
  (∀ v, same_but_shared v (f v)) →
  mem s = update_nth_vps u n f (mem st) →
  shares_only u (Z.to_nat (n - 1)) st s.
Proof.
  intros Hf Hmem. destruct (records_update_nth _ _ _ _ _ Hmem) as (Hr & Ho & Hu).
  split; [done|]. split.
  - intros u' j [?|?]; [by rewrite Ho|].
    destruct (decide (u' = u)) as [->|?]; [|by rewrite Ho].
    by rewrite Hr, list_lookup_alter_ne.
  - intros u'. destruct (decide (u' = u)) as [->|?].
    + rewrite Hr. apply Forall2_same_length_lookup_2; [by rewrite length_alter|].
      intros j x y Hx Hy. destruct (decide (Z.to_nat (n - 1) = j)) as [<-|?].
      * rewrite list_lookup_alter_eq, Hx in Hy. injection Hy as <-. apply Hf.
      * rewrite list_lookup_alter_ne, Hx in Hy by done. injection Hy as <-.
        by repeat split.
    + rewrite Ho by done. apply Forall_Forall2_diag, Forall_forall.
      intros; by repeat split.
Qed.

(** [X4] Whatever the outside world does and however they end, [share_user]
    and [revoke_share] write nothing but the sharing list of the addressed
    record: balances, the number and order of records and every other field
    of every record are as before. *)
Theorem sharing_frame w ctx g n st :
  shares_only (author ctx) (Z.to_nat (n - 1)) st (share_user w ctx g n st).2 ∧
  shares_only (author ctx) (Z.to_nat (n - 1)) st (revoke_share w ctx g n st).2.
Proof.
  split.
  - apply (wp_elim_let (share_user w ctx g n)
             (fun out => shares_only _ _ st out.2)).
    unfold share_user. wp_fast; try (by apply shares_only_refl).
    all: eapply shares_only_update; [|reflexivity]; intros ?; by repeat split.
  - apply (wp_elim_let (revoke_share w ctx g n)
             (fun out => shares_only _ _ st out.2)).
    unfold revoke_share. wp_fast; try (by apply shares_only_refl).
    all: eapply shares_only_update; [|reflexivity]; intros ?; by repeat split.
Qed.

(** [X5] A VPS number below 1 or beyond the owner's list (an unknown owner
    has an empty list) is answered with "Invalid VPS" by [share_user],
    [revoke_share] and [delete_vps] alike: no record is read, no runtime call
    is made and the state is untouched but for that embed in the history. *)
Theorem invalid_vps_number w ctx user g n st :
  n < 1 ∨ Z.of_nat (length (records st user)) < n →
  let rejected :=
    (told w st "Invalid VPS" InvalidVPS, log (ctx_send "Invalid VPS") st) in
  delete_vps w ctx user n st = rejected ∧
  (user = author ctx →
   share_user w ctx g n st = rejected ∧ revoke_share w ctx g n st = rejected).
Proof.
  intros Hbad%bad_vps_number_true.
  assert (∀ r, (perform w (ctx_send "Invalid VPS") >> ret r) st
               = (told w st "Invalid VPS" r, log (ctx_send "Invalid VPS") st))
    as Hsent.
  { intros. unfold bind, perform, told. by destruct (respond _ _ _). }
  cbv zeta. split; [|intros ->; split].
  - unfold delete_vps, bind at 1, gets. cbn [fst snd]. rewrite Hbad. apply Hsent.
  - unfold share_user, bind at 1, gets. cbn [fst snd]. rewrite Hbad. apply Hsent.
  - unfold revoke_share, bind at 1, gets. cbn [fst snd]. rewrite Hbad. apply Hsent.
Qed.

Lemma invalid_vps_number_witness :
  delete_vps calm U1 7 4 three_of_7
  = (inr InvalidVPS, log (ctx_send "Invalid VPS") three_of_7) ∧
  delete_vps calm U1 7 0 three_of_7
  = (inr InvalidVPS, log (ctx_send "Invalid VPS") three_of_7).
Proof.
  split.
  - refine (proj1 (invalid_vps_number calm U1 7%N 9%N 4 three_of_7 _)).
    right. by vm_compute.
  - refine (proj1 (invalid_vps_number calm U1 7%N 9%N 0 three_of_7 _)).
    left. lia.
Defined.

End MoreSharing.

(** ** More on creating, deleting and granting *)

Section MoreLifecycle.



(** [X7] When [delete_vps] succeeds on the owner's only record, the owner's
    entry is removed from [vps_data] altogether; when other records remain,
    the entry holds the shortened list. *)
Theorem delete_drops_empty_entry w ctx user n st st' :
  delete_vps w ctx user n st = (inr Deleted, st') →
  vps_data (mem st') !! user =
    match delete (Z.to_nat (n - 1)) (records st user) with
    | [] => None
    | l => Some l
    end.
Proof.
  intros Hrun. pattern st'.
  lazymatch goal with
  | |- ?P st' =>
      cut (wp (delete_vps w ctx user n) (fun r s => r = inr Deleted → P s) st);
      [intros Hwp; exact (wp_elim _ _ _ _ _ Hwp Hrun eq_refl)|]
  end.
  clear. cbv beta. unfold records, delete_vps.
  wp_fast; try (by intros [=]).
  all: intros _; unfold del_nth_vps in *; tab; simpl (default _ _).
  all: match goal with H : delete _ _ = _ |- _ =>
         by rewrite ?lookup_delete_eq, H end.
Qed.

Lemma delete_drops_empty_entry_witness :
  ∃ st', delete_vps calm U1 7 1 (one_of_7 running []) = (inr Deleted, st') ∧
         vps_data (mem st') !! 7%N = None.
Proof.
  destruct (delete_vps calm U1 7 1 (one_of_7 running [])) as [[e|[]] st'] eqn:E;
    try (vm_compute in E; discriminate E).
  exists st'. split; [reflexivity|].
  exact (delete_drops_empty_entry calm U1 7%N 1 _ st' E).
Defined.



Lemma admin_credits_grant_aux w user amount st :
  (amount <= 0 →
   admin_credits w user amount st
   = (told w st "Invalid Amount" InvalidAmount, log (ctx_send "Invalid Amount") st)) ∧
  (0 < amount →
   balance (admin_credits w user amount st).2 user = balance st user + amount ∧
   vps_data (mem (admin_credits w user amount st).2) = vps_data (mem st)).
Proof.
  split; intros Ha.
  - unfold admin_credits. rewrite (proj2 (Z.leb_le amount 0)) by done.
    unfold bind, perform, told. by destruct (respond _ _ _).
  - apply (wp_elim_let (admin_credits w user amount)
             (fun out => balance out.2 user = _ ∧ vps_data (mem out.2) = _)).
    unfold admin_credits, balance. rewrite (proj2 (Z.leb_gt amount 0)) by done.
    wp_run. rewrite lookup_ensure_user. cbv beta iota.
    wp_run; tab; simpl (default _ _); by split.
Qed.

(** [X9] [admin_credits] adds exactly the granted amount to the balance of
    the user, creates the account if needed, leaves every other balance and
    every record alone and flushes, whether or not the confirmation can be
    sent; an amount that is not positive is answered with "Invalid Amount"
    and changes nothing. *)
Theorem admin_credits_grant w user amount st :
  let out := admin_credits w user amount st in
  (amount <= 0 →
   out = (told w st "Invalid Amount" InvalidAmount,
          log (ctx_send "Invalid Amount") st)) ∧
  (0 < amount →
   out.1 = told w st "Credits Added" CreditsAdded ∧
   balance out.2 user = balance st user + amount ∧
   (∀ u, u ≠ user → balance out.2 u = balance st u) ∧
   vps_data (mem out.2) = vps_data (mem st) ∧
   disk out.2 = mem out.2).
Proof.
  cbv zeta. split; intros Ha.
  - unfold admin_credits. rewrite (proj2 (Z.leb_le amount 0)) by done.
    unfold bind, perform, told. by destruct (respond _ _ _).
  - apply (wp_elim_let (admin_credits w user amount)).
    unfold admin_credits, balance. rewrite (proj2 (Z.leb_gt amount 0)) by done.
    wp_run. rewrite lookup_ensure_user. cbv beta iota. unfold told.
    wp_run; tab; simpl (default _ _).
    all: repeat split; try done.
    all: intros u ?; rewrite lookup_insert_ne by done; by tab.
Qed.

Lemma admin_credits_grant_witness :
  let out := admin_credits calm 1 100 (with_credits 0) in
  out.1 = inr CreditsAdded ∧ balance out.2 1 = 100.
Proof.
  destruct (admin_credits_grant calm 1%N 100 (with_credits 0)) as (_ & Hpos).
  destruct Hpos as (H1 & H2 & _); [lia|].
  split; [exact H1|exact H2].
Defined.

(** [X10] Granting and buying compose: after a grant to a user and a purchase
    by that user that succeeds, the balance is the old balance plus the grant
    minus the price of the plan, and exactly one record was added. *)
Theorem grant_then_buy w w' ctx amount p c override st st1 st2 v cost :
  admin_credits w (author ctx) amount st = (inr CreditsAdded, st1) →
  buy_with_credits w' ctx p c override st1 = (inr (Purchased v), st2) →
  price p c = Some cost →
  0 < amount ∧
  balance st2 (author ctx) = balance st (author ctx) + amount - cost ∧
  records st2 (author ctx) = records st (author ctx) ++ [v].
Proof.
  intros Hgrant Hbuy Hprice.
  destruct (admin_credits_grant_aux w (author ctx) amount st) as [Hneg Hpos].
  destruct (Z_le_gt_dec amount 0) as [Hle|Hgt].
  { rewrite (Hneg Hle) in Hgrant. unfold told in Hgrant.
    destruct (respond _ _ _); by injection Hgrant. }
  split; [lia|].
  destruct Hpos as (Hb & Hv); [lia|]. rewrite Hgrant in Hb, Hv. cbn [snd] in *.
  apply purchase_success in Hbuy
    as (cost' & spec & Hp & _ & _ & Hb2 & _ & Hr & _).
  rewrite Hprice in Hp. injection Hp as <-.
  split; [rewrite Hb2, Hb; lia|].
  rewrite Hr. unfold records. by rewrite Hv.
Qed.

Lemma grant_then_buy_witness :
  ∃ st1 v st2,
    admin_credits calm 1 100 (with_credits 0) = (inr CreditsAdded, st1) ∧
    buy_with_credits calm U1 "Starter" "Intel" None st1 = (inr (Purchased v), st2) ∧
    balance st2 1 = 58.
Proof.
  destruct (admin_credits calm 1 100 (with_credits 0)) as [[e|[]] st1] eqn:E;
    try (vm_compute in E; discriminate E).
  destruct (buy_with_credits calm U1 "Starter" "Intel" None st1) as [[e|[]] st2] eqn:E';
    try (injection E as <-; vm_compute in E'; discriminate E').
  exists st1, v, st2. split; [reflexivity|]. split; [exact E'|].
  destruct (grant_then_buy calm calm U1 100 "Starter" "Intel" None
              (with_credits 0) st1 st2 v 42 E E' eq_refl) as (_ & Hb & _).
  exact Hb.
Defined.

End MoreLifecycle.

(** ** Flushing, frames and the quiet monitor *)

Section Frames.

Ltac flushed m R :=
  let Hrun := fresh "Hrun" in
  intros Hrun;
  match type of Hrun with
  | _ ?st = (_, ?s) =>
      cut (wp m (fun r s0 => r = inr R → disk s0 = mem s0) st);
      [intros Hwp; exact (wp_elim _ _ _ _ _ Hwp Hrun eq_refl)|]
  end;
  clear Hrun.

(** [X11] Every command that reports success has flushed what it wrote: when
    a creation, a purchase, a share, a revocation, a deletion, a resize, a
    start, a stop or a grant ends with its success reply, the flushed copy
    of the tables equals the tables in memory. *)
Theorem success_is_flushed w ctx st st' :
  (∀ user ram cpu storage v,
     create_vps w ctx user ram cpu storage st = (inr (Created v), st') →
     disk st' = mem st') ∧
  (∀ p c override v,
     buy_with_credits w ctx p c override st = (inr (Purchased v), st') →
     disk st' = mem st') ∧
  (∀ g n, share_user w ctx g n st = (inr Shared, st') → disk st' = mem st') ∧
  (∀ g n, revoke_share w ctx g n st = (inr Revoked, st') → disk st' = mem st') ∧
  (∀ user n, delete_vps w ctx user n st = (inr Deleted, st') → disk st' = mem st') ∧
  (∀ container ram cpu size,
     resize_vps w container ram cpu size st = (inr Resized, st') →
     disk st' = mem st') ∧
  (∀ owner i, manage_start w owner i st = (inr Started, st') → disk st' = mem st') ∧
  (∀ owner i, manage_stop w owner i st = (inr Stopped, st') → disk st' = mem st') ∧
  (∀ user amount,
     admin_credits w user amount st = (inr CreditsAdded, st') → disk st' = mem st').
Proof.
  repeat apply conj.
  - intros user ram cpu storage v Hrun.
    by apply create_success in Hrun as (_ & _ & _ & _ & ? & _).
  - intros p c override v Hrun.
    by apply purchase_success in Hrun as (? & ? & _ & _ & _ & _ & _ & _ & _ & ? & _).
  - intros g n Hrun. by apply share_success in Hrun as (? & _ & _ & _ & _ & ?).
  - intros g n Hrun. by apply revoke_success in Hrun as (? & _ & _ & _ & _ & ?).
  - intros user n. flushed (delete_vps w ctx user n) Deleted.
    unfold delete_vps. wp_fast; by (intros [=] || intros _).
  - intros container ram cpu size.
    flushed (resize_vps w container ram cpu size) Resized.
    unfold resize_vps. destruct (truthy ram), (truthy cpu), (truthy size);
      wp_fast; by (intros [=] || intros _).
  - intros owner i. flushed (manage_start w owner i) Started.
    unfold manage_start. wp_fast; by (intros [=] || intros _).
  - intros owner i. flushed (manage_stop w owner i) Stopped.
    unfold manage_stop. wp_fast; by (intros [=] || intros _).
  - intros user amount. flushed (admin_credits w user amount) CreditsAdded.
    unfold admin_credits. wp_fast; by (intros [=] || intros _).
Qed.

Lemma success_is_flushed_witness :
  ∃ st', delete_vps calm U1 7 2 three_of_7 = (inr Deleted, st') ∧
         disk st' = mem st' ∧ length (records st' 7) = 2%nat.
Proof.
  destruct (delete_vps calm U1 7 2 three_of_7) as [[e|[]] st'] eqn:E;
    try (vm_compute in E; discriminate E).
  exists st'. split; [reflexivity|].
  destruct (success_is_flushed calm U1 three_of_7 st')
    as (_ & _ & _ & _ & Hdel & _).
  split; [exact (Hdel 7%N 2 E)|].
  injection E as <-. by vm_compute.
Defined.

(** [X12] Whatever the outside world does and however it ends,
    [buy_with_credits] touches the buyer only: the balance and the records of
    every other user are as before. *)
Theorem purchase_touches_buyer_only w ctx p c override st u :
  u ≠ author ctx →
  let out := buy_with_credits w ctx p c override st in
  balance out.2 u = balance st u ∧ records out.2 u = records st u.
Proof.
  intros Hu.
  apply (wp_elim_let (buy_with_credits w ctx p c override)).
  unfold buy_with_credits, balance, records.
  destruct (dict_get _ PRICES); [|by wp_fast].
  destruct (processor_listed _); cbn [negb]; [|by wp_fast].
  repeat (wp_fast_step; tab).
  all: rewrite ?lookup_insert_ne by done; tab.
  all: rewrite ?lookup_insert_ne by done; by tab.
Qed.

Lemma purchase_touches_buyer_only_witness :
  let out := buy_with_credits calm U1 "Pro" "AMD" None
               (boot {| user_data := {[ 1%N := 500; 2%N := 30 ]}; vps_data := ∅ |}) in
  balance out.2 2 = 30 ∧ records out.2 2 = [].
Proof.
  refine (purchase_touches_buyer_only calm U1 "Pro" "AMD" None _ 2%N _).
  cbn. discriminate.
Defined.

(** [X13] The monitor is quiet when it should be.  With the flag off, a
    wake-up ends the thread and does nothing else.  With the flag on and a
    sampled usage that does not exceed the threshold, a wake-up takes the one
    sample and nothing more: no container is stopped, no table is written,
    nothing is flushed. *)
Theorem cpu_guard_quiet w st :
  (cpu_monitor_active st = false → cpu_monitor_wake w Looping st = (Exited, st)) ∧
  (cpu_monitor_active st = true → over_threshold (sampled_usage w st) = false →
   cpu_monitor_wake w Looping st = (Looping, log top st)).
Proof.
  split.
  - intros Hoff. unfold cpu_monitor_wake. by rewrite Hoff.
  - intros Hon Hlow. unfold cpu_monitor_wake. rewrite Hon. f_equal.
    unfold sampled_usage in Hlow.
    unfold cpu_monitor_body, try_except, bind, get_cpu_usage, sleep, ret.
    destruct (respond w (trace st) top); cbn [fst snd];
      by rewrite ?Hlow, ?over_threshold_0.
Qed.

Lemma cpu_guard_quiet_witness :
  cpu_monitor_wake (busy (90 # 1) []) Looping (one_of_7 running [])
  = (Looping, log top (one_of_7 running [])).
Proof.
  destruct (cpu_guard_quiet (busy (90 # 1) []) (one_of_7 running [])) as (_ & H).
  apply H; reflexivity.
Defined.

(** [X14] A container name determines its owner and its sequence number: two
    different pairs never give the same name, so "vps-1-23" and "vps-12-3"
    are told apart. *)
Theorem container_name_decodes o n o' n' :
  (o, n) ≠ (o', n') → vps_name o n ≠ vps_name o' n'.
Proof. intros Hne [-> ->]%vps_name_inj. by apply Hne. Qed.

Lemma container_name_decodes_witness : vps_name 1 23 ≠ vps_name 12 3.
Proof. apply container_name_decodes. intros [=]. Defined.

End Frames.

(** ** The admin roster *)

Section Roster.

Implicit Types (admins : list N) (user caller : N).

Lemma remove_first_perm user admins :
  user ∈ admins → admins ≡ₚ user :: remove_first user admins.
Proof.
  induction admins as [|y l IH]; [by intros ?%elem_of_nil|].
  cbn [remove_first]. case_bool_decide as E; [by rewrite E|].
  rewrite elem_of_cons. intros [->|Hin]; [done|].
  rewrite (IH Hin) at 1. apply Permutation_swap.
Qed.

Lemma NoDup_remove_first user admins :
  NoDup admins → NoDup (remove_first user admins) ∧ user ∉ remove_first user admins.
Proof.
  intros Hnd. destruct (decide (user ∈ admins)) as [Hin|Hout].
  - rewrite (remove_first_perm _ _ Hin) in Hnd. by apply NoDup_cons in Hnd as [? ?].
  - assert (remove_first user admins = admins) as ->; [|done].
    clear Hnd. induction admins as [|y l IH]; [done|].
    cbn [remove_first]. apply not_elem_of_cons in Hout as [? ?].
    case_bool_decide; [done|]. by rewrite IH.
Qed.

Lemma elem_of_remove_first_ne x user admins :
  x ≠ user → x ∈ remove_first user admins ↔ x ∈ admins.
Proof.
  intros Hne. split; [apply elem_of_remove_first|].
  induction admins as [|y l IH]; [done|].
  cbn [remove_first]. case_bool_decide as E.
  - rewrite elem_of_cons. intros [->|?]; [by subst|done].
  - rewrite !elem_of_cons. intros [?|?]; auto.
Qed.

Lemma is_admin_spec admins x :
  is_admin admins x = true ↔ x = MAIN_ADMIN_ID ∨ x ∈ admins.
Proof.
  unfold is_admin. rewrite orb_true_iff, !bool_decide_eq_true. done.
Qed.

Lemma admin_add_NoDup caller admins user :
  NoDup admins → NoDup (admin_add caller admins user).2.
Proof.
  intros Hnd. unfold admin_add.
  destruct (negb _); [done|]. repeat case_bool_decide; try done.
  cbn [snd]. apply NoDup_app. split_and!; [done| |apply NoDup_singleton].
  intros x Hx ->%list_elem_of_singleton. done.
Qed.

Lemma admin_remove_NoDup caller admins user :
  NoDup admins → NoDup (admin_remove caller admins user).2.
Proof.
  intros Hnd. unfold admin_remove.
  destruct (negb (is_main_admin _)); [done|]. case_bool_decide; [done|].
  destruct (negb _); [done|]. by apply NoDup_remove_first.
Qed.

(** [X16] Roster commands and who is an admin.  A caller other than the
    main admin changes nothing.  For the main admin, [admin_add] answers
    "Admin Added" exactly for a user who is not yet an admin, and afterwards
    that user passes the admin check while everybody else's standing is as
    before; on a duplicate-free roster [admin_remove] answers
    "Admin Removed" exactly for a listed user other than the main admin, and
    afterwards that user fails the admin check while everybody else's
    standing is as before.  Both keep the roster free of duplicates. *)
Theorem roster_membership caller admins user :
  NoDup admins →
  let a := admin_add caller admins user in
  let r := admin_remove caller admins user in
  NoDup a.2 ∧ NoDup r.2 ∧
  (caller ≠ MAIN_ADMIN_ID → a = (AccessDenied, admins) ∧ r = (AccessDenied, admins)) ∧
  (a.1 = AdminAdded ↔ caller = MAIN_ADMIN_ID ∧ is_admin admins user = false) ∧
  (a.1 = AdminAdded →
     is_admin a.2 user = true ∧ ∀ x, x ≠ user → is_admin a.2 x = is_admin admins x) ∧
  (a.1 ≠ AdminAdded → a.2 = admins) ∧
  (r.1 = AdminRemoved ↔ caller = MAIN_ADMIN_ID ∧ user ≠ MAIN_ADMIN_ID ∧ user ∈ admins) ∧
  (r.1 = AdminRemoved →
     is_admin r.2 user = false ∧ ∀ x, x ≠ user → is_admin r.2 x = is_admin admins x) ∧
  (r.1 ≠ AdminRemoved → r.2 = admins).
Proof.
  intros Hnd a r.
  split; [by apply admin_add_NoDup|]. split; [by apply admin_remove_NoDup|].
  subst a r. unfold admin_add, admin_remove, is_main_admin, is_admin.
  destruct (NoDup_remove_first user admins Hnd) as [_ Hgone].
  destruct (decide (caller = MAIN_ADMIN_ID)) as [Hc|Hc].
  2:{ rewrite (bool_decide_eq_false_2 _ Hc). cbn [negb fst snd].
      split_and!; try done; split; try done; by intros [? ?]. }
  rewrite (bool_decide_eq_true_2 _ Hc). cbn [negb].
  split; [done|].
  destruct (decide (user = MAIN_ADMIN_ID)) as [Hu|Hu].
  { rewrite (bool_decide_eq_true_2 _ Hu). cbn [fst snd orb].
    split_and!; try done; split; try done; try (by intros [? ?]); by intros (_ & ? & _). }
  rewrite (bool_decide_eq_false_2 _ Hu). cbn [orb].
  destruct (decide (user ∈ admins)) as [Hin|Hout].
  - rewrite (bool_decide_eq_true_2 _ Hin). cbn [negb fst snd].
    split_and!; try done.
    + split; [done|]. by intros [? ?].
    + intros _. split.
      * by rewrite (bool_decide_eq_false_2 _ Hgone).
      * intros x Hx. f_equal. apply bool_decide_ext. by apply elem_of_remove_first_ne.
  - rewrite (bool_decide_eq_false_2 _ Hout). cbn [negb fst snd].
    split_and!; try done.
    + intros _. split.
      * cbn [orb]. apply bool_decide_eq_true_2. set_solver.
      * intros x Hx. f_equal. apply bool_decide_ext.
        rewrite elem_of_app, list_elem_of_singleton. tauto.
    + split; [done|]. by intros (_ & _ & ?).
Qed.

Lemma roster_membership_witness :
  admin_add MAIN_ADMIN_ID [MAIN_ADMIN_ID; 5%N] 8 = (AdminAdded, [MAIN_ADMIN_ID; 5%N; 8%N]) ∧
  admin_remove 5 [MAIN_ADMIN_ID; 5%N] 5 = (AccessDenied, [MAIN_ADMIN_ID; 5%N]).
Proof.
  assert (NoDup [MAIN_ADMIN_ID; 5%N]) as Hnd by (apply (bool_decide_unpack _); by vm_compute).
  split; [reflexivity|].
  destruct (roster_membership 5 [MAIN_ADMIN_ID; 5%N] 5 Hnd) as (_ & _ & Hden & _).
  apply Hden. discriminate.
Defined.

(** [X17] Adding and removing an admin undo each other.  After a successful
    [admin_add], removing the same user gives back the roster as it was, in
    the same order.  After a successful [admin_remove] on a duplicate-free
    roster, adding the user again succeeds and gives the same admins, the
    re-added one now last. *)
Theorem roster_round_trip admins user :
  ((admin_add MAIN_ADMIN_ID admins user).1 = AdminAdded →
   admin_remove MAIN_ADMIN_ID (admin_add MAIN_ADMIN_ID admins user).2 user
   = (AdminRemoved, admins)) ∧
  (NoDup admins → (admin_remove MAIN_ADMIN_ID admins user).1 = AdminRemoved →
   ∃ admins', admin_add MAIN_ADMIN_ID (admin_remove MAIN_ADMIN_ID admins user).2 user
              = (AdminAdded, admins') ∧ admins' ≡ₚ admins ∧ last admins' = Some user).
Proof.
  unfold admin_add, admin_remove, is_main_admin.
  rewrite (bool_decide_eq_true_2 (MAIN_ADMIN_ID = MAIN_ADMIN_ID)) by done. cbn [negb].
  destruct (decide (user = MAIN_ADMIN_ID)) as [Hu|Hu].
  { rewrite (bool_decide_eq_true_2 _ Hu). by split. }
  rewrite (bool_decide_eq_false_2 _ Hu).
  destruct (decide (user ∈ admins)) as [Hin|Hout].
  - rewrite (bool_decide_eq_true_2 _ Hin). cbn [negb fst snd]. split; [done|].
    intros Hnd _. destruct (NoDup_remove_first user admins Hnd) as [_ Hgone].
    rewrite (bool_decide_eq_false_2 _ Hgone).
    eexists. split; [done|]. split; [|by rewrite last_snoc].
    rewrite <- Permutation_cons_append. symmetry. by apply remove_first_perm.
  - rewrite (bool_decide_eq_false_2 _ Hout). cbn [negb fst snd]. split; [|done].
    intros _. rewrite bool_decide_eq_true_2 by set_solver. cbn [negb].
    by rewrite remove_first_snoc.
Qed.

Lemma roster_round_trip_witness :
  admin_remove MAIN_ADMIN_ID (admin_add MAIN_ADMIN_ID [5%N; 6%N] 8).2 8
  = (AdminRemoved, [5%N; 6%N]).
Proof.
  destruct (roster_round_trip [5%N; 6%N] 8) as [H _]. apply H. reflexivity.
Defined.

Lemma run_roster_snoc cs c admins :
  run_roster (cs ++ [c]) admins = run_roster_command (run_roster cs admins) c.
Proof. unfold run_roster. by rewrite foldl_app. Qed.

(** [X18] The roster over any history.  Starting from the default roster,
    after any sequence of [admin_add] and [admin_remove] commands by any
    callers the roster has no duplicates and still lists the main admin, so
    the users who pass the admin check are exactly the listed ones, and the
    "Total Admins" figure of the statistics is one more than their number. *)
Theorem roster_history cs :
  let admins := run_roster cs initial_admins in
  NoDup admins ∧ MAIN_ADMIN_ID ∈ admins ∧
  (∀ x, is_admin admins x = true ↔ x ∈ admins) ∧
  total_admins admins = (size (admin_set admins) + 1)%nat.
Proof.
  cbv zeta.
  assert (NoDup (run_roster cs initial_admins) ∧
          MAIN_ADMIN_ID ∈ run_roster cs initial_admins) as [Hnd Hmain].
  { induction cs as [|c cs IH] using rev_ind.
    - split; [apply NoDup_singleton|apply list_elem_of_here].
    - rewrite run_roster_snoc. destruct IH as [Hnd Hmain].
      destruct c as [caller user|caller user]; cbn [run_roster_command].
      + split; [by apply admin_add_NoDup|].
        unfold admin_add. destruct (negb _); [done|].
        repeat case_bool_decide; cbn [snd]; try done. set_solver.
      + split; [by apply admin_remove_NoDup|].
        unfold admin_remove. destruct (negb (is_main_admin _)); [done|].
        case_bool_decide; [done|]. destruct (negb _); [done|]. cbn [snd].
        by apply elem_of_remove_first_ne. }
  split; [done|]. split; [done|]. split.
  - intros x. rewrite is_admin_spec. split; [|tauto]. by intros [->|?].
  - unfold total_admins, admin_set.
    assert ({[MAIN_ADMIN_ID]} ∪ list_to_set (run_roster cs initial_admins)
            = (list_to_set (run_roster cs initial_admins) : gset N)) as ->.
    { apply set_eq. intros x.
      rewrite elem_of_union, elem_of_singleton, elem_of_list_to_set.
      split; [by intros [->|?]|auto]. }
    by rewrite size_list_to_set.
Qed.

End Roster.

(** ** Credits *)

Section Credits.

Variable int : string -> option Z.

Lemma nonneg_default t u : credits_nonneg t → 0 <= default 0 (user_data t !! u).
Proof.
  intros Ht. destruct (user_data t !! u) as [c|] eqn:E; simpl; [by eapply Ht|done].
Qed.

Lemma nonneg_ensure_user u t : credits_nonneg t → credits_nonneg (ensure_user u t).
Proof.
  intros Ht u' c. unfold ensure_user. destruct (user_data t !! u); [apply Ht|].
  cbn [user_data]. intros [[_ <-]|[_ ?]]%lookup_insert_Some; [done|by eapply Ht].
Qed.

Lemma nonneg_set_credits u c t :
  0 <= c → credits_nonneg t → credits_nonneg (set_credits u c t).
Proof.
  intros Hc Ht u' c'. cbn [set_credits user_data].
  intros [[_ <-]|[_ ?]]%lookup_insert_Some; [done|by eapply Ht].
Qed.

Lemma nonneg_ensure_vps u t : credits_nonneg t → credits_nonneg (ensure_vps u t).
Proof. intros Ht u' c. rewrite user_data_ensure_vps. apply Ht. Qed.

Lemma nonneg_set_vps_list u l t :
  credits_nonneg t → credits_nonneg (set_vps_list u l t).
Proof. intros Ht u' c. apply Ht. Qed.

Lemma nonneg_same t t' :
  user_data t' = user_data t → credits_nonneg t → credits_nonneg t'.
Proof. intros E Ht u c. rewrite E. apply Ht. Qed.

(** [X19] What [admin_remove_credits] does to balances.  It changes nobody's
    balance but the target's and no VPS record.  When it reports a removal of
    [r] credits, the target's balance went down by exactly [r], is not
    negative, and has been flushed; [r] is the whole balance for "all", and
    otherwise the requested amount capped at the balance.  When the amount is
    rejected, the balance is as before and nothing is flushed. *)
Theorem remove_credits_effect w user a st :
  let out := admin_remove_credits w int user a st in
  (∀ u, u ≠ user → balance out.2 u = balance st u) ∧
  vps_data (mem out.2) = vps_data (mem st) ∧
  (∀ r, out.1 = inr (CreditsRemoved r) →
     balance out.2 user = balance st user - r ∧
     0 <= balance out.2 user ∧
     disk out.2 = mem out.2 ∧
     if bool_decide (PyStr.lower a = "all") then r = balance st user
     else ∃ amount, int a = Some amount ∧ 0 < amount ∧
                    r = Z.min amount (balance st user)) ∧
  (out.1 = inr RemovalInvalidAmount →
     balance out.2 user = balance st user ∧ disk out.2 = disk st ∧
     saves out.2 = saves st).
Proof.
  apply (wp_elim_let (admin_remove_credits w int user a)).
  unfold admin_remove_credits, balance.
  wp_fast; tab.
  all: split; [intros ? ?; rewrite ?lookup_insert_ne by done; by tab|].
  all: split; [done|].
  all: split; [|intros [=]; try done].
  all: try (by intros ? [=]).
  all: intros r [= <-]; rewrite ?bool_decide_eq_true_2 by done;
    rewrite ?bool_decide_eq_false_2 by done.
  all: rewrite ?Heqb; simpl (default _ (Some _)).
  all: match goal with
       | |- context [default 0 ?o] => generalize (default 0 o); intros have
       end.
  - repeat split; lia.
  - match goal with |- context [have <? ?z] => destruct (Z.ltb_spec have z) end.
    all: split; [done|]; split; [lia|]; split; [done|].
    all: eexists; split; [done|]; lia.
Qed.

Ltac nonneg m :=
  let Hst := fresh "Hst" in
  intros Hst;
  apply (wp_elim_let m (fun out => credits_nonneg (mem out.2)));
  cbv beta.

Ltac nonneg_leaf :=
  repeat match goal with
         | H : (_ <? _) = false |- _ => apply Z.ltb_ge in H
         | H : (_ <? _) = true |- _ => apply Z.ltb_lt in H
         | H : (_ <=? _) = false |- _ => apply Z.leb_gt in H
         | H : (_ <=? _) = true |- _ => apply Z.leb_le in H
         end;
  repeat first
    [ assumption
    | apply nonneg_ensure_user
    | apply nonneg_ensure_vps
    | apply nonneg_set_vps_list
    | apply nonneg_set_credits; [simpl (default _ (Some _)); lia|] ].

(** [X20] No balance ever goes below zero.  If every stored balance is
    non-negative, it still is after a purchase, a grant or a removal of
    credits, however the command ends and whatever the outside world does:
    the debit is made only when the balance covers the price, the refund
    gives back what was taken, and a removal is capped at the balance. *)
Theorem credits_never_negative w ctx st :
  credits_nonneg (mem st) →
  (∀ p c override, credits_nonneg (mem (buy_with_credits w ctx p c override st).2)) ∧
  (∀ user amount, credits_nonneg (mem (admin_credits w user amount st).2)) ∧
  (∀ user a, credits_nonneg (mem (admin_remove_credits w int user a st).2)).
Proof.
  intros Hst. pose proof (nonneg_default _ (author ctx) Hst) as Hown.
  split_and!.
  - intros p c override. revert Hst. nonneg (buy_with_credits w ctx p c override).
    unfold buy_with_credits.
    destruct (dict_get _ PRICES); [|by wp_fast].
    destruct (processor_listed _); cbn [negb]; [|by wp_fast].
    repeat (wp_fast_step; tab).
    all: nonneg_leaf.
  - intros user amount. pose proof (nonneg_default _ user Hst).
    revert Hst. nonneg (admin_credits w user amount).
    unfold admin_credits. repeat (wp_fast_step; tab); nonneg_leaf.
  - intros user a. pose proof (nonneg_default _ user Hst).
    revert Hst. nonneg (admin_remove_credits w int user a).
    unfold admin_remove_credits. repeat (wp_fast_step; tab); nonneg_leaf.
    all: apply nonneg_set_credits; [|by apply nonneg_ensure_user].
    all: match goal with |- context [?x <? ?z] => destruct (Z.ltb_spec x z) end; lia.
Qed.

End Credits.

Lemma remove_credits_effect_witness :
  ∃ st', admin_remove_credits calm decimal 1 "130" (with_credits 100)
         = (inr (CreditsRemoved 100), st') ∧
         balance st' 1 = 100 - 100 ∧ disk st' = mem st'.
Proof.
  destruct (admin_remove_credits calm decimal 1 "130" (with_credits 100))
    as [[e|[|r]] st'] eqn:E; try (vm_compute in E; discriminate E).
  assert (r = 100) as -> by (vm_compute in E; congruence).
  exists st'. split; [reflexivity|].
  destruct (remove_credits_effect decimal calm 1 "130" (with_credits 100)) as (_ & _ & H & _).
  rewrite E in H. by destruct (H 100 eq_refl) as (? & _ & ? & _).
Defined.

Lemma credits_never_negative_witness :
  credits_nonneg (mem (admin_remove_credits calm decimal 1 "130" (with_credits 100)).2).
Proof.
  destruct (credits_never_negative decimal calm U1 (with_credits 100)) as (_ & _ & H).
  - intros u c. cbn. by intros [_ <-]%lookup_singleton_Some.
  - apply H.
Defined.

(** ** Text handling *)

Section Text.

Lemma str_length_app (s t : string) :
  String.length (s +:+ t) = (String.length s + String.length t)%nat.
Proof. induction s as [|c s IH]; simpl; [done|by f_equal]. Qed.

Lemma str_take_length n s : String.length (str_take n s) = Nat.min n (String.length s).
Proof.
  revert s. induction n as [|n IH]; intros [|c s]; simpl; try done. by f_equal.
Qed.

Lemma code_block_length text :
  String.length (code_block text) = (String.length text + 8)%nat.
Proof.
  unfold code_block. rewrite str_length_app. simpl. rewrite str_length_app. simpl. lia.
Qed.

(** [X21] The output and error fields of [exec].  A field is left out exactly
    when the text is blank.  Otherwise its value never exceeds 1024
    characters: a text of at most 1000 characters is shown whole inside the
    code fence, a longer one is cut to its first 1000 characters and marked
    as truncated, which gives exactly 1024.  An empty standard output is
    shown as "No output", while one made of white space only gets no field. *)
Theorem exec_field_bounded text :
  (exec_field text = None ↔ strip text = "") ∧
  (∀ value, exec_field text = Some value →
     (String.length value <= 1024)%nat ∧
     ((String.length text <= 1000)%nat → value = code_block text) ∧
     ((1000 < String.length text)%nat →
        String.length value = 1024%nat ∧
        value = code_block (str_take 1000 text +:+ String newline "... (truncated)"))) ∧
  (exec_field (exec_output text) = None ↔ text ≠ "" ∧ strip text = "").
Proof.
  split_and!.
  - unfold exec_field. by destruct (strip text).
  - intros value. unfold exec_field. destruct (strip text); [done|].
    intros [= <-]. unfold clip.
    destruct (Nat.ltb_spec 1000 (String.length text)) as [Hlong|Hshort].
    + rewrite code_block_length, str_length_app, str_take_length.
      change (String.length (String newline "... (truncated)")) with 16%nat.
      split; [lia|]. split; [lia|]. intros _. split; [lia|done].
    + rewrite code_block_length. split; [lia|]. split; [done|lia].
  - destruct text as [|c r]; [by split; [|intros [? _]]|].
    cbn [exec_output]. unfold exec_field.
    destruct (strip (String c r)); split; try done. by intros [_ ?].
Qed.

Lemma exec_field_bounded_witness :
  ∃ value, exec_field "ok" = Some value ∧ (String.length value <= 1024)%nat.
Proof.
  exists (code_block "ok"). split; [reflexivity|].
  destruct (exec_field_bounded "ok") as (_ & H & _).
  by destruct (H (code_block "ok") eq_refl) as [? _].
Defined.

(** *** Stripping *)

Lemma lstrip_head s :
  lstrip s = "" ∨ ∃ c r, lstrip s = String c r ∧ is_space c = false.
Proof.
  induction s as [|c s IH]; [by left|]. cbn [lstrip].
  destruct (is_space c) eqn:E; [done|]. right. by exists c, s.
Qed.

Lemma rstrip_head c r :
  is_space c = false → ∃ r', rstrip (String c r) = String c r'.
Proof. intros E. cbn [rstrip]. rewrite E. destruct (rstrip r); by eexists. Qed.

Lemma rstrip_idemp s : rstrip (rstrip s) = rstrip s.
Proof.
  induction s as [|c s IH]; [done|]. cbn [rstrip].
  destruct (rstrip s) as [|c' s'] eqn:E.
  - destruct (is_space c) eqn:Ec; [done|]. cbn [rstrip]. by rewrite Ec.
  - cbn [rstrip] in *. by rewrite IH.
Qed.

Lemma strip_idemp s : strip (strip s) = strip s.
Proof.
  unfold strip. destruct (lstrip_head s) as [->|(c & r & -> & Ec)]; [done|].
  destruct (rstrip_head c r Ec) as [r' E]. rewrite E. cbn [lstrip]. rewrite Ec.
  rewrite <- E. apply rstrip_idemp.
Qed.

Lemma has_char_lstrip x s : has_char x s = false → has_char x (lstrip s) = false.
Proof.
  induction s as [|c s IH]; [done|]. cbn [lstrip has_char].
  intros [? ?]%orb_false_iff. destruct (is_space c); [auto|].
  cbn [has_char]. by apply orb_false_iff.
Qed.

Lemma has_char_rstrip x s : has_char x s = false → has_char x (rstrip s) = false.
Proof.
  induction s as [|c s IH]; [done|]. cbn [rstrip has_char].
  intros [Hc Hs]%orb_false_iff. specialize (IH Hs).
  destruct (rstrip s).
  - destruct (is_space c); [done|]. cbn [has_char]. by rewrite Hc.
  - cbn [has_char] in *. by rewrite Hc, IH.
Qed.

Lemma has_char_strip x s : has_char x s = false → has_char x (strip s) = false.
Proof. intros ?. by apply has_char_rstrip, has_char_lstrip. Qed.

(** *** Splitting *)

Lemma split_on_no_sep sep s :
  Forall (fun piece => has_char sep piece = false) (split_on sep s).
Proof.
  induction s as [|c s IH]; cbn [split_on]; [by repeat constructor|].
  case_bool_decide as E; [by constructor|].
  destruct (split_on sep s) as [|p ps].
  - repeat constructor. cbn [has_char]. by rewrite (bool_decide_eq_false_2 _ E).
  - apply Forall_cons in IH as [? ?]. constructor; [|done].
    cbn [has_char]. by rewrite (bool_decide_eq_false_2 _ E).
Qed.

Lemma split_once_second sep s : split_once sep s !! 1%nat = after_first sep s.
Proof.
  induction s as [|c s IH]; cbn [split_once after_first]; [done|].
  case_bool_decide; [done|]. by destruct (split_once sep s).
Qed.

Lemma has_char_after_first x sep s r :
  has_char x s = false → after_first sep s = Some r → has_char x r = false.
Proof.
  induction s as [|c s IH]; cbn [after_first has_char]; [done|].
  intros [? ?]%orb_false_iff.
  destruct (bool_decide (c = sep)); [intros [=]; by subst|auto].
Qed.

Lemma startswith_app p s : PyStr.startswith p s = true → ∃ r, s = p +:+ r.
Proof.
  revert s. induction p as [|a p IH]; intros s; [by exists s|].
  destruct s as [|b s]; cbn [PyStr.startswith]; [done|].
  intros [->%bool_decide_eq_true [r ->]%IH]%andb_true_iff. by exists r.
Qed.

Lemma after_first_later x c s :
  is_Some (after_first x s) → is_Some (after_first x (String c s)).
Proof. intros ?. cbn [after_first]. by case_bool_decide. Qed.

Lemma marker_has_colon line :
  contains "snapshot:" line = true → is_Some (after_first ":" line).
Proof.
  induction line as [|c s IH].
  - cbn. done.
  - cbn [contains]. intros [Hp|Hc]%orb_true_iff.
    + apply startswith_app in Hp as [r ->]. by eexists.
    + by apply after_first_later, IH.
Qed.

(** [X22] The snapshot names of [list_snapshots].  Reading the names never
    raises: every line that holds the marker "snapshot:" holds a colon, so
    the indexing after the split is in range.  The names are, in order, what
    follows the first colon of each marker line, with surrounding white space
    removed; each name is free of surrounding white space and of line
    breaks. *)
Theorem snapshot_names_total info :
  ∃ names,
    snapshot_names info = Some names ∧
    names = (fun line => strip (default "" (after_first ":" line)))
              <$> filter (fun line => Is_true (contains "snapshot:" line))
                    (split_on newline info) ∧
    Forall (fun name => strip name = name ∧ has_char newline name = false) names.
Proof.
  unfold snapshot_names. pose proof (split_on_no_sep newline info) as Hlines.
  induction (split_on newline info) as [|line lines IH].
  - exists []. by repeat split.
  - apply Forall_cons in Hlines as [Hline Hlines].
    destruct (IH Hlines) as (names & Hrun & Hmap & Hall).
    cbn [snapshot_names_of]. rewrite filter_cons.
    destruct (contains "snapshot:" line) eqn:Hmark.
    + destruct (marker_has_colon line Hmark) as [after Hafter].
      rewrite split_once_second, Hafter, Hrun.
      rewrite decide_True by done.
      eexists. split; [done|]. split.
      * rewrite fmap_cons, Hafter. simpl. by f_equal.
      * constructor; [|done]. split; [apply strip_idemp|].
        apply has_char_strip. by eapply has_char_after_first.
    + rewrite decide_False by (cbn; tauto). by exists names.
Qed.

(** *** Sizes *)

Lemma remove_GB_cons c r :
  c ≠ "G"%char → remove_GB (String c r) = String c (remove_GB r).
Proof.
  intros Hc. destruct c as [[] [] [] [] [] [] [] []]; try reflexivity.
  destruct r as [|c' r']; [done|].
  destruct c' as [[] [] [] [] [] [] [] []]; try reflexivity. by destruct Hc.
Qed.

Lemma remove_GB_numeric s : numeric s = true → remove_GB (s +:+ "GB") = s.
Proof.
  induction s as [|c s IH]; [done|]. cbn [numeric].
  intros [Hc Hs]%andb_true_iff.
  change (String c s +:+ "GB") with (String c (s +:+ "GB")).
  rewrite remove_GB_cons, IH; [done|done|].
  intros ->. by vm_compute in Hc.
Qed.

Lemma numeric_pretty_N_go (x : N) s :
  numeric s = true → numeric (pretty_N_go x s) = true.
Proof.
  revert s. induction (N.lt_wf_0 x) as [x _ IH]; intros s Hs.
  destruct (decide (x = 0)%N) as [->|Hx]; [by rewrite pretty_N_go_0|].
  rewrite pretty_N_go_step by lia.
  apply IH; [apply N.div_lt; lia|].
  cbn [numeric]. rewrite Hs, andb_true_r.
  unfold pretty_N_char. by repeat case_match.
Qed.

Lemma numeric_pretty_N (x : N) : numeric (pretty x) = true.
Proof.
  unfold pretty, pretty_N. case_decide; [done|]. by apply numeric_pretty_N_go.
Qed.

Lemma numeric_pretty_Z (x : Z) : numeric (pretty x) = true.
Proof.
  unfold pretty, pretty_Z. destruct x; [done|apply numeric_pretty_N|].
  cbn [String.append numeric]. apply numeric_pretty_N.
Qed.

Lemma remove_GB_gb n : remove_GB (gb n) = pretty n.
Proof. apply remove_GB_numeric, numeric_pretty_Z. Qed.

(** [X23] The sizes written by a creation or a purchase can be read back.
    The reinstall action and the statistics take the number out of the
    stored text by removing "GB"; on the RAM and storage texts of a record
    written by [create_vps] or [buy_with_credits] this gives exactly the
    decimal text of the number the container was launched with. *)
Theorem sizes_read_back w ctx st st' :
  (∀ user ram_gb cpu storage_gb v,
     create_vps w ctx user ram_gb cpu storage_gb st = (inr (Created v), st') →
     remove_GB (ram v) = pretty ram_gb ∧ remove_GB (storage v) = pretty storage_gb) ∧
  (∀ p c override v,
     buy_with_credits w ctx p c override st = (inr (Purchased v), st') →
     ∃ spec, dict_get (PyStr.capitalize p) PLANS = Some spec ∧
       remove_GB (ram v) = pretty (spec_ram_gb spec) ∧
       remove_GB (storage v)
       = pretty (effective_storage override (spec_storage spec))).
Proof.
  split.
  - intros user ram_gb cpu storage_gb v Hrun.
    cut (wp (create_vps w ctx user ram_gb cpu storage_gb)
           (fun r _ => ∀ x, r = inr (Created x) →
              remove_GB (ram x) = pretty ram_gb ∧
              remove_GB (storage x) = pretty storage_gb) st);
      [intros Hwp; exact (wp_elim _ _ _ _ _ Hwp Hrun v eq_refl)|].
    clear. unfold create_vps. wp_fast; try (by intros ? [=]).
    all: intros ? [= <-]; cbn [ram storage]; by rewrite !remove_GB_gb.
  - intros p c override v Hrun.
    apply purchase_success in Hrun
      as (cost & spec & _ & Hspec & _ & _ & _ & _ & _ & _ & ->).
    exists spec. cbn [ram storage]. by rewrite !remove_GB_gb.
Qed.

Lemma sizes_read_back_witness :
  ∃ v st', create_vps calm U1 7 4 2 25 (boot {| user_data := ∅; vps_data := ∅ |})
           = (inr (Created v), st') ∧
           remove_GB (ram v) = "4" ∧ remove_GB (storage v) = "25".
Proof.
  destruct (create_vps calm U1 7 4 2 25 (boot {| user_data := ∅; vps_data := ∅ |}))
    as [[e|[]] st'] eqn:E; try (vm_compute in E; discriminate E).
  eexists _, st'. split; [reflexivity|].
  destruct (sizes_read_back calm U1 (boot {| user_data := ∅; vps_data := ∅ |}) st')
    as [H _].
  exact (H 7%N 4 2 25 _ E).
Defined.

End Text.

(** ** The shared manage view *)

Section SharedView.

(** [X24] Which record a shared view acts on.  When [manage_shared_vps]
    opens a view for a user, the number given addresses a record of the owner
    that lists this user, and the view shows that record.  A button pressed
    by that user then acts on the owner's first record, whichever number was
    given, and a button pressed by anybody else is denied. *)
Theorem shared_view_target user owner k t view :
  manage_shared_vps user owner k t = Some (SharedView view) →
  ∃ l shared first,
    vps_data t !! owner = Some l ∧
    l !! Z.to_nat (k - 1) = Some shared ∧ 1 <= k <= Z.of_nat (length l) ∧
    user ∈ shared_with shared ∧
    view_vps_list view = [shared] ∧
    l !! 0%nat = Some first ∧
    action_target view user t = Some (ActionOn first) ∧
    ∀ other, other ≠ user → action_target view other t = Some ActionDenied.
Proof.
  unfold manage_shared_vps.
  destruct (bad_vps_number owner k t) eqn:Hbad; [done|].
  apply bad_vps_number_false in Hbad as (l & Hl & Hk).
  rewrite Hl. destruct (l !! Z.to_nat (k - 1)) as [shared|] eqn:Hshared; [|done].
  case_bool_decide as Hin; cbn [negb]; [|done].
  intros [= <-].
  destruct l as [|first l']; [by rewrite lookup_nil in Hshared|].
  exists (first :: l'), shared, first. split_and!; try done; try lia.
  - unfold action_target. cbn [view_user_id view_is_admin view_is_shared
      view_selected_index view_owner_id default negb andb].
    rewrite bool_decide_eq_true_2 by done. cbn [negb andb]. by rewrite Hl.
  - intros other Hother. unfold action_target. cbn [view_user_id view_is_admin].
    by rewrite bool_decide_eq_false_2.
Qed.

Lemma shared_view_target_witness :
  let second := set_shared_with [9%N] (sample_vps 7 2 running) in
  let t := {| user_data := ∅;
              vps_data := {[ 7%N := [sample_vps 7 1 running; second] ]} |} in
  ∃ view, manage_shared_vps 9 7 2 t = Some (SharedView view) ∧
          view_vps_list view = [second] ∧
          action_target view 9 t = Some (ActionOn (sample_vps 7 1 running)).
Proof.
  intros second t.
  destruct (manage_shared_vps 9 7 2 t) as [[| |view]|] eqn:E;
    try (vm_compute in E; discriminate E).
  exists view. split; [reflexivity|].
  destruct (shared_view_target 9 7 2 t view E)
    as (l & shared & first & Hl & Hshared & _ & _ & Hview & Hfirst & Htarget & _).
  vm_compute in Hl. injection Hl as <-.
  vm_compute in Hshared. injection Hshared as <-.
  vm_compute in Hfirst. injection Hfirst as <-.
  split; [exact Hview|exact Htarget].
Defined.

End SharedView.

(** ** The deployment list *)

Section Deployments.

Lemma range_step_15 m :
  (m <= 30)%nat →
  range_step m 15
  = if decide (m = 0)%nat then [] else if decide (m <= 15)%nat then [0%nat] else [0; 15]%nat.
Proof.
  intros Hm. unfold range_step.
  destruct (decide (m = 0)%nat) as [->|?]; [done|].
  destruct (decide (m <= 15)%nat).
  - assert ((m + 15 - 1) / 15 = 1)%nat as ->; [|done].
    symmetry. apply (Nat.div_unique _ _ _ (m - 1)); lia.
  - assert ((m + 15 - 1) / 15 = 2)%nat as ->; [|done].
    symmetry. apply (Nat.div_unique _ _ _ (m - 16)); lia.
Qed.

(** [X25] The deployment fields of the admin listing.  The fields show, in
    order and without gaps or repeats, the first 30 lines; there are at most
    two fields, each holds between 1 and 15 lines, and the bounds in a
    field's name are the positions (counted from 1) of its first and last
    line in the listing: the field named "(first-last)" holds exactly the
    lines at the positions first to last.  When there are more than 30
    lines, the number announced as additional is exactly the number of lines
    not shown. *)
Theorem deployment_fields_cover (vps_info : list string) :
  let fields := deployment_fields vps_info in
  concat (snd <$> fields) = take 30 vps_info ∧
  (length fields <= 2)%nat ∧
  Forall (fun field =>
            let '(first, last, chunk) := field in
            (1 <= length chunk <= 15)%nat ∧
            (1 <= first)%nat ∧ (first <= last)%nat ∧ (last <= length vps_info)%nat ∧
            (last + 1 = first + length chunk)%nat ∧
            chunk = take (last + 1 - first) (drop (first - 1) vps_info) ∧
            ∀ k line, chunk !! k = Some line →
                      vps_info !! (first - 1 + k)%nat = Some line)
         fields ∧
  (length (concat (snd <$> fields)) + default 0%nat (additional_vps vps_info)
   = length vps_info)%nat.
Proof.
  cbv zeta. unfold deployment_fields, additional_vps, slice.
  rewrite range_step_15 by lia.
  assert (∀ a b (chunk : list string),
            chunk = take b (drop a vps_info) →
            ∀ k line, chunk !! k = Some line → vps_info !! (a + k)%nat = Some line)
    as Hpos.
  { intros a b chunk -> k line Hk.
    apply lookup_take_Some in Hk as [Hk _]. by rewrite lookup_drop in Hk. }
  destruct (decide (Nat.min (length vps_info) 30 = 0)%nat) as [E|E].
  { assert (length vps_info = 0%nat) as Hlen by lia.
    apply nil_length_inv in Hlen as ->. cbn. split_and!; [done|lia|constructor|done]. }
  destruct (decide (Nat.min (length vps_info) 30 <= 15)%nat) as [Hle|Hgt].
  - assert (length vps_info <= 15)%nat as Hlen by lia.
    cbn [fmap list_fmap concat snd length]. rewrite app_nil_r.
    replace (0 + 15 - 0)%nat with 15%nat by done. rewrite drop_0.
    rewrite !take_ge by lia.
    destruct (Nat.ltb_spec 30 (length vps_info)); [lia|].
    split_and!; [done|cbn [length]; lia| |cbn [default from_option]; unfold id; lia].
    apply Forall_cons. split; [|by apply Forall_nil].
    replace (0 + 1 - 1)%nat with 0%nat by done. rewrite drop_0.
    split_and!; try lia.
    + rewrite take_ge; [done|lia].
    + intros k line Hk. done.
  - cbn [fmap list_fmap concat snd length]. rewrite app_nil_r.
    replace (0 + 15 - 0)%nat with 15%nat by done.
    replace (15 + 15 - 15)%nat with 15%nat by done. rewrite drop_0.
    rewrite take_take_drop. change (15 + 15)%nat with 30%nat.
    split_and!; [done|cbn [length]; lia| |].
    + apply Forall_cons. rewrite length_take.
      replace (0 + 1 - 1)%nat with 0%nat by done. rewrite drop_0.
      split.
      { split_and!; try lia.
        - f_equal. lia.
        - intros k line Hk. apply (Hpos 0%nat 15%nat _ ltac:(by rewrite drop_0) k line Hk). }
      apply Forall_cons. rewrite length_take, length_drop.
      replace (15 + 1 - 1)%nat with 15%nat by done.
      split; [|by apply Forall_nil].
      split_and!; try lia.
      * destruct (decide (30 <= length vps_info)%nat).
        -- f_equal. lia.
        -- rewrite !take_ge by (rewrite length_drop; lia). done.
      * intros k line Hk. by apply (Hpos 15%nat 15%nat _ eq_refl k line).
    + rewrite length_take.
      destruct (Nat.ltb_spec 30 (length vps_info)); cbn [default from_option]; unfold id; lia.
Qed.

End Deployments.

(** ** Who may use a manage view *)

Section ManageAccess.



End ManageAccess.

(** ** Restart *)

Section RestartProofs.

Lemma mark_running_same name l : Forall2 same_but_status l (mark_running name l).
Proof.
  induction l as [|v l IH]; cbn [mark_running]; [constructor|].
  case_bool_decide.
  - constructor; [by repeat split|]. apply Forall2_same_length_lookup_2; [done|].
    intros i x y Hx Hy. assert (x = y) as -> by congruence. by repeat split.
  - constructor; [by repeat split|done].
Qed.





Lemma save_times_run k st :
  save_times k st
  = (inr tt, match k with
             | O => st
             | S _ => {| mem := mem st; disk := mem st; saves := (k + saves st)%nat;
                         cpu_monitor_active := cpu_monitor_active st;
                         trace := trace st |}
             end).
Proof.
  revert st. induction k as [|k IH]; intros st; [done|].
  cbn [save_times]. unfold bind, save_data.
  rewrite IH. destruct k; cbn [mem disk saves cpu_monitor_active trace]; f_equal.
  f_equal. lia.
Qed.

Lemma wp_save_times k Q st :
  (∀ st', mem st' = mem st → trace st' = trace st →
          ((0 < k)%nat → disk st' = mem st) →
          (k = 0%nat → disk st' = disk st ∧ saves st' = saves st) →
          Q (inr tt) st') →
  wp (save_times k) Q st.
Proof.
  intros HQ. unfold wp. rewrite save_times_run. cbn [fst snd].
  apply HQ; destruct k; try done; try lia.
Qed.



End RestartProofs.

(** ** The sharing invariant over every command that writes the tables *)

Section SharingInvariant.

Ltac nss :=
  eauto 12 using nss_ensure_user, nss_set_credits, nss_ensure_vps, nss_append,
    nss_update_nth, nss_del_nth, nss_del_list, nss_update_storage,
    nss_mark_all_stopped.

Ltac preserving m :=
  let st := fresh "st" in let Hst := fresh "Hst" in
  intros st Hst;
  apply (wp_elim_let m (fun out => no_self_share (mem out.2)));
  cbv beta.

Lemma mark_running_shared name l i v' :
  mark_running name l !! i = Some v' →
  ∃ v, l !! i = Some v ∧ shared_with v' = shared_with v.
Proof.
  intros Hv'. pose proof (mark_running_same name l) as Hsame.
  destruct (l !! i) as [v|] eqn:Hv.
  - exists v. split; [done|].
    by destruct (Forall2_lookup_lr _ _ _ _ _ _ Hsame Hv Hv') as (_ & _ & _ & _ & _ & _ & _ & ?).
  - apply Forall2_length in Hsame. apply lookup_ge_None in Hv.
    apply lookup_lt_Some in Hv'. lia.
Qed.

Lemma nss_restart_marks name t : no_self_share t → no_self_share (restart_marks name t).
Proof.
  apply no_self_share_from. intros o l' i v' Hl Hi.
  cbn [restart_marks vps_data] in Hl. right.
  apply lookup_fmap_Some in Hl as (l & <- & Hl).
  apply mark_running_shared in Hi as (v & Hv & Hs).
  exists l, i, v. rewrite Hs. eauto.
Qed.

Lemma preserves_restart_vps w name : preserves no_self_share (restart_vps w name).
Proof.
  preserving (restart_vps w name). unfold restart_vps.
  repeat first [apply wp_save_times; intros ? ? ? ? ? | wp_fast_step].
  all: cbn [mem] in *;
    try match goal with Hm : mem _ = _ |- _ => rewrite Hm end;
    auto using nss_restart_marks.
Qed.

Lemma preserves_admin_remove_credits w int user a :
  preserves no_self_share (admin_remove_credits w int user a).
Proof.
  preserving (admin_remove_credits w int user a).
  unfold admin_remove_credits. wp_fast; nss.
Qed.

Lemma preserves_show_credits w ctx : preserves no_self_share (show_credits w ctx).
Proof.
  preserving (show_credits w ctx). unfold show_credits. wp_fast; nss.
Qed.

Lemma wp_subprocess_exec w c (Q : exn + bool -> state -> Prop) st :
  match respond w (trace st) c with
  | ok => Q (inr true) (log c st)
  | failed => Q (inr false) (log c st)
  | forbidden => Q (inl LxcError) (log c st)
  end →
  wp (subprocess_exec w c) Q st.
Proof. unfold wp, subprocess_exec. by destruct (respond w (trace st) c). Qed.

Lemma preserves_stop_all_confirm w : preserves no_self_share (stop_all_confirm w).
Proof.
  preserving (stop_all_confirm w). unfold stop_all_confirm.
  apply wp_try, wp_bind, wp_subprocess_exec.
  destruct (respond w (trace st) lxc_stop_all); cbv beta iota;
    wp_fast; nss.
Qed.

Lemma preserves_reinstall_confirm w int owner name held :
  preserves no_self_share (reinstall_confirm w int owner name held).
Proof.
  preserving (reinstall_confirm w int owner name held).
  unfold reinstall_confirm, parse_int, held_fields, write_held.
  destruct held as [index|vps]; wp_fast; nss.
  all: repeat (apply nss_update_nth; [by intros v x; cbn; auto|]); done.
Qed.

(** A share with the author as grantee either writes nothing, and is not
    reported as a share, or leaves a record that lists its own owner. *)
Lemma share_self_breaks w ctx n st :
  let out := share_user w ctx (author ctx) n st in
  (mem out.2 = mem st ∧ out.1 ≠ inr Shared) ∨ ¬ no_self_share (mem out.2).
Proof.
  apply (wp_elim_let (share_user w ctx (author ctx) n)).
  unfold share_user. wp_fast; try (by left).
  all: right; intros Hnss.
  all: refine (Hnss (author ctx) _ (Z.to_nat (n - 1)) _ _ _ _);
    [ cbn [update_nth_vps vps_data]; rewrite lookup_alter_eq;
      match goal with H : vps_data _ !! _ = Some _ |- _ => rewrite H end;
      reflexivity
    | rewrite list_lookup_alter_eq;
      match goal with H : _ !! Z.to_nat _ = Some _ |- _ => rewrite H end;
      reflexivity
    | cbn [shared_with set_shared_with]; apply elem_of_app; right;
      apply list_elem_of_singleton; reflexivity ].
Qed.

(** [C6], as the code has it.  [share_user] appends the grantee to
    [shared_with] whoever the grantee is.  The invariant that no record
    lists its own owner is kept by a share with anybody other than the
    author, and by every other command that writes the tables: revoking a
    share, creating, buying, deleting, resizing, starting, stopping,
    restarting, the confirmed reinstall, the confirmed stop of all
    containers, granting, removing and showing credits, the monitor and its
    control command.  A share with the author as grantee either writes
    nothing, and is then not reported as a share, or leaves a record that
    lists its own owner. *)
Theorem sharing_invariant w ctx :
  (∀ grantee n, grantee ≠ author ctx →
     preserves no_self_share (share_user w ctx grantee n)) ∧
  (∀ grantee n, preserves no_self_share (revoke_share w ctx grantee n)) ∧
  (∀ user ram cpu storage,
     preserves no_self_share (create_vps w ctx user ram cpu storage)) ∧
  (∀ p c override, preserves no_self_share (buy_with_credits w ctx p c override)) ∧
  (∀ user n, preserves no_self_share (delete_vps w ctx user n)) ∧
  (∀ container ram cpu size,
     preserves no_self_share (resize_vps w container ram cpu size)) ∧
  (∀ owner i, preserves no_self_share (manage_start w owner i) ∧
              preserves no_self_share (manage_stop w owner i)) ∧
  (∀ user amount, preserves no_self_share (admin_credits w user amount)) ∧
  (∀ action, preserves no_self_share (cpu_monitor_control w action)) ∧
  preserves no_self_share (cpu_monitor_body w) ∧
  (∀ name, preserves no_self_share (restart_vps w name)) ∧
  (∀ int owner name held,
     preserves no_self_share (reinstall_confirm w int owner name held)) ∧
  preserves no_self_share (stop_all_confirm w) ∧
  (∀ int user amount_or_all,
     preserves no_self_share (admin_remove_credits w int user amount_or_all)) ∧
  preserves no_self_share (show_credits w ctx) ∧
  (∀ n st,
     let out := share_user w ctx (author ctx) n st in
     (mem out.2 = mem st ∧ out.1 ≠ inr Shared) ∨ ¬ no_self_share (mem out.2)).
Proof.
  split; [intros; by apply preserves_share_user|].
  split; [intros; apply preserves_revoke_share|].
  split; [intros; apply preserves_create_vps|].
  split; [intros; apply preserves_buy_with_credits|].
  split; [intros; apply preserves_delete_vps|].
  split; [intros; apply preserves_resize_vps|].
  split; [intros; apply preserves_manage|].
  split; [intros; apply preserves_admin_credits|].
  split; [intros; apply preserves_cpu_monitor_control|].
  split; [apply preserves_cpu_monitor_body|].
  split; [intros; apply preserves_restart_vps|].
  split; [intros; apply preserves_reinstall_confirm|].
  split; [apply preserves_stop_all_confirm|].
  split; [intros; apply preserves_admin_remove_credits|].
  split; [apply preserves_show_credits|].
  intros n st. apply share_self_breaks.
Qed.

Lemma no_self_share_one_of_7 s : no_self_share (mem (one_of_7 s [])).
Proof.
  intros o l i v Hl Hi. cbn in Hl.
  apply lookup_singleton_Some in Hl as [<- <-].
  apply list_lookup_singleton_Some in Hi as [_ <-].
  apply not_elem_of_nil.
Defined.

Lemma sharing_invariant_witness :
  let ctx := {| author := 7; guild := true |} in
  no_self_share (mem (share_user calm ctx 9 1 (one_of_7 running [])).2) ∧
  no_self_share (mem (restart_vps calm "vps-7-1" (one_of_7 stopped [])).2).
Proof.
  intros ctx.
  destruct (sharing_invariant calm ctx)
    as (Hshare & _ & _ & _ & _ & _ & _ & _ & _ & _ & Hrestart & _).
  split.
  - apply (Hshare 9%N 1).
    + cbn. discriminate.
    + apply no_self_share_one_of_7.
  - apply Hrestart. apply no_self_share_one_of_7.
Defined.

(** [C6] fails as stated: owner 7 shares record #1 with user 7, and the
    record then lists its own owner. *)
Lemma owner_shares_with_self :
  let ctx := {| author := 7; guild := true |} in
  let out := share_user calm ctx 7 1 (one_of_7 running []) in
  no_self_share (mem (one_of_7 running [])) ∧
  out.1 = inr Shared ∧
  shared_with <$> records out.2 7 = [[7%N]] ∧
  ¬ no_self_share (mem out.2).
Proof.
  cbv zeta. split; [apply no_self_share_one_of_7|].
  split; [by vm_compute|]. split; [by vm_compute|].
  intros H.
  refine (H 7%N [set_shared_with [7%N] (sample_vps 7 1 running)] 0%nat _ _ _ _).
  - by vm_compute.
  - reflexivity.
  - cbn. apply list_elem_of_here.
Qed.

End SharingInvariant.
